(** * Ema_Tracker: indicator engine, crossover policy, training store, model service

    A shallow embedding of the parts of the tracker that its specification
    makes checkable statements about:

    - [technical_indicators] (EMA, RSI, Bollinger Bands, MACD, ATR and their
      input validation),
    - [node.js] (the alert policy [shouldAlert], [checkForCrossover], the
      real-time tick handler and the label backfill; the tracker's own EMA
      and ATR with the cache update [updateEMA]; the list of tracked pairs
      of [getFuturesPairs]; saving and loading of the training data),
    - [ml_data_collector.js] (the on-disk label backfill, [collectDataPoint]
      and [getSymbolData]),
    - [ml_alternative.js] ([normalizeValue] and [denormalizeValue], the
      model cache of [predictPriceChange], [ensemblePrediction] and
      [pruneOldModelVersions]).

    Numbers.  A JavaScript number is modelled by [JS.Num]: a rational, one of
    the two infinities, or NaN.  Arithmetic is exact: rounding, overflow and
    the sign of zero are not modelled.  Timestamps and periods are integers
    ([Z]).  [Math.sqrt] on the rationals is a parameter of the development;
    only its sign is ever used.

    Since the code computes in doubles, a theorem about the value of a
    number is stated where the exact result and the rounded one agree in
    what is said: on magnitudes that cannot overflow ([Limits]), and about
    orderings and ends of ranges that rounding, which is monotone, keeps.
    Where the doubles themselves decide - a sum that overflows - the
    functions concerned are also given on binary64 floats ([Doubles]) and
    evaluated there.

    Files.  A file of training points is what [JSON.parse] makes of its
    text: an array of points, or nothing when the text does not parse.  A
    text that parses to a JSON value other than an array is not
    represented, and a number that is NaN or infinite, which
    [JSON.stringify] writes as null, is taken not to occur in a point that
    is read back. *)

From Stdlib Require Import ZArith QArith Qabs Lqa Lia List Ascii String Bool Sorted.
From Stdlib Require Import PrimFloat Uint63.
From stdpp Require Import gmap strings list pretty.
Import ListNotations.

Local Open Scope Z_scope.

(* ================================================================== *)
(** * JavaScript values *)
(* ================================================================== *)

Module JS.

(** ** Numbers *)

Inductive Num : Type :=
| NaN
| PInf
| NInf
| Fin (q : Q).

Definition ofZ (z : Z) : Num := Fin (inject_Z z).

Definition opp (a : Num) : Num :=
  match a with
  | NaN => NaN
  | PInf => NInf
  | NInf => PInf
  | Fin x => Fin (- x)
  end.

Definition add (a b : Num) : Num :=
  match a, b with
  | NaN, _ | _, NaN => NaN
  | PInf, NInf | NInf, PInf => NaN
  | PInf, _ | _, PInf => PInf
  | NInf, _ | _, NInf => NInf
  | Fin x, Fin y => Fin (x + y)
  end.

Definition sub (a b : Num) : Num := add a (opp b).

(** An infinity times a finite number: the sign decides, and zero gives
    NaN. *)
Definition scaleInf (positive : bool) (x : Q) : Num :=
  match (x ?= 0)%Q with
  | Eq => NaN
  | Gt => if positive then PInf else NInf
  | Lt => if positive then NInf else PInf
  end.

Definition mul (a b : Num) : Num :=
  match a, b with
  | NaN, _ | _, NaN => NaN
  | PInf, PInf | NInf, NInf => PInf
  | PInf, NInf | NInf, PInf => NInf
  | PInf, Fin x | Fin x, PInf => scaleInf true x
  | NInf, Fin x | Fin x, NInf => scaleInf false x
  | Fin x, Fin y => Fin (x * y)
  end.

(** Division.  A finite number over zero is an infinity of the sign of the
    numerator (the zero is taken as positive), and [0 / 0] is NaN. *)
Definition div (a b : Num) : Num :=
  match a, b with
  | NaN, _ | _, NaN => NaN
  | (PInf | NInf), (PInf | NInf) => NaN
  | PInf, Fin y => match (y ?= 0)%Q with Lt => NInf | _ => PInf end
  | NInf, Fin y => match (y ?= 0)%Q with Lt => PInf | _ => NInf end
  | Fin _, (PInf | NInf) => Fin 0
  | Fin x, Fin y =>
      match (y ?= 0)%Q with
      | Eq => match (x ?= 0)%Q with Eq => NaN | Gt => PInf | Lt => NInf end
      | _ => Fin (x / y)
      end
  end.

(** Comparison; [None] when an operand is NaN. *)
Definition compare (a b : Num) : option comparison :=
  match a, b with
  | NaN, _ | _, NaN => None
  | PInf, PInf | NInf, NInf => Some Eq
  | PInf, _ | _, NInf => Some Gt
  | _, PInf | NInf, _ => Some Lt
  | Fin x, Fin y => Some (x ?= y)%Q
  end.

Definition ltb (a b : Num) : bool :=
  match compare a b with Some Lt => true | _ => false end.
Definition gtb (a b : Num) : bool :=
  match compare a b with Some Gt => true | _ => false end.
Definition leb (a b : Num) : bool :=
  match compare a b with Some Lt | Some Eq => true | _ => false end.
Definition geb (a b : Num) : bool :=
  match compare a b with Some Gt | Some Eq => true | _ => false end.
(** [===] on two numbers. *)
Definition eqb (a b : Num) : bool :=
  match compare a b with Some Eq => true | _ => false end.

(** Two arrays of numbers that agree entry by entry under [===]. *)
Fixpoint sameNumbers (l1 l2 : list Num) : bool :=
  match l1, l2 with
  | [], [] => true
  | x :: l1', y :: l2' => eqb x y && sameNumbers l1' l2'
  | _, _ => false
  end.

Definition numIsNaN (a : Num) : bool :=
  match a with NaN => true | _ => false end.

(** [Number.isFinite] *)
Definition isFinite (a : Num) : bool :=
  match a with Fin _ => true | _ => false end.

(** [Math.abs] *)
Definition abs (a : Num) : Num :=
  match a with
  | NaN => NaN
  | PInf | NInf => PInf
  | Fin x => Fin (Qabs x)
  end.

(** [Math.max] and [Math.min] of two numbers: NaN when either is. *)
Definition max (a b : Num) : Num :=
  match compare a b with
  | None => NaN
  | Some Lt => b
  | Some _ => a
  end.

Definition min (a b : Num) : Num :=
  match compare a b with
  | None => NaN
  | Some Gt => b
  | Some _ => a
  end.

(** [Math.sqrt], over a square root [sqrtQ] of the non-negative
    rationals. *)
Definition sqrt (sqrtQ : Q -> Q) (a : Num) : Num :=
  match a with
  | NaN | NInf => NaN
  | PInf => PInf
  | Fin x => match (x ?= 0)%Q with Lt => NaN | _ => Fin (sqrtQ x) end
  end.

(** ** Scalars: what an array slot or a record field can hold *)

Inductive Scalar : Type :=
| SUndefined
| SNull
| SNum (x : Num).

(** [Number(v)] *)
Definition toNumber (v : Scalar) : Num :=
  match v with
  | SUndefined => NaN
  | SNull => Fin 0
  | SNum x => x
  end.

(** The global [isNaN(v)] converts first. *)
Definition isNaN (v : Scalar) : bool := numIsNaN (toNumber v).

Definition isNull (v : Scalar) : bool :=
  match v with SNull => true | _ => false end.
Definition isUndefined (v : Scalar) : bool :=
  match v with SUndefined => true | _ => false end.

(** [a[i]]: reading past the end gives [undefined]. *)
Definition index (a : list Scalar) (i : nat) : Scalar := nth i a SUndefined.

(** ** Exceptions *)

Inductive Result (A : Type) : Type :=
| Return (a : A)
| Throw (message : string).
Arguments Return {A} a.
Arguments Throw {A} message.

Definition bind {A B} (r : Result A) (k : A -> Result B) : Result B :=
  match r with
  | Return a => k a
  | Throw m => Throw m
  end.

(** [try { body } catch (error) { throw new Error(`${name}: ${error.message}`) }] *)
Definition rethrow {A} (functionName : string) (body : Result A) : Result A :=
  match body with
  | Return a => Return a
  | Throw m => Throw (functionName +:+ ": " +:+ m)
  end.

Definition throws {A} (r : Result A) : bool :=
  match r with Throw _ => true | Return _ => false end.

End JS.

Notation "'let!' x ':=' r 'in' k" := (JS.bind r (fun x => k))
  (at level 10, x name, r at level 100, k at level 200).

(* ================================================================== *)
(** * technical_indicators: the indicator engine *)
(* ================================================================== *)

Module TechnicalIndicators.
Import JS.

(** The [prices] argument: an array of scalars, or something that is not an
    array at all. *)
Inductive Prices : Type :=
| NotArray (v : Scalar)
| PArr (a : list Scalar).

(** The slots of [prices]; only read once [validatePriceData] has let an
    array through. *)
Definition elements (p : Prices) : list Scalar :=
  match p with
  | NotArray _ => []
  | PArr a => a
  end.

Definition invalidPrice (price : Scalar) : bool :=
  isNull price || isUndefined price || isNaN price.

Definition validatePriceData (prices : Prices) (minLength : Z)
    (functionName : string) : Result bool :=
  match prices with
  | NotArray _ => Throw (functionName +:+ ": Prices must be an array")
  | PArr a =>
      if Z.of_nat (length a) <? minLength then Return false
      else if existsb invalidPrice a
           then Throw (functionName +:+ ": All prices must be valid numbers")
           else Return true
  end.

Definition padArray {A} (array : list A) (targetLength : nat) (padValue : A)
    (padStart : bool) : list A :=
  if (targetLength <=? length array)%nat then array
  else
    let padding := repeat padValue (targetLength - length array) in
    if padStart then padding ++ array else array ++ padding.

(** [sum += a[i]] over the slots of [a], from [init]. *)
Definition sumFrom (init : Num) (a : list Scalar) : Num :=
  fold_left (fun sum p => add sum (toNumber p)) a init.

(** An array of finite numbers: the well-formed input. *)
Definition numbers (l : list Q) : Prices :=
  PArr (map (fun q => SNum (Fin q)) l).

(** ** EMA *)

(** The loop [for (i = period; i < prices.length; i++)] over the remaining
    prices. *)
Fixpoint emaLoop (k ema : Num) (rest : list Scalar) : list Num :=
  match rest with
  | [] => []
  | p :: rest' =>
      let ema' := add (mul (sub (toNumber p) ema) k) ema in
      ema' :: emaLoop k ema' rest'
  end.

Definition calculateEMA (prices : Prices) (period : Z) : Result (list Scalar) :=
  let functionName := "calculateEMA"%string in
  if period <=? 0
  then Throw (functionName +:+ ": Period must be a positive integer")
  else
    let! enough := validatePriceData prices period functionName in
    let a := elements prices in
    if negb enough
    then Return (padArray [] (length a)
                   (if (0 <? length a)%nat then index a 0 else SNum (Fin 0)) true)
    else
      let k := div (Fin 2) (ofZ (period + 1)) in
      let sum := sumFrom (Fin 0) (firstn (Z.to_nat period) a) in
      let ema := div sum (ofZ period) in
      let emaValues := ema :: emaLoop k ema (skipn (Z.to_nat period) a) in
      Return (padArray (map SNum emaValues) (length a) (index a 0) true).

(** ** RSI *)

(** [changes[i-1] = prices[i] - prices[i-1]] *)
Fixpoint priceChanges (a : list Scalar) : list Num :=
  match a with
  | p :: (q :: _) as rest => sub (toNumber q) (toNumber p) :: priceChanges rest
  | _ => []
  end.

Definition rsiOf (gains losses : Num) : Num :=
  if eqb losses (Fin 0) then Fin 100
  else
    let rs := div gains losses in
    sub (Fin 100) (div (Fin 100) (add (Fin 1) rs)).

Definition seedGainsLosses (changes : list Num) : Num * Num :=
  fold_left
    (fun gl c =>
       let '(gains, losses) := gl in
       if geb c (Fin 0) then (add gains c, losses) else (gains, sub losses c))
    changes (Fin 0, Fin 0).

Fixpoint rsiLoop (period : Num) (gains losses : Num) (rest : list Num)
    : list Num :=
  match rest with
  | [] => []
  | c :: rest' =>
      let p1 := sub period (Fin 1) in
      let '(gains', losses') :=
        if geb c (Fin 0)
        then (div (add (mul gains p1) c) period, div (mul losses p1) period)
        else (div (mul gains p1) period, div (sub (mul losses p1) c) period) in
      rsiOf gains' losses' :: rsiLoop period gains' losses' rest'
  end.

Definition calculateRSI (prices : Prices) (period : Z) : Result (list Scalar) :=
  let functionName := "calculateRSI"%string in
  if period <=? 0
  then Throw (functionName +:+ ": Period must be a positive integer")
  else
    let! enough := validatePriceData prices (period + 1) functionName in
    let a := elements prices in
    if negb enough
    then Return (padArray [] (length a) (SNum (Fin 50)) true)
    else
      let changes := priceChanges a in
      let '(gains, losses) := seedGainsLosses (firstn (Z.to_nat period) changes) in
      let rsiValues :=
        rsiOf gains losses
        :: rsiLoop (ofZ period) gains losses (skipn (Z.to_nat period) changes) in
      Return (padArray (map SNum rsiValues) (length a) (SNum (Fin 50)) true).

(** ** Bollinger Bands *)

Record Bands : Type := mkBands {
  upper : list Scalar;
  middle : list Scalar;
  lower : list Scalar
}.

(** The prices [prices[i-(period-1)] .. prices[i]]. *)
Definition window (a : list Scalar) (period i : nat) : list Scalar :=
  firstn period (skipn (i - (period - 1)) a).

Definition sumSquaredDiffFrom (sma : Num) (w : list Scalar) : Num :=
  fold_left
    (fun s p => let d := sub (toNumber p) sma in add s (mul d d)) w (Fin 0).

(** One turn of the outer loop: [(sma, upper, lower)] at index [i]. *)
Definition bandAt (sqrtQ : Q -> Q) (a : list Scalar) (period : Z)
    (multiplier : Num) (i : nat) : Num * Num * Num :=
  let w := window a (Z.to_nat period) i in
  let sma := div (sumFrom (Fin 0) w) (ofZ period) in
  let stdDev := sqrt sqrtQ (div (sumSquaredDiffFrom sma w) (ofZ period)) in
  (sma, add sma (mul multiplier stdDev), sub sma (mul multiplier stdDev)).

Definition calculateBollingerBands (sqrtQ : Q -> Q) (prices : Prices)
    (period : Z) (multiplier : Num) : Result Bands :=
  let functionName := "calculateBollingerBands"%string in
  if period <=? 0
  then Throw (functionName +:+ ": Period must be a positive integer")
  else if negb (isFinite multiplier) || leb multiplier (Fin 0)
  then Throw (functionName +:+ ": Multiplier must be a positive number")
  else
    let! enough := validatePriceData prices period functionName in
    let a := elements prices in
    let defaultValue := if (0 <? length a)%nat then index a 0 else SNum (Fin 0) in
    let padUpper := SNum (mul (toNumber defaultValue) (Fin (11 # 10))) in
    let padLower := SNum (mul (toNumber defaultValue) (Fin (9 # 10))) in
    if negb enough
    then Return {| upper := repeat padUpper (length a);
                   middle := repeat defaultValue (length a);
                   lower := repeat padLower (length a) |}
    else
      let first := (Z.to_nat period - 1)%nat in
      let rows := map (bandAt sqrtQ a period multiplier)
                      (seq first (length a - first)) in
      Return {| upper := padArray (map (fun r => SNum (snd (fst r))) rows)
                           (length a) padUpper true;
                middle := padArray (map (fun r => SNum (fst (fst r))) rows)
                            (length a) defaultValue true;
                lower := padArray (map (fun r => SNum (snd r)) rows)
                           (length a) padLower true |}.

(** ** MACD *)

Record Macd : Type := mkMacd {
  macd : list Scalar;
  signal : list Scalar;
  histogram : list Scalar
}.

(** The loop that fills [macdLine]. *)
Definition macdLineOf (fastEMA slowEMA : list Scalar) (slowPeriod : Z)
    (n : nat) : list Scalar :=
  map (fun i =>
         if Z.of_nat i <? slowPeriod - 1 then SNum (Fin 0)
         else SNum (sub (toNumber (index fastEMA i)) (toNumber (index slowEMA i))))
      (seq 0 n).

(** The loop that fills [histogram]. *)
Definition histogramOf (macdLine signalLine : list Scalar)
    (slowPeriod signalPeriod : Z) : list Scalar :=
  map (fun i =>
         if Z.of_nat i <? slowPeriod + signalPeriod - 2 then SNum (Fin 0)
         else SNum (sub (toNumber (index macdLine i)) (toNumber (index signalLine i))))
      (seq 0 (length macdLine)).

Definition calculateMACD (prices : Prices) (fastPeriod slowPeriod signalPeriod : Z)
    : Result Macd :=
  let functionName := "calculateMACD"%string in
  if fastPeriod <=? 0
  then Throw (functionName +:+ ": Fast period must be a positive integer")
  else if slowPeriod <=? 0
  then Throw (functionName +:+ ": Slow period must be a positive integer")
  else if signalPeriod <=? 0
  then Throw (functionName +:+ ": Signal period must be a positive integer")
  else
    let! enough :=
      validatePriceData prices (Z.max fastPeriod slowPeriod) functionName in
    let a := elements prices in
    if negb enough
    then Return {| macd := repeat (SNum (Fin 0)) (length a);
                   signal := repeat (SNum (Fin 0)) (length a);
                   histogram := repeat (SNum (Fin 0)) (length a) |}
    else
      rethrow functionName
        (let! fastEMA := calculateEMA prices fastPeriod in
         let! slowEMA := calculateEMA prices slowPeriod in
         let macdLine := macdLineOf fastEMA slowEMA slowPeriod (length a) in
         let! signalLine := calculateEMA (PArr macdLine) signalPeriod in
         Return {| macd := macdLine;
                   signal := signalLine;
                   histogram :=
                     histogramOf macdLine signalLine slowPeriod signalPeriod |}).

(** ** ATR *)

(** A slot of [klines]: an object with [high], [low] and [close], or
    something that is not an object. *)
Inductive Kline : Type :=
| KNotObject (v : Scalar)
| KObj (high low close : Scalar).

Inductive Klines : Type :=
| KNotArray (v : Scalar)
| KArr (a : list Kline).

Definition kHigh (k : Kline) : Scalar :=
  match k with KObj h _ _ => h | KNotObject _ => SUndefined end.
Definition kLow (k : Kline) : Scalar :=
  match k with KObj _ l _ => l | KNotObject _ => SUndefined end.
Definition kClose (k : Kline) : Scalar :=
  match k with KObj _ _ c => c | KNotObject _ => SUndefined end.

(** The validation loop over [klines], from index [i]. *)
Fixpoint validateKlines (functionName : string) (i : nat) (a : list Kline)
    : Result unit :=
  match a with
  | [] => Return tt
  | KNotObject _ :: _ =>
      Throw (functionName +:+ ": Each kline must be an object")
  | KObj high low close :: rest =>
      if isNaN high || isNaN low || isNaN close
      then Throw (functionName +:+ ": Kline at index " +:+ pretty i
                    +:+ " has invalid high, low, or close value")
      else validateKlines functionName (S i) rest
  end.

Fixpoint trueRangesOf (a : list Kline) : list Num :=
  match a with
  | prev :: (k :: _) as rest =>
      let high := toNumber (kHigh k) in
      let low := toNumber (kLow k) in
      let prevClose := toNumber (kClose prev) in
      let tr1 := sub high low in
      let tr2 := abs (sub high prevClose) in
      let tr3 := abs (sub low prevClose) in
      max (max tr1 tr2) tr3 :: trueRangesOf rest
  | _ => []
  end.

Definition sumNums (l : list Num) : Num := fold_left add l (Fin 0).

Definition calculateATR (klines : Klines) (period : Z) : Result Num :=
  let functionName := "calculateATR"%string in
  if period <=? 0
  then Throw (functionName +:+ ": Period must be a positive integer")
  else
    match klines with
    | KNotArray _ => Throw (functionName +:+ ": Klines must be an array")
    | KArr a =>
        if Z.of_nat (length a) <? period + 1 then Return (Fin 0)
        else
          let! _ := validateKlines functionName 0 a in
          let trueRanges := trueRangesOf a in
          if Z.of_nat (length trueRanges) <? period
          then Return (div (sumNums trueRanges)
                           (ofZ (Z.of_nat (length trueRanges))))
          else
            let recent :=
              skipn (length trueRanges - Z.to_nat period) trueRanges in
            Return (div (sumNums recent) (ofZ period))
    end.

End TechnicalIndicators.

(* ================================================================== *)
(** * node.js: the per-symbol tracker *)
(* ================================================================== *)

Module Tracker.
Import JS.

(** ['above'] / ['below'] *)
Inductive Side : Type := above | below.

#[global] Instance Side_eq_dec : EqDecision Side.
Proof. solve_decision. Defined.

(** ['up'] / ['down'] *)
Inductive CrossType : Type := up | down.

(** A cached candle. *)
Record Candle : Type := mkCandle {
  time : Z;
  open : Num;
  high : Num;
  low : Num;
  close : Num;
  volume : Num
}.

(** The [k] object of a stream message, with its price already through
    [parseFloat]; [x] says whether the candle is closed. *)
Record KlineMsg : Type := mkKlineMsg {
  k_t : Z;
  k_c : Num;
  k_x : bool
}.

(** A training point.  The indicator columns ([ema], [ema_diff], [rsi] and
    the like), which no backfill reads or writes, are left out: nothing
    below speaks of their values.  [futurePriceChange] is the property that
    [ml_data_collector.js] sets; it is [undefined] until then. *)
Record DataPoint : Type := mkDataPoint {
  dp_timestamp : Z;
  dp_symbol : string;
  dp_close : Num;
  future_price_change : Scalar;
  label : Scalar;
  futurePriceChange : Scalar
}.

(** A file under [ML_DATA_DIR/<symbol>/]: what [JSON.parse] makes of it,
    an exception ([Unparsable]) or an array of points ([Parsed]).  A text
    that parses to another JSON value - an object, a number, null - has no
    constructor here; on it [findIndex] and [push] throw. *)
Inductive DataFile : Type :=
| Unparsable
| Parsed (data : list DataPoint).

(** A directory, as [fs.readdirSync] lists it. *)
Definition Directory : Type := list (string * DataFile).

(** What the notifier was handed. *)
Record Alert : Type := mkAlert {
  al_symbol : string;
  al_crossType : CrossType;
  al_price : Num;
  al_ema : Num;
  al_difference : Num;
  al_prediction : option Num
}.

Inductive LogLine : Type :=
| LogCooldownSkip (symbol : string)
| LogCrossover (symbol : string) (crossType : CrossType)
| LogPotentialCrossover (symbol : string) (side : Side) (toConsole : bool)
| LogFuturePriceChange (symbol : string) (priceChange : Num)
| LogError (context : string).

Record State : Type := mkState {
  lastAlerts : gmap string Z;
  coinStates : gmap string Side;
  klineCache : gmap string (list Candle);
  emaCache : gmap string (list Num);
  trainingData : gmap string (list DataPoint);
  mlDataDir : gmap string Directory;
  sentAlerts : list Alert;
  logged : list LogLine
}.

Definition setLastAlerts (st : State) (v : gmap string Z) : State :=
  mkState v (coinStates st) (klineCache st) (emaCache st) (trainingData st)
          (mlDataDir st) (sentAlerts st) (logged st).
Definition setCoinStates (st : State) (v : gmap string Side) : State :=
  mkState (lastAlerts st) v (klineCache st) (emaCache st) (trainingData st)
          (mlDataDir st) (sentAlerts st) (logged st).
Definition setTrainingData (st : State) (v : gmap string (list DataPoint)) : State :=
  mkState (lastAlerts st) (coinStates st) (klineCache st) (emaCache st) v
          (mlDataDir st) (sentAlerts st) (logged st).
Definition setMlDataDir (st : State) (v : gmap string Directory) : State :=
  mkState (lastAlerts st) (coinStates st) (klineCache st) (emaCache st)
          (trainingData st) v (sentAlerts st) (logged st).
(** [sendTelegramAlert] / [sendTelegramAlertWithML]: one message out. *)
Definition send (st : State) (a : Alert) : State :=
  mkState (lastAlerts st) (coinStates st) (klineCache st) (emaCache st)
          (trainingData st) (mlDataDir st) (sentAlerts st ++ [a]) (logged st).
Definition log (st : State) (l : LogLine) : State :=
  mkState (lastAlerts st) (coinStates st) (klineCache st) (emaCache st)
          (trainingData st) (mlDataDir st) (sentAlerts st) (logged st ++ [l]).

Section Policy.
(** The configured cooldown, in milliseconds. *)
Variable ALERT_COOLDOWN : Z.

(** [now] is what [Date.now()] returns during the call. *)
Definition shouldAlert (now : Z) (st : State) (symbol : string)
    (currentState : Side) : State * bool :=
  let previousState := coinStates st !! symbol in
  let lastAlertTime := default 0 (lastAlerts st !! symbol) in
  if bool_decide (previousState ≠ Some currentState) then
    let st := setCoinStates st (<[symbol := currentState]> (coinStates st)) in
    if ALERT_COOLDOWN <=? now - lastAlertTime
    then (setLastAlerts st (<[symbol := now]> (lastAlerts st)), true)
    else (log st (LogCooldownSkip symbol), false)
  else (st, false).

(** [lastPrice > lastEMA ? 'above' : 'below'] *)
Definition sideOf (price ema : Num) : Side :=
  if gtb price ema then above else below.

(** [prediction] is what [predictPriceMovement] came back with ([None]
    for null, also when the prediction is off or failed). *)
Definition checkForCrossover (now : Z) (prediction : option Num)
    (st : State) (symbol : string) (prevPrice lastPrice prevEMA lastEMA : Num)
    : State :=
  let currentState := sideOf lastPrice lastEMA in
  let difference := mul (div (sub lastPrice lastEMA) lastEMA) (Fin 100) in
  if ltb prevPrice prevEMA && gtb lastPrice lastEMA then
    let st := log st (LogCrossover symbol up) in
    let '(st, fire) := shouldAlert now st symbol currentState in
    if fire
    then send st (mkAlert symbol up lastPrice lastEMA difference prediction)
    else st
  else if gtb prevPrice prevEMA && ltb lastPrice lastEMA then
    let st := log st (LogCrossover symbol down) in
    let '(st, fire) := shouldAlert now st symbol currentState in
    if fire
    then send st (mkAlert symbol down lastPrice lastEMA difference prediction)
    else st
  else
    setCoinStates st (<[symbol := currentState]> (coinStates st)).
End Policy.

(** [a[a.length - 1]] of a non-empty array. *)
Definition lastOf {A} (a : list A) : option A := last a.

Definition processRealtimeCandle (st : State) (symbol : string)
    (kline : KlineMsg) (logUnconfirmed : bool) : State :=
  match klineCache st !! symbol with
  | None | Some [] => st
  | Some klines =>
      let currentPrice := k_c kline in
      match emaCache st !! symbol with
      | None => st
      | Some emaValues =>
          if (length emaValues <? 2)%nat then st
          else
            match lastOf klines, lastOf emaValues with
            | Some lastCandle, Some lastEMA =>
                let lastClosedPrice := close lastCandle in
                let prevState := sideOf lastClosedPrice lastEMA in
                let currentState := sideOf currentPrice lastEMA in
                if bool_decide (prevState ≠ currentState)
                then log st (LogPotentialCrossover symbol currentState
                               logUnconfirmed)
                else st
            | _, _ => st
            end
      end
  end.

(** The stream's message handler, for a message that parsed as a kline
    event; [processClosedCandle] is the handler of closed candles. *)
Definition onKlineMessage (processClosedCandle : State -> string -> KlineMsg -> State)
    (st : State) (symbol : string) (kline : KlineMsg) : State :=
  if k_x kline then processClosedCandle st symbol kline
  else processRealtimeCandle st symbol kline false.

(** ** Label backfill *)

(** [s.endsWith(suffix)] *)
Definition endsWith (s suffix : string) : bool :=
  let n := String.length s in
  let m := String.length suffix in
  (m <=? n)%nat && String.eqb (substring (n - m) m s) suffix.

(** [data.findIndex(d => d.timestamp === timestamp)], [None] for [-1]. *)
Fixpoint findIndex (timestamp : Z) (data : list DataPoint) : option nat :=
  match data with
  | [] => None
  | d :: rest =>
      if dp_timestamp d =? timestamp then Some 0%nat
      else option_map S (findIndex timestamp rest)
  end.

(** [d.future_price_change = priceChange; d.label = priceChange >= 0 ? 1 : 0] *)
Definition writeLabel (priceChange : Num) (d : DataPoint) : DataPoint :=
  mkDataPoint (dp_timestamp d) (dp_symbol d) (dp_close d)
    (SNum priceChange)
    (SNum (if geb priceChange (Fin 0) then Fin 1 else Fin 0))
    (futurePriceChange d).

(** [data[index] = f(data[index])] for an index that [findIndex] gave. *)
Definition updateAt (f : DataPoint -> DataPoint) (i : nat)
    (data : list DataPoint) : list DataPoint :=
  match data !! i with
  | Some d => <[i := f d]> data
  | None => data
  end.

(** The loop over the [.json] files of the directory: the first file that
    holds the timestamp is rewritten and the loop returns; a file that
    does not parse aborts the whole call. *)
Fixpoint updateFiles (f : DataPoint -> DataPoint) (timestamp : Z)
    (files : Directory) : option Directory :=
  match files with
  | [] => None
  | (name, content) :: rest =>
      if endsWith name ".json" then
        match content with
        | Unparsable => None
        | Parsed data =>
            match findIndex timestamp data with
            | Some i => Some ((name, Parsed (updateAt f i data)) :: rest)
            | None =>
                option_map (cons (name, content)) (updateFiles f timestamp rest)
            end
        end
      else option_map (cons (name, content)) (updateFiles f timestamp rest)
  end.

Definition updateStoredDataPoint (st : State) (symbol : string)
    (timestamp : Z) (priceChange : Num) : State * bool :=
  match mlDataDir st !! symbol with
  | None => (st, false)
  | Some files =>
      match updateFiles (writeLabel priceChange) timestamp files with
      | Some files' =>
          (setMlDataDir st (<[symbol := files']> (mlDataDir st)), true)
      | None => (st, false)
      end
  end.

(** [(currentPrice - originalPrice) / originalPrice * 100] *)
Definition percentChange (currentPrice originalPrice : Num) : Num :=
  mul (div (sub currentPrice originalPrice) originalPrice) (Fin 100).

(** [price] is the outcome of [getCurrentPrice(symbol)], which throws when
    the request fails.  The CSV export at the end only reads
    [trainingData]. *)
Definition updateFuturePriceChange (price : Result Num) (st : State)
    (symbol : string) (timestamp : Z) : State :=
  match trainingData st !! symbol with
  | None => st
  | Some data =>
      match findIndex timestamp data with
      | None => st
      | Some i =>
          match price, data !! i with
          | Throw _, _ | _, None =>
              log st (LogError "updateFuturePriceChange")
          | Return currentPrice, Some dataPoint =>
              let originalPrice := dp_close dataPoint in
              let priceChange :=
                mul (div (sub currentPrice originalPrice) originalPrice)
                    (Fin 100) in
              let st :=
                setTrainingData st
                  (<[symbol := updateAt (writeLabel priceChange) i data]>
                     (trainingData st)) in
              let st := log st (LogFuturePriceChange symbol priceChange) in
              fst (updateStoredDataPoint st symbol timestamp priceChange)
          end
      end
  end.

End Tracker.

(* ================================================================== *)
(** * ml_data_collector.js *)
(* ================================================================== *)

Module Collector.
Import JS Tracker.

(** [data[index].futurePriceChange = priceChange] *)
Definition writeFuturePriceChange (priceChange : Num) (d : DataPoint)
    : DataPoint :=
  mkDataPoint (dp_timestamp d) (dp_symbol d) (dp_close d)
    (future_price_change d) (label d) (SNum priceChange).

Definition updateFuturePriceChange (dir : gmap string Directory)
    (symbol : string) (timestamp : Z) (priceChange : Num)
    : gmap string Directory * bool :=
  match dir !! symbol with
  | None => (dir, false)
  | Some files =>
      match updateFiles (writeFuturePriceChange priceChange) timestamp files with
      | Some files' => (<[symbol := files']> dir, true)
      | None => (dir, false)
      end
  end.

End Collector.

(* ================================================================== *)
(** * ml_alternative.js: normalisation, model cache, ensemble *)
(* ================================================================== *)

Module BrainML.
Import JS.

Definition normalizeValue (value : Scalar) (min max : Num) : Num :=
  if isNull value || isUndefined value || isNaN value then Fin (1 # 2)
  else if geb min max then Fin (1 # 2)
  else
    let clampedValue := JS.max min (JS.min max (toNumber value)) in
    div (sub clampedValue min) (sub max min).

Definition denormalizeValue (normalized : Scalar) (min max : Num) : Num :=
  if isNull normalized || isUndefined normalized || isNaN normalized
  then div (add min max) (Fin 2)
  else if geb min max then div (add min max) (Fin 2)
  else
    let clampedNormalized := JS.max (Fin 0) (JS.min (Fin 1) (toNumber normalized)) in
    add (mul clampedNormalized (sub max min)) min.

(** [/^[A-Z0-9]+$/] *)
Definition upperOrDigit (c : ascii) : bool :=
  let n := nat_of_ascii c in
  ((65 <=? n) && (n <=? 90) || (48 <=? n) && (n <=? 57))%nat.

Fixpoint allUpperOrDigit (s : string) : bool :=
  match s with
  | EmptyString => true
  | String c rest => upperOrDigit c && allUpperOrDigit rest
  end.

Definition validateSymbol (symbol : string) : bool :=
  match symbol with
  | EmptyString => false
  | _ => allUpperOrDigit symbol
  end.

Record Features : Type := mkFeatures {
  priceDiff : Scalar;
  rsi : Scalar;
  macdHist : Scalar;
  bbWidth : Scalar;
  volume24h : Scalar;
  volumeChange : Scalar;
  atr : Scalar
}.

Definition validateFeatures (features : Features) : bool :=
  forallb (fun v => negb (isUndefined v || isNull v || isNaN v))
    [priceDiff features; rsi features; macdHist features; bbWidth features;
     volume24h features; volumeChange features; atr features].

(** The network's input object. *)
Record Input : Type := mkInput {
  in_ema_diff : Num;
  in_rsi : Num;
  in_macd : Num;
  in_bbWidth : Num;
  in_volume : Num;
  in_volumeChange : Num;
  in_atr : Num
}.

Definition normalizeFeatures (features : Features) : Input :=
  {| in_ema_diff := normalizeValue (priceDiff features) (Fin (-10)) (Fin 10);
     in_rsi := normalizeValue (rsi features) (Fin 0) (Fin 100);
     in_macd := normalizeValue (macdHist features) (Fin (-1)) (Fin 1);
     in_bbWidth := normalizeValue (bbWidth features) (Fin 0) (Fin (1 # 10));
     in_volume := normalizeValue (volume24h features) (Fin 0) (Fin 1000000000);
     in_volumeChange := normalizeValue (volumeChange features) (Fin (-1)) (Fin 1);
     in_atr := normalizeValue (atr features) (Fin 0) (Fin 1) |}.

(** A JSON file on disk: absent, not parsable, or holding a value. *)
Inductive JsonFile (A : Type) : Type :=
| Missing
| Corrupt
| Holds (a : A).
Arguments Missing {A}.
Arguments Corrupt {A}.
Arguments Holds {A} a.

Definition existsSync {A} (f : JsonFile A) : bool :=
  match f with Missing => false | _ => true end.

(** ** The model cache: a [Map], which iterates in insertion order *)

Section Cache.
Context {V : Type}.

Definition cacheHas (cache : list (string * V)) (key : string) : bool :=
  existsb (fun kv => String.eqb (fst kv) key) cache.

Fixpoint cacheSet (cache : list (string * V)) (key : string) (v : V)
    : list (string * V) :=
  match cache with
  | [] => [(key, v)]
  | (k, w) :: rest =>
      if String.eqb k key then (k, v) :: rest else (k, w) :: cacheSet rest key v
  end.

Definition cacheDelete (cache : list (string * V)) (key : string)
    : list (string * V) :=
  List.filter (fun kv => negb (String.eqb (fst kv) key)) cache.

(** [cache.delete(cache.keys().next().value)] *)
Definition evictOldest (cache : list (string * V)) : list (string * V) :=
  match cache with
  | [] => []
  | (oldestKey, _) :: _ => cacheDelete cache oldestKey
  end.

(** The caching step of [predictPriceChange] for a model that is not yet
    resident. *)
Definition cacheModel (cache : list (string * V)) (symbol : string) (net : V)
    : list (string * V) :=
  let cache := if (50 <? length cache)%nat then evictOldest cache else cache in
  cacheSet cache symbol net.
End Cache.

(** ** Model files *)

Section Service.
(** [brain.js] is a library: the hyperparameter and weight objects are opaque,
    and [run hyperparams weights input] is the [priceChange] that a network
    made by [createModel(hyperparams)] and loaded with [fromJSON(weights)]
    outputs on [input]. *)
Variables Hyperparams ModelJson : Type.
Variable run : option Hyperparams -> ModelJson -> Input -> Scalar.
Variable sqrtQ : Q -> Q.

(** The files of one version directory (also of [latest], and of the
    symbol's own directory). *)
Record VersionFiles : Type := mkVersionFiles {
  modelFile : JsonFile ModelJson;
  featuresFile : JsonFile (list string);
  hyperparamsFile : JsonFile Hyperparams
}.

(** An entry of [fs.readdirSync(modelDir)], with what [fs.statSync] tells
    about it. *)
Record DirEntry : Type := mkDirEntry {
  entryName : string;
  isDirectory : bool;
  birthtime : Z;
  files : VersionFiles
}.

(** [MODEL_PATH/<symbol>]: the [latest] link when there is one, the files
    kept at the top for backward compatibility, and the listing in the order
    [fs.readdirSync] returns it. *)
Record ModelDir : Type := mkModelDir {
  latest : option VersionFiles;
  rootFiles : VersionFiles;
  listing : list DirEntry
}.

Definition Net : Type := option Hyperparams * ModelJson.

(** A loaded network is the pair of its hyperparameters and weights. *)
Definition createModel (hyperparams : option Hyperparams) (modelJson : ModelJson)
    : Net := (hyperparams, modelJson).

Record Prediction : Type := mkPrediction {
  pr_prediction : Num;
  pr_lowerBound : Num;
  pr_upperBound : Num;
  pr_confidenceInterval : Num;
  pr_confidenceScore : Num;
  pr_stdDev : Num
}.

(** [predictPriceChange] over the model cache.  After the caching step the
    function parses [features.json] and calls the parsed value as a
    function; that call raises a [TypeError], the enclosing [catch] logs it
    and returns null, and the statements after it never run. *)
Definition predictPriceChange (store : gmap string ModelDir)
    (modelCache : list (string * Net)) (symbol : string) (features : Features)
    : list (string * Net) * option Prediction :=
  if negb (validateSymbol symbol) || negb (validateFeatures features)
  then (modelCache, None)
  else
    let paths :=
      match store !! symbol with
      | None => mkVersionFiles Missing Missing Missing
      | Some dir =>
          match latest dir with
          | Some l => l
          | None =>
              mkVersionFiles (modelFile (rootFiles dir))
                (featuresFile (rootFiles dir)) Missing
          end
      end in
    if negb (existsSync (modelFile paths)) || negb (existsSync (featuresFile paths))
    then (modelCache, None)
    else if cacheHas modelCache symbol then (modelCache, None)
    else
      match modelFile paths, hyperparamsFile paths with
      | Holds modelJson, Missing =>
          (cacheModel modelCache symbol (createModel None modelJson), None)
      | Holds modelJson, Holds hyperparams =>
          (cacheModel modelCache symbol (createModel (Some hyperparams) modelJson),
           None)
      | _, _ => (modelCache, None)
      end.

(** ** Ensemble *)

Record Ensemble : Type := mkEnsemble {
  en_prediction : Num;
  en_confidence : Num;
  individualPredictions : list Num;
  en_stdDev : Num;
  modelCount : nat
}.

Definition isVersionDir (e : DirEntry) : bool :=
  isDirectory e && String.prefix "v" (entryName e)
  && existsSync (modelFile (files e)).

(** The loop over the selected versions; a file that does not parse throws
    out of the loop. *)
Fixpoint predictEach (input : Input) (versions : list DirEntry)
    : Result (list Num) :=
  match versions with
  | [] => Return []
  | e :: rest =>
      if negb (existsSync (modelFile (files e)))
         || negb (existsSync (featuresFile (files e)))
      then predictEach input rest
      else
        match modelFile (files e), featuresFile (files e) with
        | Holds modelJson, Holds _ =>
            let output := run None modelJson input in
            let prediction := denormalizeValue output (Fin (-10)) (Fin 10) in
            let! more := predictEach input rest in
            Return (prediction :: more)
        | _, _ => Throw "Unexpected token in JSON"
        end
  end.

(** The weight of the prediction at position [i] out of [n]. *)
Definition weightAt (n i : nat) : Z := Z.of_nat n - Z.of_nat i.

(** The loop that accumulates [(weightedSum, weightSum)], from position [i]. *)
Fixpoint weighted (n i : nat) (predictions : list Num) (acc : Num * Num)
    : Num * Num :=
  match predictions with
  | [] => acc
  | p :: rest =>
      let weight := ofZ (weightAt n i) in
      weighted n (S i) rest (add (fst acc) (mul p weight), add (snd acc) weight)
  end.

Definition combine (predictions : list Num) : Ensemble :=
  let n := length predictions in
  let '(weightedSum, weightSum) := weighted n 0 predictions (Fin 0, Fin 0) in
  let ensemblePrediction := div weightedSum weightSum in
  let variance :=
    div (fold_left
           (fun sum pred =>
              let d := sub pred ensemblePrediction in add sum (mul d d))
           predictions (Fin 0))
        (ofZ (Z.of_nat n)) in
  let stdDev := sqrt sqrtQ variance in
  let agreement :=
    JS.max (Fin 0) (sub (Fin 1) (div stdDev (abs ensemblePrediction))) in
  let confidenceScore :=
    JS.min (Fin 100) (JS.max (Fin 0) (mul agreement (Fin 100))) in
  {| en_prediction := ensemblePrediction;
     en_confidence := div confidenceScore (Fin 100);
     individualPredictions := predictions;
     en_stdDev := stdDev;
     modelCount := n |}.

(** The version directories the ensemble loads. *)
Definition selectedVersions (dir : ModelDir) : list DirEntry :=
  firstn 5 (List.filter isVersionDir (listing dir)).

Definition ensemblePrediction (store : gmap string ModelDir) (symbol : string)
    (features : Features) : option Ensemble :=
  if negb (validateSymbol symbol) || negb (validateFeatures features) then None
  else
    match store !! symbol with
    | None => None
    | Some dir =>
        match selectedVersions dir with
        | [] => None
        | versions =>
            match predictEach (normalizeFeatures features) versions with
            | Throw _ => None
            | Return [] => None
            | Return predictions => Some (combine predictions)
            end
        end
    end.

End Service.

End BrainML.

(* ================================================================== *)
(** * Concrete inputs used below *)
(* ================================================================== *)

Module Examples.
Import JS.

(** A square root on the rationals, rounded down to six decimals. *)
Definition sqrtApprox (x : Q) : Q :=
  Z.sqrt (Qnum x * Z.pos (Qden x) * 10 ^ 12) # (Qden x * 10 ^ 6).

End Examples.

Module TrackerExamples.
Import JS Tracker.

Definition candle (t : Z) (c : Q) : Candle :=
  mkCandle t (Fin c) (Fin c) (Fin c) (Fin c) (Fin 1).

(** A tracker that last saw BTCUSDT below its average, alerted at time 1000,
    and holds two candles, two averages and one unlabelled training point,
    in memory and on disk. *)
Definition tracking : State :=
  {| lastAlerts := {[ "BTCUSDT"%string := 1000 ]};
     coinStates := {[ "BTCUSDT"%string := below ]};
     klineCache := {[ "BTCUSDT"%string := [candle 1 9; candle 2 9] ]};
     emaCache := {[ "BTCUSDT"%string := [Fin 10; Fin 10] ]};
     trainingData :=
       {[ "BTCUSDT"%string :=
            [mkDataPoint 2 "BTCUSDT" (Fin 100) SNull SNull SUndefined] ]};
     mlDataDir :=
       {[ "BTCUSDT"%string :=
            [("2024-05.json"%string,
              Parsed [mkDataPoint 2 "BTCUSDT" (Fin 100) SNull SNull SUndefined])] ]};
     sentAlerts := [];
     logged := [] |}.

(** The labels held in memory and on disk for a symbol, as numbers. *)
Definition memoryLabels (st : State) (symbol : string) : list Num :=
  map (fun d => toNumber (future_price_change d))
      (default [] (trainingData st !! symbol)).

Definition diskLabels (st : State) (symbol : string) : list Num :=
  flat_map
    (fun file =>
       match snd file with
       | Parsed data => map (fun d => toNumber (future_price_change d)) data
       | Unparsable => []
       end)
    (default [] (mlDataDir st !! symbol)).

End TrackerExamples.

Module ServiceExamples.
Import JS BrainML.

(** A stand-in for the network library: a model file holds the normalised
    output that its network gives on every input, and there are no
    hyperparameters to speak of. *)
Definition constantRun (_ : option unit) (output : Q) (_ : Input) : Scalar :=
  SNum (Fin output).

Definition versionWith (output : Q) : VersionFiles unit Q :=
  mkVersionFiles unit Q (Holds output) (Holds ["ema_diff"; "rsi"]%string) Missing.

Definition noFiles : VersionFiles unit Q :=
  mkVersionFiles unit Q Missing Missing Missing.

Definition someFeatures : Features :=
  mkFeatures (SNum (Fin 1)) (SNum (Fin 50)) (SNum (Fin 0)) (SNum (Fin (1 # 20)))
             (SNum (Fin 1000)) (SNum (Fin 0)) (SNum (Fin (1 # 2))).

(** The symbols A, AA, AAA, ... *)
Fixpoint symbolName (n : nat) : string :=
  match n with
  | O => "A"
  | S n' => String "A" (symbolName n')
  end.

(** A model directory with a [latest] version and nothing else. *)
Definition trainedOnce : ModelDir unit Q :=
  mkModelDir unit Q (Some (versionWith (1 # 2))) noFiles [].

(** Fifty-one symbols, each with a trained model. *)
Definition fiftyOneSymbols : list string := map symbolName (seq 0 51).

Definition fiftyOneModels : gmap string (ModelDir unit Q) :=
  list_to_map (map (fun s => (s, trainedOnce)) fiftyOneSymbols).

(** The same with a fifty-second symbol, B. *)
Definition fiftyTwoModels : gmap string (ModelDir unit Q) :=
  <["B"%string := trainedOnce]> fiftyOneModels.

(** One prediction per symbol, in turn, threading the cache. *)
Definition predictAll (store : gmap string (ModelDir unit Q))
    (symbols : list string) (modelCache : list (string * Net unit Q))
    : list (string * Net unit Q) :=
  fold_left
    (fun cache symbol =>
       fst (predictPriceChange unit Q store cache symbol someFeatures))
    symbols modelCache.

(** Two versions of BTCUSDT, listed by name as [fs.readdirSync] does: the
    version of January (created at time 1), whose network predicts +1%, and
    the version of February (created at time 2), whose network predicts
    +4%.  The [latest] link and the files at the top are listed too. *)
Definition january : DirEntry unit Q :=
  mkDirEntry unit Q "v2024-01-01T00-00-00-000Z-001" true 1 (versionWith (11 # 20)).
Definition february : DirEntry unit Q :=
  mkDirEntry unit Q "v2024-02-01T00-00-00-000Z-002" true 2 (versionWith (14 # 20)).

Definition twoVersions : gmap string (ModelDir unit Q) :=
  {[ "BTCUSDT"%string :=
       mkModelDir unit Q (Some (versionWith (14 # 20))) (versionWith (14 # 20))
         [ mkDirEntry unit Q "features.json" false 2 noFiles;
           mkDirEntry unit Q "latest" true 2 (versionWith (14 # 20));
           mkDirEntry unit Q "model.json" false 2 noFiles;
           january; february ] ]}.

(** Six versions created at times 1 to 6, listed by name. *)
Definition versionAt (t : Z) (name : string) : DirEntry unit Q :=
  mkDirEntry unit Q name true t (versionWith (1 # 2)).

Definition sixVersions : ModelDir unit Q :=
  mkModelDir unit Q None noFiles
    [ versionAt 1 "v2024-01-01T00-00-00-000Z-001";
      versionAt 2 "v2024-02-01T00-00-00-000Z-002";
      versionAt 3 "v2024-03-01T00-00-00-000Z-003";
      versionAt 4 "v2024-04-01T00-00-00-000Z-004";
      versionAt 5 "v2024-05-01T00-00-00-000Z-005";
      versionAt 6 "v2024-06-01T00-00-00-000Z-006" ].

End ServiceExamples.

(* ================================================================== *)
(** * node.js: the tracker's own EMA and ATR *)
(* ================================================================== *)

Module NodeIndicators.
Import JS Tracker.

(** [a.slice(0, end)] *)
Definition sliceTo {A} (stop : Z) (a : list A) : list A :=
  if stop <? 0 then firstn (length a - Z.to_nat (- stop)) a
  else firstn (Z.to_nat stop) a.

(** [a.slice(start)] *)
Definition sliceFrom {A} (start : Z) (a : list A) : list A :=
  if start <? 0 then skipn (length a - Z.to_nat (- start)) a
  else skipn (Z.to_nat start) a.

(** The loop [ema = (prices[i] - ema) * k + ema; emaArray.push(ema)]. *)
Fixpoint emaSteps (k ema : Num) (rest : list Num) : list Num :=
  match rest with
  | [] => []
  | p :: rest' =>
      let ema' := add (mul (sub p ema) k) ema in
      ema' :: emaSteps k ema' rest'
  end.

(** The prices [prices[period]], [prices[period+1]], ... that the loop
    reads; an index below zero reads [undefined], which counts as NaN in
    the subtraction. *)
Definition pricesFrom (period : Z) (prices : list Num) : list Num :=
  repeat NaN (Z.to_nat (- period)) ++ skipn (Z.to_nat period) prices.

Definition calculateEMA (prices : list Num) (period : Z) : list Num :=
  if Z.of_nat (length prices) <? period then []
  else
    let k := div (Fin 2) (ofZ (period + 1)) in
    let sma := div (fold_left add (sliceTo period prices) (Fin 0)) (ofZ period) in
    sma :: emaSteps k sma (pricesFrom period prices).

Section Cache.
Variable EMA_PERIOD : Z.

Definition updateEMA (emaCache : gmap string (list Num)) (symbol : string)
    (newPrice : Num) : gmap string (list Num) * bool :=
  match emaCache !! symbol with
  | None => (emaCache, false)
  | Some emaValues =>
      match last emaValues with
      | None => (emaCache, false)
      | Some lastEMA =>
          let k := div (Fin 2) (ofZ (EMA_PERIOD + 1)) in
          let newEMA := add (mul (sub newPrice lastEMA) k) lastEMA in
          let emaValues := emaValues ++ [newEMA] in
          let emaValues :=
            if EMA_PERIOD * 2 <? Z.of_nat (length emaValues)
            then sliceFrom (- EMA_PERIOD * 2) emaValues
            else emaValues in
          (<[symbol := emaValues]> emaCache, true)
      end
  end.
End Cache.

(** The later of the two declarations of [calculateATR], which is the one
    in force; [None] is null. *)
Fixpoint trueRanges (klines : list Candle) : list Num :=
  match klines with
  | prev :: (k :: _) as rest =>
      let tr1 := sub (high k) (low k) in
      let tr2 := abs (sub (high k) (close prev)) in
      let tr3 := abs (sub (low k) (close prev)) in
      JS.max (JS.max tr1 tr2) tr3 :: trueRanges rest
  | _ => []
  end.

Definition calculateATR (klines : list Candle) (period : Z) : option Num :=
  if Z.of_nat (length klines) <? period + 1 then None
  else
    Some (div (fold_left add (sliceFrom (- period) (trueRanges klines)) (Fin 0))
              (ofZ period)).

End NodeIndicators.

(* ================================================================== *)
(** * node.js: the list of tracked pairs *)
(* ================================================================== *)

Module Supervisor.
Import JS.

(** An entry of the exchange's 24-hour ticker list, with its numbers
    already through [parseFloat]. *)
Record Ticker : Type := mkTicker {
  symbol : string;
  quoteVolume : Num;
  lastPrice : Num;
  priceChangePercent : Num
}.

(** An entry of [newPairs]. *)
Record NewPair : Type := mkNewPair {
  np_symbol : string;
  np_volume : Num;
  np_price : Num;
  np_change : Num
}.

(** The callback of [response.data.filter], run over the list: it returns
    the tracked set, the new pairs and the symbols that passed. *)
Fixpoint scanTickers (VOLUME_THRESHOLD : Num) (initialLoadComplete : bool)
    (data : list Ticker) (trackedPairs : gset string) (newPairs : list NewPair)
    : gset string * list NewPair * list string :=
  match data with
  | [] => (trackedPairs, newPairs, [])
  | ticker :: rest =>
      let volume := quoteVolume ticker in
      if gtb volume VOLUME_THRESHOLD then
        let newPairs :=
          if initialLoadComplete && negb (bool_decide (symbol ticker ∈ trackedPairs))
          then newPairs ++ [mkNewPair (symbol ticker) volume (lastPrice ticker)
                              (priceChangePercent ticker)]
          else newPairs in
        let trackedPairs := {[ symbol ticker ]} ∪ trackedPairs in
        let '(trackedPairs, newPairs, pairs) :=
          scanTickers VOLUME_THRESHOLD initialLoadComplete rest trackedPairs
            newPairs in
        (trackedPairs, newPairs, symbol ticker :: pairs)
      else
        scanTickers VOLUME_THRESHOLD initialLoadComplete rest trackedPairs
          newPairs
  end.

(** [response] is the outcome of the request for the ticker list.  The
    result is the tracked set, the pairs handed to
    [alertNewHighVolumePairs], and the returned symbols. *)
Definition getFuturesPairs (VOLUME_THRESHOLD : Num) (initialLoadComplete : bool)
    (response : Result (list Ticker)) (trackedPairs : gset string)
    : gset string * list NewPair * list string :=
  match response with
  | Throw _ => (trackedPairs, [], [])
  | Return data =>
      scanTickers VOLUME_THRESHOLD initialLoadComplete data trackedPairs []
  end.

End Supervisor.

(* ================================================================== *)
(** * The training store on disk *)
(* ================================================================== *)

Module Store.
Import JS Tracker.

(** The content of the file [name], when [fs.existsSync] finds it. *)
Fixpoint readFile (name : string) (files : Directory) : option DataFile :=
  match files with
  | [] => None
  | (n, content) :: rest =>
      if String.eqb n name then Some content else readFile name rest
  end.

Fixpoint overwrite (name : string) (content : DataFile) (files : Directory)
    : Directory :=
  match files with
  | [] => []
  | (n, c) :: rest =>
      if String.eqb n name then (n, content) :: rest
      else (n, c) :: overwrite name content rest
  end.

(** [fs.writeFileSync]: a file that exists keeps its place in the listing;
    a new file shows up at [place], which is the file system's choice.  A
    file holds the array last written to it.  This is what [JSON.stringify]
    followed by [JSON.parse] gives back for points whose numbers are
    finite; a NaN or an infinity would come back as null, which the fields
    of [DataPoint] do not hold, so that what is read back is stated for
    such points only. *)
Definition writeFile (place : nat) (name : string) (content : DataFile)
    (files : Directory) : Directory :=
  match readFile name files with
  | Some _ => overwrite name content files
  | None => take place files ++ (name, content) :: drop place files
  end.

(** [collectDataPoint] of [ml_data_collector.js], which is also the body of
    [saveDataPoint] of [node.js]; [filename] is the current month's
    [YYYY-MM.json].  The calls to the file system are taken to succeed, and
    log lines are left out.  On the files that [DataFile] represents no
    statement of the body throws, so the function reaches its
    [return true]; the [return false] of the handler, taken when the file
    system fails or [data.push] throws on a text that is not an array, is
    outside this model. *)
Definition collectDataPoint (place : nat) (filename : string)
    (dir : gmap string Directory) (symbol : string) (dataPoint : DataPoint)
    : gmap string Directory * bool :=
  let files := default [] (dir !! symbol) in
  let data :=
    match readFile filename files with
    | Some (Parsed data) => data
    | Some Unparsable => []
    | None => []
    end in
  let data := data ++ [dataPoint] in
  (<[symbol := writeFile place filename (Parsed data) files]> dir, true).

(** The loop of [getSymbolData] over the [.json] files; a file that does
    not parse throws out of it. *)
Fixpoint concatFiles (files : Directory) (allData : list DataPoint)
    : option (list DataPoint) :=
  match files with
  | [] => Some allData
  | (name, content) :: rest =>
      if endsWith name ".json" then
        match content with
        | Unparsable => None
        | Parsed data => concatFiles rest (allData ++ data)
        end
      else concatFiles rest allData
  end.

Definition getSymbolData (dir : gmap string Directory) (symbol : string)
    : list DataPoint :=
  match dir !! symbol with
  | None => []
  | Some files => default [] (concatFiles files [])
  end.

(** The loop of [loadTrainingData] over the [.json] files of one symbol; a
    file that does not parse is skipped. *)
Fixpoint loadFiles (files : Directory) (symbolData : list DataPoint)
    : list DataPoint :=
  match files with
  | [] => symbolData
  | (name, content) :: rest =>
      if endsWith name ".json" then
        match content with
        | Unparsable => loadFiles rest symbolData
        | Parsed fileData => loadFiles rest (symbolData ++ fileData)
        end
      else loadFiles rest symbolData
  end.

(** [loadTrainingData]: the loop over the symbol directories.  Each symbol
    is visited once, so the order of the visit does not show.  The file of
    model performance is left out. *)
Definition loadTrainingData (mlDataDir : gmap string Directory)
    (trainingData : gmap string (list DataPoint))
    : gmap string (list DataPoint) :=
  map_fold
    (fun symbol files trainingData =>
       let symbolData := loadFiles files [] in
       if (0 <? length symbolData)%nat
       then <[symbol := symbolData]> trainingData
       else trainingData)
    trainingData mlDataDir.

(** [saveTrainingData]: every symbol's points in memory are written to the
    current month's file of the symbol.  The CSV export and the file of
    model performance, which live elsewhere, are left out. *)
Definition saveTrainingData (place : string -> nat) (filename : string)
    (trainingData : gmap string (list DataPoint))
    (mlDataDir : gmap string Directory) : gmap string Directory :=
  map_fold
    (fun symbol data mlDataDir =>
       let files := default [] (mlDataDir !! symbol) in
       <[symbol := writeFile (place symbol) filename (Parsed data) files]>
         mlDataDir)
    mlDataDir trainingData.

End Store.

(* ================================================================== *)
(** * ml_alternative.js: pruning of model versions *)
(* ================================================================== *)

Module Registry.
Import JS BrainML.

Section Registry.
Variables Hyperparams ModelJson : Type.

(** The directories that [pruneOldModelVersions] considers. *)
Definition isVersion (e : DirEntry Hyperparams ModelJson) : bool :=
  isDirectory _ _ e && String.prefix "v" (entryName _ _ e)
  && negb (String.eqb (entryName _ _ e) "latest").

(** [Array.prototype.sort] is stable; with the comparator
    [timeB - timeA] it orders by creation time, newest first, and keeps
    the listing order among entries created at the same time. *)
Fixpoint insertNewestFirst (x : DirEntry Hyperparams ModelJson)
    (sorted : list (DirEntry Hyperparams ModelJson))
    : list (DirEntry Hyperparams ModelJson) :=
  match sorted with
  | [] => [x]
  | y :: rest =>
      if birthtime _ _ y <=? birthtime _ _ x then x :: sorted
      else y :: insertNewestFirst x rest
  end.

Definition sortNewestFirst (l : list (DirEntry Hyperparams ModelJson))
    : list (DirEntry Hyperparams ModelJson) :=
  foldr insertNewestFirst [] l.

(** [versions.slice(keepCount)] *)
Definition versionsToDelete (keepCount : Z)
    (listing : list (DirEntry Hyperparams ModelJson))
    : list (DirEntry Hyperparams ModelJson) :=
  NodeIndicators.sliceFrom keepCount
    (sortNewestFirst (List.filter isVersion listing)).

(** [store] maps a symbol to what [fs.readdirSync(modelDir)] lists;
    [deletes name] tells whether [deleteFolderRecursive] succeeds on the
    version [name] (a failure is logged and the loop goes on). *)
Definition pruneOldModelVersions (deletes : string -> bool)
    (store : gmap string (list (DirEntry Hyperparams ModelJson)))
    (symbol : string) (keepCount : Z)
    : gmap string (list (DirEntry Hyperparams ModelJson)) * bool :=
  if negb (validateSymbol symbol) then (store, false)
  else
    match store !! symbol with
    | None => (store, false)
    | Some listing =>
        let versions := sortNewestFirst (List.filter isVersion listing) in
        if Z.of_nat (length versions) <=? keepCount then (store, false)
        else
          let doomed :=
            List.filter (fun e => deletes (entryName _ _ e))
              (versionsToDelete keepCount listing) in
          let gone (e : DirEntry Hyperparams ModelJson) : bool :=
            existsb (fun d => String.eqb (entryName _ _ d) (entryName _ _ e)) doomed in
          (<[symbol := List.filter (fun e => negb (gone e)) listing]> store,
           true)
    end.

End Registry.

End Registry.

Module StoreExamples.
Import JS Tracker.

Definition point (t : Z) (c : Q) : DataPoint :=
  mkDataPoint t "BTCUSDT" (Fin c) SNull SNull SUndefined.

(** A symbol directory with a file that does not parse between two that
    do. *)
Definition damaged : gmap string Directory :=
  {[ "BTCUSDT"%string :=
       [("2024-03.json"%string, Parsed [point 1 100]);
        ("2024-04.json"%string, Unparsable);
        ("2024-05.json"%string, Parsed [point 2 110])] ]}.

(** A symbol directory with two months of points and a file of another
    kind. *)
Definition twoMonths : gmap string Directory :=
  {[ "BTCUSDT"%string :=
       [("2024-03.json"%string, Parsed [point 1 100; point 2 101]);
        ("notes.txt"%string, Unparsable);
        ("2024-04.json"%string, Parsed [point 3 102])] ]}.

End StoreExamples.

(* ================================================================== *)
(** * The limits of the doubles *)
(* ================================================================== *)

Module Limits.

(** [Number.MAX_VALUE], the largest double. *)
Definition MAX_VALUE : Q := inject_Z (2 ^ 1024 - 2 ^ 971).

(** Two numbers of at most this magnitude have a difference and a sum that
    stay below [MAX_VALUE]. *)
Definition HALF_RANGE : Q := inject_Z (2 ^ 1022).

(** A generous bound on market data (1e100).  With prices and candle
    values of at most this magnitude and arrays of at most [MAX_LENGTH]
    entries, every sum, difference and square that the indicator engine
    forms from them stays below 2^32 * 4e200, far below [MAX_VALUE]: the
    averages, deviations and true ranges of the code are finite, as the
    exact numbers of the model that stand for them. *)
Definition MARKET : Q := inject_Z (10 ^ 100).

(** The most entries a JavaScript array holds. *)
Definition MAX_LENGTH : Z := 2 ^ 32 - 1.

(** [|x| <= bound] *)
Definition within (bound x : Q) : bool := Qle_bool (Qabs x) bound.

(** Integers up to here have sums and differences that a double holds
    exactly: twice this is 2^53. *)
Definition EXACT_INTEGER : Z := 2 ^ 52.

End Limits.

(* ================================================================== *)
(** * Doubles *)
(* ================================================================== *)

(** Where a statement turns on overflow, the function is embedded a second
    time over the kernel's binary64 numbers, which are the numbers of
    JavaScript; the sign of a zero result of [Math.max] and [Math.min] is
    not followed. *)
Module Doubles.
Import JS.

Local Open Scope float_scope.

(** A value that is null, undefined or a number. *)
Inductive Value : Type :=
| VUndefined
| VNull
| VNum (x : float).

Definition toNumber (v : Value) : float :=
  match v with
  | VUndefined => nan
  | VNull => 0
  | VNum x => x
  end.

(** [Math.max] and [Math.min] of two numbers; of the two zeros, the
    positive one is the larger. *)
Definition max (a b : float) : float :=
  if is_nan a || is_nan b then nan
  else if a <? b then b
  else if b <? a then a
  else if PrimFloat.is_zero a then a + b
  else a.

Definition min (a b : float) : float :=
  if is_nan a || is_nan b then nan
  else if b <? a then b
  else if a <? b then a
  else if PrimFloat.is_zero a then PrimFloat.opp (PrimFloat.opp a + PrimFloat.opp b)
  else a.

(** [normalizeValue] of [ml_alternative.js]. *)
Definition normalizeValue (value : Value) (min max : float) : float :=
  if match value with
     | VNull | VUndefined => true
     | VNum x => is_nan x
     end
  then 0.5
  else if max <=? min then 0.5
  else
    let clampedValue := Doubles.max min (Doubles.min max (toNumber value)) in
    (clampedValue - min) / (max - min).

(** [denormalizeValue] of [ml_alternative.js]. *)
Definition denormalizeValue (normalized : Value) (min max : float) : float :=
  if match normalized with
     | VNull | VUndefined => true
     | VNum x => is_nan x
     end
  then (min + max) / 2
  else if max <=? min then (min + max) / 2
  else
    let clampedNormalized := Doubles.max 0 (Doubles.min 1 (toNumber normalized)) in
    clampedNormalized * (max - min) + min.

(** A period as a double. *)
Definition ofZ (z : Z) : float := of_uint63 (Uint63.of_Z z).

(** [validatePriceData] on an array of numbers. *)
Definition validatePriceData (prices : list float) (minLength : Z)
    (functionName : string) : Result bool :=
  if (Z.of_nat (length prices) <? minLength)%Z then Return false
  else if existsb is_nan prices
       then Throw (functionName +:+ ": All prices must be valid numbers")
       else Return true.

Record Bands : Type := mkBands {
  upper : list float;
  middle : list float;
  lower : list float
}.

(** One turn of the outer loop of [calculateBollingerBands]:
    [(sma, upper, lower)] at index [i]; [Math.pow(d, 2)] is [d * d]. *)
Definition bandAt (prices : list float) (period : Z) (multiplier : float)
    (i : nat) : float * float * float :=
  let w := firstn (Z.to_nat period) (skipn (i - (Z.to_nat period - 1)) prices) in
  let sum := fold_left (fun sum p => sum + p) w 0 in
  let sma := sum / ofZ period in
  let sumSquaredDiff :=
    fold_left (fun s p => s + (p - sma) * (p - sma)) w 0 in
  let stdDev := PrimFloat.sqrt (sumSquaredDiff / ofZ period) in
  (sma, sma + multiplier * stdDev, sma - multiplier * stdDev).

(** [calculateBollingerBands] of the indicator engine on an array of
    numbers; 1.1 and 0.9 are written as the doubles they denote. *)
Definition calculateBollingerBands (prices : list float) (period : Z)
    (multiplier : float) : Result Bands :=
  let functionName := "calculateBollingerBands"%string in
  if (period <=? 0)%Z
  then Throw (functionName +:+ ": Period must be a positive integer")
  else if is_nan multiplier || is_infinity multiplier || (multiplier <=? 0)
  then Throw (functionName +:+ ": Multiplier must be a positive number")
  else
    let! enough := validatePriceData prices period functionName in
    let defaultValue := match prices with p :: _ => p | [] => 0 end in
    let padUpper := defaultValue * 0x1.199999999999ap+0 in
    let padLower := defaultValue * 0x1.ccccccccccccdp-1 in
    if negb enough
    then Return {| upper := repeat padUpper (length prices);
                   middle := repeat defaultValue (length prices);
                   lower := repeat padLower (length prices) |}
    else
      let first := (Z.to_nat period - 1)%nat in
      let rows := map (bandAt prices period multiplier)
                      (seq first (length prices - first)) in
      Return {| upper := TechnicalIndicators.padArray (map (fun r => snd (fst r)) rows)
                           (length prices) padUpper true;
                middle := TechnicalIndicators.padArray (map (fun r => fst (fst r)) rows)
                            (length prices) defaultValue true;
                lower := TechnicalIndicators.padArray (map (fun r => snd r) rows)
                           (length prices) padLower true |}.

End Doubles.

Module ScenarioExamples.
Import JS.

(** Two hundred candles closing at 10, then one closing at 10.5. *)
Definition flatThenRise : list Num := repeat (Fin 10) 200 ++ [Fin (21 # 2)].

(** The averages that the tracker computes on them with the default period
    of 200: the seed and one more value. *)
Definition averages : list Num := NodeIndicators.calculateEMA flatThenRise 200.

End ScenarioExamples.

(* ================================================================== *)
(** * Shapes of inputs and outputs *)
(* ================================================================== *)

Module Shapes.
Import JS.

(** A series that never falls. *)
Fixpoint Rising (l : list Q) : Prop :=
  match l with
  | p :: (q :: _) as rest => (p <= q)%Q /\ Rising rest
  | _ => True
  end.

(** Candles with finite high, low and close. *)
Definition klinesOf (l : list (Q * Q * Q)) : TechnicalIndicators.Klines :=
  TechnicalIndicators.KArr
    (map (fun k => TechnicalIndicators.KObj (SNum (Fin (fst (fst k))))
                     (SNum (Fin (snd (fst k)))) (SNum (Fin (snd k)))) l).

(** What [updateEMA] leaves in the cache: the values, cut to the last
    [2 * EMA_PERIOD] when there are more. *)
Definition retained (EMA_PERIOD : Z) (values : list Num) : list Num :=
  if EMA_PERIOD * 2 <? Z.of_nat (length values)
  then NodeIndicators.sliceFrom (- EMA_PERIOD * 2) values
  else values.

(** Successive calls of [getFuturesPairs] once the initial load is
    complete, each with the threshold in force and the outcome of its
    request: the tracked set at the end and every pair announced. *)
Fixpoint refreshes (calls : list (Num * Result (list Supervisor.Ticker)))
    (trackedPairs : gset string) : gset string * list Supervisor.NewPair :=
  match calls with
  | [] => (trackedPairs, [])
  | (threshold, response) :: rest =>
      let '(trackedPairs, newPairs, _) :=
        Supervisor.getFuturesPairs threshold true response trackedPairs in
      let '(trackedPairs, more) := refreshes rest trackedPairs in
      (trackedPairs, newPairs ++ more)
  end.

(** A [.json] file that does not parse. *)
Definition corrupt (file : string * Tracker.DataFile) : bool :=
  Tracker.endsWith (fst file) ".json"
  && match snd file with Tracker.Unparsable => true | Tracker.Parsed _ => false end.

(** The points of the [.json] files that parse, in the order of the
    listing. *)
Definition pointsOf (files : Tracker.Directory) : list Tracker.DataPoint :=
  concat
    (map (fun file : string * Tracker.DataFile =>
            if Tracker.endsWith (fst file) ".json" then
              match snd file with
              | Tracker.Parsed data => data
              | Tracker.Unparsable => []
              end
            else [])
       files).

(** A sequence of [predictPriceChange] calls, each on the model files
    present at its time, threading the model cache. *)
Definition afterPredictions {H M}
    (calls : list (gmap string (BrainML.ModelDir H M) * string * BrainML.Features))
    (modelCache : list (string * BrainML.Net H M))
    : list (string * BrainML.Net H M) :=
  fold_left
    (fun cache call =>
       fst (BrainML.predictPriceChange H M (fst (fst call)) cache
              (snd (fst call)) (snd call)))
    calls modelCache.

(** The tracker's candles as the indicator engine takes them. *)
Definition engineKlines (klines : list Tracker.Candle) : TechnicalIndicators.Klines :=
  TechnicalIndicators.KArr
    (map (fun k => TechnicalIndicators.KObj (SNum (Tracker.high k))
                     (SNum (Tracker.low k)) (SNum (Tracker.close k)))
       klines).

(** A candle whose high, low and close are numbers. *)
Definition priced (k : Tracker.Candle) : bool :=
  negb (numIsNaN (Tracker.high k)) && negb (numIsNaN (Tracker.low k))
  && negb (numIsNaN (Tracker.close k)).


(** One call of [checkForCrossover]: the time it runs at, the symbol, the
    prediction it obtains and the last two closes and averages. *)
Record Check := mkCheck {
  checkTime : Z;
  checkSymbol : string;
  checkPrediction : option Num;
  checkPrevPrice : Num;
  checkLastPrice : Num;
  checkPrevEMA : Num;
  checkLastEMA : Num
}.

Definition runCheck (ALERT_COOLDOWN : Z) (st : Tracker.State) (c : Check)
    : Tracker.State :=
  Tracker.checkForCrossover ALERT_COOLDOWN (checkTime c) (checkPrediction c) st
    (checkSymbol c) (checkPrevPrice c) (checkLastPrice c)
    (checkPrevEMA c) (checkLastEMA c).

(** Successive crossover checks, of any symbols, threading the state. *)
Definition runChecks (ALERT_COOLDOWN : Z) (st : Tracker.State)
    (checks : list Check) : Tracker.State :=
  fold_left (runCheck ALERT_COOLDOWN) checks st.

(** A value that [JSON.stringify] followed by [JSON.parse] gives back: NaN
    and the infinities are written as null. *)
Definition storableScalar (v : Scalar) : bool :=
  match v with
  | SNum x => isFinite x
  | _ => true
  end.

(** A point whose columns all come back from its JSON text. *)
Definition storable (d : Tracker.DataPoint) : bool :=
  isFinite (Tracker.dp_close d)
  && storableScalar (Tracker.future_price_change d)
  && storableScalar (Tracker.label d)
  && storableScalar (Tracker.futurePriceChange d).

End Shapes.

(* ================================================================== *)
(** * Facts about numbers *)
(* ================================================================== *)

Module NumFacts.
Import JS.

Lemma geb_Fin (a b : Q) : (b <= a)%Q -> geb (Fin a) (Fin b) = true.
Proof.
  intros H. unfold geb; simpl.
  destruct (a ?= b)%Q eqn:E; try reflexivity.
  apply Qlt_alt in E. lra.
Qed.

Lemma geb_Fin_false (a b : Q) : (a < b)%Q -> geb (Fin a) (Fin b) = false.
Proof.
  intros H. unfold geb; simpl.
  destruct (a ?= b)%Q eqn:E; try reflexivity.
  - apply Qeq_alt in E. lra.
  - apply Qgt_alt in E. lra.
Qed.

Lemma leb_Fin_false (a b : Q) : (b < a)%Q -> leb (Fin a) (Fin b) = false.
Proof.
  intros H. unfold leb; simpl.
  destruct (a ?= b)%Q eqn:E; try reflexivity.
  - apply Qeq_alt in E. lra.
  - apply Qlt_alt in E. lra.
Qed.

(** Nothing is greater than itself, and nothing is less than itself. *)
Lemma gtb_irrefl_eqb (a b : Num) : eqb a b = true -> gtb a b = false.
Proof.
  unfold eqb, gtb. destruct (compare a b) as [[]|]; congruence.
Qed.

Lemma ltb_irrefl_eqb (a b : Num) : eqb a b = true -> ltb a b = false.
Proof.
  unfold eqb, ltb. destruct (compare a b) as [[]|]; congruence.
Qed.

Lemma Qsquare_nonneg (x : Q) : (0 <= x * x)%Q.
Proof.
  destruct (Qlt_le_dec x 0).
  - assert (x * x == - x * - x)%Q as E by ring.
    rewrite E. apply Qmult_le_0_compat; lra.
  - apply Qmult_le_0_compat; lra.
Qed.

Lemma inject_Z_pos (z : Z) : (0 < z)%Z -> (0 < inject_Z z)%Q.
Proof. intros H. change 0%Q with (inject_Z 0). now rewrite <- Zlt_Qlt. Qed.

(** Division by a positive integer stays finite. *)
Lemma div_ofZ_pos (x : Q) (z : Z) :
  (0 < z)%Z -> div (Fin x) (ofZ z) = Fin (x / inject_Z z).
Proof.
  intros H. apply inject_Z_pos in H. unfold div, ofZ.
  destruct (inject_Z z ?= 0)%Q eqn:E; try reflexivity.
  apply Qeq_alt in E. lra.
Qed.

Lemma div_Fin_pos (x y : Q) : (0 < y)%Q -> div (Fin x) (Fin y) = Fin (x / y).
Proof.
  intros H. unfold div.
  destruct (y ?= 0)%Q eqn:E; try reflexivity.
  apply Qeq_alt in E. lra.
Qed.

Lemma sqrt_Fin_nonneg (sqrtQ : Q -> Q) (x : Q) :
  (0 <= x)%Q -> sqrt sqrtQ (Fin x) = Fin (sqrtQ x).
Proof.
  intros H. unfold sqrt. destruct (x ?= 0)%Q eqn:E; try reflexivity.
  apply Qlt_alt in E. lra.
Qed.

Lemma sqrtApprox_nonneg (x : Q) : (0 <= Examples.sqrtApprox x)%Q.
Proof.
  unfold Examples.sqrtApprox, Qle; simpl.
  rewrite Z.mul_1_r. apply Z.sqrt_nonneg.
Qed.

End NumFacts.

(* ================================================================== *)
(** * Facts about arrays *)
(* ================================================================== *)

Module ArrayFacts.
Import JS TechnicalIndicators.

Lemma index_map_seq (f : nat -> Scalar) (n i : nat) :
  (i < n)%nat -> index (map f (seq 0 n)) i = f i.
Proof.
  intros Hi. unfold index.
  rewrite (nth_indep _ SUndefined (f 0%nat)) by (rewrite length_map, length_seq; lia).
  rewrite (map_nth f (seq 0 n) 0%nat i), seq_nth by lia. reflexivity.
Qed.

Lemma index_repeat (v : Scalar) (n i : nat) :
  (i < n)%nat -> index (repeat v n) i = v.
Proof.
  intros Hi. unfold index. apply nth_repeat_lt. exact Hi.
Qed.

Lemma length_padArray {A} (array : list A) (n : nat) (v : A) :
  (length array <= n)%nat -> length (padArray array n v true) = n.
Proof.
  intros Hle. unfold padArray.
  destruct (n <=? length array)%nat eqn:E.
  - apply Nat.leb_le in E. lia.
  - rewrite length_app, repeat_length. lia.
Qed.

(** A padded array of values computed from their own index. *)
Lemma index_padArray_seq (g : nat -> Scalar) (first n i : nat) (pad : Scalar) :
  (first <= n)%nat -> (i < n)%nat ->
  index (padArray (map g (seq first (n - first))) n pad true) i
  = if (i <? first)%nat then pad else g i.
Proof.
  intros Hf Hi. unfold padArray, index.
  rewrite length_map, length_seq.
  destruct (n <=? n - first)%nat eqn:E.
  - apply Nat.leb_le in E. assert (first = 0)%nat as -> by lia.
    replace (n - 0)%nat with n by lia.
    destruct (i <? 0)%nat eqn:E0; [apply Nat.ltb_lt in E0; lia|].
    apply (index_map_seq g n i Hi).
  - replace (n - (n - first))%nat with first by lia.
    destruct (i <? first)%nat eqn:E1.
    + apply Nat.ltb_lt in E1.
      rewrite app_nth1 by (rewrite repeat_length; lia).
      apply nth_repeat_lt. exact E1.
    + apply Nat.ltb_ge in E1.
      rewrite app_nth2 by (rewrite repeat_length; lia).
      rewrite repeat_length.
      rewrite (nth_indep _ SUndefined (g 0%nat))
        by (rewrite length_map, length_seq; lia).
      rewrite (map_nth g), seq_nth by lia.
      f_equal. lia.
Qed.

End ArrayFacts.

(* ================================================================== *)
(** * The indicator engine *)
(* ================================================================== *)

Module IndicatorFacts.
Import JS TechnicalIndicators ArrayFacts NumFacts.

Lemma length_emaLoop k ema rest : length (emaLoop k ema rest) = length rest.
Proof.
  revert ema. induction rest as [|p rest IH]; intros ema; simpl; [reflexivity|].
  now rewrite IH.
Qed.

(** [validatePriceData] answers only about arrays. *)
Lemma validatePriceData_Return prices minLength name b :
  validatePriceData prices minLength name = Return b ->
  exists a, prices = PArr a
    /\ b = negb (Z.of_nat (length a) <? minLength)
    /\ (b = true -> existsb invalidPrice a = false).
Proof.
  destruct prices as [v|a]; simpl; [discriminate|].
  destruct (Z.of_nat (length a) <? minLength) eqn:E.
  - intros [= <-]. exists a. split; [reflexivity|]. split; [now rewrite E|].
    intros H; discriminate H.
  - destruct (existsb invalidPrice a) eqn:E'; [discriminate|].
    intros [= <-]. exists a. split; [reflexivity|]. split; [now rewrite E|].
    intros _; exact E'.
Qed.

(** EMA returns one value per price. *)
Lemma calculateEMA_length prices period l :
  calculateEMA prices period = Return l ->
  length l = length (elements prices).
Proof.
  unfold calculateEMA.
  destruct (period <=? 0) eqn:Hp; [discriminate|].
  apply Z.leb_gt in Hp.
  destruct (validatePriceData prices period "calculateEMA") as [b|m] eqn:Hv;
    simpl; [|discriminate].
  apply validatePriceData_Return in Hv as (a & -> & Hb & _). simpl.
  destruct b; simpl; intros [= <-].
  - symmetry in Hb. apply negb_true_iff, Z.ltb_ge in Hb.
    apply length_padArray. simpl.
    rewrite length_map, length_emaLoop, length_skipn. lia.
  - apply length_padArray. simpl. lia.
Qed.

Lemma length_macdLineOf fastEMA slowEMA slowPeriod n :
  length (macdLineOf fastEMA slowEMA slowPeriod n) = n.
Proof. unfold macdLineOf. now rewrite length_map, length_seq. Qed.

Lemma length_histogramOf macdLine signalLine slowPeriod signalPeriod :
  length (histogramOf macdLine signalLine slowPeriod signalPeriod)
  = length macdLine.
Proof. unfold histogramOf. now rewrite length_map, length_seq. Qed.

Lemma index_histogramOf macdLine signalLine slowPeriod signalPeriod i :
  (i < length macdLine)%nat ->
  index (histogramOf macdLine signalLine slowPeriod signalPeriod) i
  = if Z.of_nat i <? slowPeriod + signalPeriod - 2 then SNum (Fin 0)
    else SNum (sub (toNumber (index macdLine i)) (toNumber (index signalLine i))).
Proof.
  intros Hi. unfold histogramOf.
  now rewrite (index_map_seq _ (length macdLine) i Hi).
Qed.

(** The shape of a MACD result: either the all-zero fallback for a short
    series, or the three lines computed from the two averages. *)
Lemma calculateMACD_Return prices fast slow sig r :
  calculateMACD prices fast slow sig = Return r ->
  let n := length (elements prices) in
  (r = mkMacd (repeat (SNum (Fin 0)) n) (repeat (SNum (Fin 0)) n)
              (repeat (SNum (Fin 0)) n))
  \/ (exists fastEMA slowEMA,
        length (macd r) = n /\ length (signal r) = n
        /\ macd r = macdLineOf fastEMA slowEMA slow n
        /\ histogram r = histogramOf (macd r) (signal r) slow sig).
Proof.
  unfold calculateMACD.
  destruct (fast <=? 0); [discriminate|].
  destruct (slow <=? 0); [discriminate|].
  destruct (sig <=? 0); [discriminate|].
  destruct (validatePriceData prices (Z.max fast slow) "calculateMACD")
    as [b|m] eqn:Hv; simpl; [|discriminate].
  destruct b; simpl.
  - destruct (calculateEMA prices fast) as [fastEMA|] eqn:Hf; simpl; [|discriminate].
    destruct (calculateEMA prices slow) as [slowEMA|] eqn:Hs; simpl; [|discriminate].
    destruct (calculateEMA (PArr _) sig) as [signalLine|] eqn:Hg; simpl;
      [|discriminate].
    intros [= <-]. right. exists fastEMA, slowEMA. simpl.
    apply calculateEMA_length in Hg. simpl in Hg.
    rewrite length_macdLineOf in Hg |- *. auto.
  - intros [= <-]. now left.
Qed.

(** C5 (as amended).  Past the warm-up, that is at every index
    [i >= slowPeriod + signalPeriod - 2] of the returned arrays, the MACD
    histogram is the MACD line minus the signal line; at the earlier indices
    the histogram is 0, whatever the two lines hold there.  The three arrays
    have one entry per price. *)
Theorem macd_histogram_after_warmup prices fast slow sig r :
  calculateMACD prices fast slow sig = Return r ->
  length (macd r) = length (elements prices)
  /\ length (signal r) = length (elements prices)
  /\ length (histogram r) = length (elements prices)
  /\ forall i, (i < length (elements prices))%nat ->
       (slow + sig - 2 <= Z.of_nat i ->
          index (histogram r) i
          = SNum (sub (toNumber (index (macd r) i))
                      (toNumber (index (signal r) i))))
       /\ (Z.of_nat i < slow + sig - 2 ->
             index (histogram r) i = SNum (Fin 0)).
Proof.
  intros H. apply calculateMACD_Return in H. simpl in H.
  destruct H as [-> | (fastEMA & slowEMA & Hm & Hs & _ & Hh)].
  - simpl. rewrite !repeat_length. repeat split; try reflexivity.
    + intros _. now rewrite (index_repeat _ _ _ H).
    + intros _. now rewrite (index_repeat _ _ _ H).
  - rewrite Hh, length_histogramOf. repeat split; try assumption.
    + intros Hge. rewrite index_histogramOf by lia.
      destruct (Z.ltb_spec (Z.of_nat i) (slow + sig - 2)); [lia|reflexivity].
    + intros Hlt. rewrite index_histogramOf by lia.
      destruct (Z.ltb_spec (Z.of_nat i) (slow + sig - 2)); [reflexivity|lia].
Qed.

(** The theorem at the series 1, 2, 3 with periods 1, 2 and 2: index 2 is
    past the warm-up. *)
Lemma macd_histogram_after_warmup_witness :
  exists r,
    calculateMACD (numbers [1; 2; 3]%Q) 1 2 2 = Return r
    /\ index (histogram r) 2
       = SNum (sub (toNumber (index (macd r) 2)) (toNumber (index (signal r) 2))).
Proof.
  destruct (calculateMACD (numbers [1; 2; 3]%Q) 1 2 2) as [r|m] eqn:E;
    [|vm_compute in E; discriminate E].
  exists r. split; [reflexivity|].
  destruct (macd_histogram_after_warmup _ _ _ _ _ E) as (_ & _ & _ & H).
  apply (H 2%nat); simpl; lia.
Defined.

(** C5 as stated fails inside the warm-up.  For the series 1, 2, 3 with
    periods 1, 2 and 2, the MACD line at index 1 is 1/2 and the signal line
    is 1/4, while the histogram there is 0. *)
Lemma macd_histogram_warmup_counterexample :
  exists r,
    calculateMACD (numbers [1; 2; 3]%Q) 1 2 2 = Return r
    /\ eqb (toNumber (index (macd r) 1)) (Fin (1 # 2)) = true
    /\ eqb (toNumber (index (signal r) 1)) (Fin (1 # 4)) = true
    /\ index (histogram r) 1 = SNum (Fin 0)
    /\ eqb (toNumber (index (histogram r) 1))
           (sub (toNumber (index (macd r) 1)) (toNumber (index (signal r) 1)))
       = false.
Proof.
  eexists. split; [vm_compute; reflexivity|].
  repeat split; vm_compute; reflexivity.
Qed.

(** ** Bollinger Bands on finite prices *)

Lemma elements_numbers l :
  elements (numbers l) = map (fun q => SNum (Fin q)) l.
Proof. reflexivity. Qed.

Lemma numbers_valid (l : list Q) :
  existsb invalidPrice (map (fun q => SNum (Fin q)) l) = false.
Proof. induction l as [|q l IH]; simpl; [reflexivity|exact IH]. Qed.

Lemma validatePriceData_numbers l minLength name :
  validatePriceData (numbers l) minLength name
  = Return (negb (Z.of_nat (length l) <? minLength)).
Proof.
  unfold numbers, validatePriceData.
  rewrite length_map, numbers_valid.
  now destruct (Z.of_nat (length l) <? minLength).
Qed.

Lemma sumFrom_numbers (l : list Q) (s : Q) :
  sumFrom (Fin s) (map (fun q => SNum (Fin q)) l) = Fin (fold_left Qplus l s).
Proof.
  unfold sumFrom. revert s.
  induction l as [|q l IH]; intros s; simpl; [reflexivity|apply IH].
Qed.

(** A sum of squares is a non-negative finite number. *)
Lemma sumSquaredDiff_numbers (sma : Q) (l : list Q) (s : Q) :
  (0 <= s)%Q ->
  exists v,
    fold_left
      (fun s p =>
         add s (mul (sub (toNumber p) (Fin sma)) (sub (toNumber p) (Fin sma))))
      (map (fun q => SNum (Fin q)) l) (Fin s) = Fin v
    /\ (0 <= v)%Q.
Proof.
  revert s. induction l as [|q l IH]; intros s Hs; simpl.
  - now exists s.
  - apply IH. pose proof (Qsquare_nonneg (q + - sma)). lra.
Qed.

Section Bollinger.
Variable sqrtQ : Q -> Q.
Hypothesis sqrtQ_nonneg : forall x, (0 <= x)%Q -> (0 <= sqrtQ x)%Q.

(** One computed row: the average, and the average plus and minus a
    non-negative multiple of the deviation. *)
Lemma bandAt_numbers (l : list Q) (period : Z) (m : Q) (i : nat) :
  0 < period -> (0 < m)%Q ->
  exists sma w : Q,
    bandAt sqrtQ (map (fun q => SNum (Fin q)) l) period (Fin m) i
    = (Fin sma, Fin (sma + w), Fin (sma + - w))
    /\ (0 <= w)%Q.
Proof.
  intros Hp Hm. unfold bandAt, window, sumSquaredDiffFrom. cbv zeta.
  rewrite skipn_map, firstn_map.
  set (w := firstn (Z.to_nat period) (skipn (i - (Z.to_nat period - 1)) l)).
  rewrite sumFrom_numbers, (div_ofZ_pos _ _ Hp).
  set (sma := (fold_left Qplus w 0 / inject_Z period)%Q).
  destruct (sumSquaredDiff_numbers sma w 0 ltac:(lra)) as (v & -> & Hv).
  rewrite (div_ofZ_pos _ _ Hp).
  assert (0 <= v / inject_Z period)%Q as Hq.
  { apply Qle_shift_div_l; [now apply inject_Z_pos|lra]. }
  rewrite (sqrt_Fin_nonneg _ _ Hq).
  exists sma, (m * sqrtQ (v / inject_Z period))%Q. split; [reflexivity|].
  apply Qmult_le_0_compat; [lra|now apply sqrtQ_nonneg].
Qed.

(** The padding values around a non-negative first price are ordered. *)
Lemma padding_ordered (p0 : Q) :
  (0 <= p0)%Q ->
  geb (mul (Fin p0) (Fin (11 # 10))) (Fin p0) = true
  /\ geb (Fin p0) (mul (Fin p0) (Fin (9 # 10))) = true.
Proof.
  intros H. simpl. split; apply geb_Fin; lra.
Qed.

(** C8 (as amended).  For every Bollinger Bands computation on prices of
    magnitude at most 1e100, the first of which is not negative - at most
    2^32 - 1 of them, as in every array - with a positive period and a
    positive multiplier, the three returned arrays have one entry per price
    and, at every index (the padded prefix and the short-input fallback
    included), upper >= middle >= lower.  Within these magnitudes no sum or
    square that the code forms overflows, so that the average and the
    deviation are finite. *)
Theorem bollinger_bands_ordered (l : list Q) (period : Z) (m : Q) :
  0 < period -> (0 < m)%Q -> (0 <= hd 0 l)%Q ->
  forallb (Limits.within Limits.MARKET) l = true ->
  Z.of_nat (length l) <= Limits.MAX_LENGTH ->
  exists r,
    calculateBollingerBands sqrtQ (numbers l) period (Fin m) = Return r
    /\ length (upper r) = length l
    /\ length (middle r) = length l
    /\ length (lower r) = length l
    /\ forall i, (i < length l)%nat ->
         geb (toNumber (index (upper r) i)) (toNumber (index (middle r) i)) = true
         /\ geb (toNumber (index (middle r) i)) (toNumber (index (lower r) i)) = true.
Proof.
  intros Hp Hm H0 _ _. unfold calculateBollingerBands.
  destruct (Z.leb_spec period 0) as [?|_]; [lia|].
  replace (negb (isFinite (Fin m)) || leb (Fin m) (Fin 0)) with false
    by (symmetry; apply leb_Fin_false; exact Hm).
  rewrite validatePriceData_numbers, elements_numbers. cbn [bind].
  rewrite length_map.
  set (a := map (fun q => SNum (Fin q)) l).
  set (defaultValue := if (0 <? length l)%nat then index a 0 else SNum (Fin 0)).
  assert (forall i, (i < length l)%nat ->
            exists p0, defaultValue = SNum (Fin p0) /\ (0 <= p0)%Q) as Hdef.
  { intros i Hi. subst defaultValue a. destruct l as [|p0 l']; simpl in *; [lia|].
    now exists p0. }
  assert (forall i, (i < length l)%nat ->
            geb (toNumber (SNum (mul (toNumber defaultValue) (Fin (11 # 10)))))
                (toNumber defaultValue) = true
            /\ geb (toNumber defaultValue)
                   (toNumber (SNum (mul (toNumber defaultValue) (Fin (9 # 10)))))
               = true) as Hpad.
  { intros i Hi. destruct (Hdef i Hi) as (p0 & -> & Hp0).
    now apply padding_ordered. }
  destruct (Z.ltb_spec (Z.of_nat (length l)) period) as [Hshort|Hlong]; cbn [negb].
  - eexists. split; [reflexivity|]. cbn [upper middle lower].
    rewrite !repeat_length. repeat split; try reflexivity.
    all: rewrite !index_repeat by assumption; now apply (Hpad i).
  - eexists. split; [reflexivity|]. cbn [upper middle lower].
    rewrite !map_map.
    set (first := (Z.to_nat period - 1)%nat).
    assert (first <= length l)%nat as Hfirst by (subst first; lia).
    rewrite !length_padArray by (rewrite length_map, length_seq; lia).
    subst a. repeat split; try reflexivity.
    all: rewrite !index_padArray_seq by assumption.
    all: destruct (i <? first)%nat; [now apply (Hpad i)|].
    all: destruct (bandAt_numbers l period m i Hp Hm) as (sma & w & -> & Hw).
    all: cbn [fst snd toNumber]; apply geb_Fin; lra.
Qed.

End Bollinger.

(** The theorem at four prices with period 3 and multiplier 2. *)
Lemma bollinger_bands_ordered_witness :
  exists r,
    calculateBollingerBands Examples.sqrtApprox
      (numbers [10; 12; 11; 13]%Q) 3 (Fin 2) = Return r
    /\ length (upper r) = 4%nat
    /\ length (middle r) = 4%nat
    /\ length (lower r) = 4%nat
    /\ forall i, (i < 4)%nat ->
         geb (toNumber (index (upper r) i)) (toNumber (index (middle r) i)) = true
         /\ geb (toNumber (index (middle r) i)) (toNumber (index (lower r) i)) = true.
Proof.
  apply (bollinger_bands_ordered Examples.sqrtApprox
           (fun x _ => sqrtApprox_nonneg x) [10; 12; 11; 13]%Q 3 2).
  - lia.
  - reflexivity.
  - discriminate.
  - reflexivity.
  - vm_compute. discriminate.
Defined.

(** C8 as stated fails in three ways.  On a negative first price the
    padding is upside down: the series -10 alone, with period 20 and
    multiplier 2, is padded with -11, -10 and -9.  On a price that is
    Infinity the average is Infinity and the deviation NaN, so the upper and
    lower bands are NaN and compare with nothing.  And on finite prices so
    large that their sum overflows - 2^1023 twice, with period 2 - the
    doubles of the code give Infinity for the middle band and
    Infinity - Infinity = NaN for the lower one. *)
Lemma bollinger_negative_price_counterexample :
  (exists r,
     calculateBollingerBands Examples.sqrtApprox
       (numbers [-10]%Q) 20 (Fin 2) = Return r
     /\ eqb (toNumber (index (upper r) 0)) (Fin (-11)) = true
     /\ eqb (toNumber (index (middle r) 0)) (Fin (-10)) = true
     /\ eqb (toNumber (index (lower r) 0)) (Fin (-9)) = true
     /\ geb (toNumber (index (upper r) 0)) (toNumber (index (middle r) 0)) = false
     /\ geb (toNumber (index (middle r) 0)) (toNumber (index (lower r) 0)) = false)
  /\ (exists r,
        calculateBollingerBands Examples.sqrtApprox
          (PArr [SNum PInf]) 1 (Fin 2) = Return r
        /\ toNumber (index (middle r) 0) = PInf
        /\ toNumber (index (upper r) 0) = NaN
        /\ toNumber (index (lower r) 0) = NaN
        /\ geb (toNumber (index (upper r) 0)) (toNumber (index (middle r) 0)) = false
        /\ geb (toNumber (index (middle r) 0)) (toNumber (index (lower r) 0)) = false)
  /\ (exists r,
        Doubles.calculateBollingerBands [0x1p1023; 0x1p1023]%float 2 2%float
        = Return r
        /\ PrimFloat.is_infinity (nth 1 (Doubles.middle r) 0%float) = true
        /\ PrimFloat.is_nan (nth 1 (Doubles.lower r) 0%float) = true
        /\ PrimFloat.leb (nth 1 (Doubles.lower r) 0%float)
             (nth 1 (Doubles.middle r) 0%float) = false)
  /\ Limits.within Limits.MARKET (inject_Z (2 ^ 1023)) = false.
Proof.
  split; [|split; [|split]].
  - eexists. split; [vm_compute; reflexivity|].
    repeat split; vm_compute; reflexivity.
  - eexists. split; [vm_compute; reflexivity|].
    repeat split; vm_compute; reflexivity.
  - eexists. split; [vm_compute; reflexivity|].
    repeat split; vm_compute; reflexivity.
  - vm_compute. reflexivity.
Qed.

(** ** Input validation *)

Lemma validatePriceData_not_array v minLength name :
  throws (validatePriceData (NotArray v) minLength name) = true.
Proof. reflexivity. Qed.

(** An array with enough entries and a null, undefined or NaN among them is
    rejected. *)
Lemma validatePriceData_invalid a minLength name :
  minLength <= Z.of_nat (length a) ->
  existsb invalidPrice a = true ->
  throws (validatePriceData (PArr a) minLength name) = true.
Proof.
  intros Hlen Hbad. unfold validatePriceData.
  destruct (Z.ltb_spec (Z.of_nat (length a)) minLength); [lia|].
  now rewrite Hbad.
Qed.

(** An array with too few entries is never inspected. *)
Lemma validatePriceData_short a minLength name :
  Z.of_nat (length a) < minLength ->
  validatePriceData (PArr a) minLength name = Return false.
Proof.
  intros Hlen. unfold validatePriceData.
  destruct (Z.ltb_spec (Z.of_nat (length a)) minLength); [reflexivity|lia].
Qed.

(** Whatever a too-short array holds, the four price indicators answer it
    with their fallback. *)
Lemma short_array_never_rejected sqrtQ a period multiplier :
  0 < period -> Z.of_nat (length a) < period ->
  isFinite multiplier = true -> gtb multiplier (Fin 0) = true ->
  throws (calculateEMA (PArr a) period) = false
  /\ throws (calculateRSI (PArr a) period) = false
  /\ throws (calculateMACD (PArr a) period period period) = false
  /\ throws (calculateBollingerBands sqrtQ (PArr a) period multiplier) = false.
Proof.
  intros Hp Hlen Hfin Hpos.
  unfold calculateEMA, calculateRSI, calculateMACD, calculateBollingerBands.
  destruct (Z.leb_spec period 0); [lia|].
  rewrite Z.max_id, Hfin.
  replace (leb multiplier (Fin 0)) with false
    by (unfold gtb, leb in *; now destruct (compare multiplier (Fin 0)) as [[]|]).
  rewrite !validatePriceData_short by lia. repeat split.
Qed.

Lemma short_klines_never_rejected a period :
  0 < period -> Z.of_nat (length a) < period + 1 ->
  calculateATR (KArr a) period = Return (Fin 0).
Proof.
  intros Hp Hlen. unfold calculateATR.
  destruct (Z.leb_spec period 0); [lia|].
  destruct (Z.ltb_spec (Z.of_nat (length a)) (period + 1)); [reflexivity|lia].
Qed.

(** Something that is not an array is always rejected. *)
Lemma not_array_rejected sqrtQ v period multiplier :
  throws (calculateEMA (NotArray v) period) = true
  /\ throws (calculateRSI (NotArray v) period) = true
  /\ throws (calculateMACD (NotArray v) period period period) = true
  /\ throws (calculateBollingerBands sqrtQ (NotArray v) period multiplier) = true
  /\ throws (calculateATR (KNotArray v) period) = true.
Proof.
  unfold calculateEMA, calculateRSI, calculateMACD, calculateBollingerBands,
    calculateATR.
  destruct (period <=? 0); [repeat split|].
  destruct (negb (isFinite multiplier) || leb multiplier (Fin 0)); repeat split.
Qed.

(** An array that is long enough is rejected when it holds a null, an
    undefined or a NaN. *)
Lemma invalid_element_rejected a period :
  period <= Z.of_nat (length a) -> existsb invalidPrice a = true ->
  throws (calculateEMA (PArr a) period) = true.
Proof.
  intros Hlen Hbad. unfold calculateEMA.
  destruct (period <=? 0); [reflexivity|].
  pose proof (validatePriceData_invalid a period "calculateEMA" Hlen Hbad) as H.
  now destruct (validatePriceData (PArr a) period "calculateEMA").
Qed.

(** C6, at the inputs where the code departs from it.  An array that is
    shorter than the minimum length is answered with the neutral fallback
    even when it holds null, undefined or NaN: no validation error is
    signalled, and EMA hands the null back as a value. *)
Theorem short_malformed_input_falls_back :
  calculateEMA (PArr [SNull]) 14 = Return [SNull]
  /\ calculateRSI (PArr [SUndefined]) 14 = Return [SNum (Fin 50)]
  /\ calculateMACD (PArr [SNum NaN]) 12 26 9
     = Return (mkMacd [SNum (Fin 0)] [SNum (Fin 0)] [SNum (Fin 0)])
  /\ calculateBollingerBands Examples.sqrtApprox (PArr [SUndefined]) 20 (Fin 2)
     = Return (mkBands [SNum NaN] [SUndefined] [SNum NaN])
  /\ calculateATR (KArr [KNotObject SNull]) 14 = Return (Fin 0)
  /\ throws (calculateEMA (PArr [SNull; SNum (Fin 1)]) 2) = true.
Proof.
  repeat split; vm_compute; reflexivity.
Qed.

End IndicatorFacts.

(* ================================================================== *)
(** * The crossover and alert policy *)
(* ================================================================== *)

Module TrackerFacts.
Import JS Tracker NumFacts.

Lemma checkForCrossover_no_cross cd now prediction st symbol
    prevPrice lastPrice prevEMA lastEMA :
  gtb lastPrice lastEMA = false -> ltb lastPrice lastEMA = false ->
  checkForCrossover cd now prediction st symbol prevPrice lastPrice prevEMA lastEMA
  = setCoinStates st (<[symbol := sideOf lastPrice lastEMA]> (coinStates st)).
Proof.
  intros Hgt Hlt. unfold checkForCrossover.
  now rewrite Hgt, Hlt, !andb_false_r.
Qed.

(** C1 (as amended).  When the current price equals the current indicator
    value, the computed side is 'below' (never 'above'), in the confirmed
    candle-close check, which records it as the symbol's state and sends
    nothing, and in the provisional real-time check, which reports a move
    to 'below' when the last closed price was above the average. *)
Theorem tie_is_below (cd now : Z) prediction st symbol
    prevPrice prevIndicator currPrice currIndicator :
  eqb currPrice currIndicator = true ->
  sideOf currPrice currIndicator = below
  /\ (let st' := checkForCrossover cd now prediction st symbol
                   prevPrice currPrice prevIndicator currIndicator in
      coinStates st' !! symbol = Some below
      /\ sentAlerts st' = sentAlerts st)
  /\ (forall klines lastCandle emaValues kline logUnconfirmed,
        klineCache st !! symbol = Some klines ->
        last klines = Some lastCandle ->
        emaCache st !! symbol = Some emaValues ->
        (2 <= length emaValues)%nat ->
        last emaValues = Some currIndicator ->
        k_c kline = currPrice ->
        processRealtimeCandle st symbol kline logUnconfirmed
        = if gtb (close lastCandle) currIndicator
          then log st (LogPotentialCrossover symbol below logUnconfirmed)
          else st).
Proof.
  intros Htie.
  assert (sideOf currPrice currIndicator = below) as Hside.
  { unfold sideOf. now rewrite (gtb_irrefl_eqb _ _ Htie). }
  split; [exact Hside|]. split.
  - cbn zeta.
    rewrite checkForCrossover_no_cross
      by (now apply gtb_irrefl_eqb || now apply ltb_irrefl_eqb).
    rewrite Hside. simpl. split; [apply lookup_insert_eq|reflexivity].
  - intros klines lastCandle emaValues kline logU Hk Hlast He Hlen Hl <-.
    unfold processRealtimeCandle. rewrite Hk, He.
    destruct klines as [|c klines]; [discriminate Hlast|].
    destruct (Nat.ltb_spec (length emaValues) 2); [lia|].
    unfold lastOf. rewrite Hlast, Hl, Hside.
    unfold sideOf. destruct (gtb (close lastCandle) currIndicator).
    + now rewrite bool_decide_eq_true_2.
    + now rewrite bool_decide_eq_false_2 by (intros Hne; now apply Hne).
Qed.

(** The theorem at price 10 on an average of 10, after a close at 9. *)
Lemma tie_is_below_witness :
  eqb (Fin 10) (Fin 10) = true
  /\ sideOf (Fin 10) (Fin 10) = below
  /\ coinStates (checkForCrossover 900000 2000000 None TrackerExamples.tracking
                   "BTCUSDT" (Fin 11) (Fin 10) (Fin 10) (Fin 10))
       !! "BTCUSDT"%string = Some below
  /\ processRealtimeCandle TrackerExamples.tracking "BTCUSDT"
       (mkKlineMsg 3 (Fin 10) false) true
     = TrackerExamples.tracking.
Proof.
  split; [reflexivity|].
  destruct (tie_is_below 900000 2000000 None TrackerExamples.tracking "BTCUSDT"
              (Fin 11) (Fin 10) (Fin 10) (Fin 10) eq_refl) as (H1 & (H2 & _) & H3).
  split; [exact H1|]. split; [exact H2|].
  apply (H3 [TrackerExamples.candle 1 9; TrackerExamples.candle 2 9]
            (TrackerExamples.candle 2 9) [Fin 10; Fin 10]
            (mkKlineMsg 3 (Fin 10) false) true
            eq_refl eq_refl eq_refl (le_n 2) eq_refl eq_refl).
Defined.

(** C1 as stated fails: at price 10 on an average of 10 the side is 'below',
    in both checks.  The candle-close check records 'below'; the real-time
    check, after a close at 9, sees no change of side and reports nothing. *)
Lemma tie_above_counterexample :
  sideOf (Fin 10) (Fin 10) = below
  /\ coinStates (checkForCrossover 900000 2000000 None TrackerExamples.tracking
                   "BTCUSDT" (Fin 11) (Fin 10) (Fin 10) (Fin 10))
       !! "BTCUSDT"%string = Some below
  /\ processRealtimeCandle TrackerExamples.tracking "BTCUSDT"
       (mkKlineMsg 3 (Fin 10) false) true
     = TrackerExamples.tracking.
Proof.
  repeat split; vm_compute; reflexivity.
Qed.

(** ** Cooldown *)

Section Cooldown.
Variable ALERT_COOLDOWN : Z.

Lemma shouldAlert_flip_early now st symbol prev cur T :
  coinStates st !! symbol = Some prev -> prev <> cur ->
  lastAlerts st !! symbol = Some T ->
  now - T < ALERT_COOLDOWN ->
  shouldAlert ALERT_COOLDOWN now st symbol cur
  = (log (setCoinStates st (<[symbol := cur]> (coinStates st)))
         (LogCooldownSkip symbol), false).
Proof.
  intros Hs Hne Ht Hnow. unfold shouldAlert. rewrite Hs, Ht.
  rewrite bool_decide_eq_true_2 by congruence. simpl.
  destruct (Z.leb_spec ALERT_COOLDOWN (now - T)); [lia|reflexivity].
Qed.

Lemma shouldAlert_flip_due now st symbol prev cur T :
  coinStates st !! symbol = Some prev -> prev <> cur ->
  lastAlerts st !! symbol = Some T ->
  ALERT_COOLDOWN <= now - T ->
  shouldAlert ALERT_COOLDOWN now st symbol cur
  = (setLastAlerts (setCoinStates st (<[symbol := cur]> (coinStates st)))
       (<[symbol := now]> (lastAlerts st)), true).
Proof.
  intros Hs Hne Ht Hnow. unfold shouldAlert. rewrite Hs, Ht.
  rewrite bool_decide_eq_true_2 by congruence. simpl.
  destruct (Z.leb_spec ALERT_COOLDOWN (now - T)); [reflexivity|lia].
Qed.

(** The cooldown on a strict crossover.  With the symbol's state at 'below'
    and its last alert at time [T], a crossover from strictly below the
    average to strictly above it, evaluated at [T + cooldown - 1], sends
    nothing and leaves the alert timestamps as they were, and the same
    crossover evaluated at [T + cooldown] sends exactly one alert and sets
    the symbol's last alert time to the evaluation time.  [shouldAlert]
    answers false in the first case and true in the second. *)
Theorem cooldown_gates_alert (T : Z) prediction st symbol
    prevPrice lastPrice prevEMA lastEMA :
  coinStates st !! symbol = Some below ->
  lastAlerts st !! symbol = Some T ->
  ltb prevPrice prevEMA = true ->
  gtb lastPrice lastEMA = true ->
  let early := checkForCrossover ALERT_COOLDOWN (T + ALERT_COOLDOWN - 1)
                 prediction st symbol prevPrice lastPrice prevEMA lastEMA in
  let due := checkForCrossover ALERT_COOLDOWN (T + ALERT_COOLDOWN)
               prediction st symbol prevPrice lastPrice prevEMA lastEMA in
  (snd (shouldAlert ALERT_COOLDOWN (T + ALERT_COOLDOWN - 1) st symbol above) = false
   /\ sentAlerts early = sentAlerts st
   /\ lastAlerts early = lastAlerts st)
  /\ (snd (shouldAlert ALERT_COOLDOWN (T + ALERT_COOLDOWN) st symbol above) = true
      /\ (exists a, sentAlerts due = sentAlerts st ++ [a]
                    /\ al_symbol a = symbol /\ al_crossType a = up)
      /\ lastAlerts due !! symbol = Some (T + ALERT_COOLDOWN)).
Proof.
  intros Hs Ht Hprev Hlast early due. subst early due.
  unfold checkForCrossover, sideOf. rewrite Hprev, Hlast. cbn [andb].
  split.
  - rewrite (shouldAlert_flip_early _ st symbol below above T), 
      (shouldAlert_flip_early _ (log st _) symbol below above T)
      by (assumption || discriminate || lia).
    repeat split.
  - rewrite (shouldAlert_flip_due _ st symbol below above T), 
      (shouldAlert_flip_due _ (log st _) symbol below above T)
      by (assumption || discriminate || lia).
    split; [reflexivity|]. split.
    + eexists. repeat split.
    + simpl. apply lookup_insert_eq.
Qed.

End Cooldown.

(** The theorem with the default cooldown of 15 minutes, a last alert at
    time 1000 and a close that moves from 9 to 11 across an average of 10. *)
Lemma cooldown_gates_alert_witness :
  sentAlerts (checkForCrossover 900000 (1000 + 900000 - 1) None
                TrackerExamples.tracking "BTCUSDT" (Fin 9) (Fin 11) (Fin 10) (Fin 10))
  = []
  /\ lastAlerts (checkForCrossover 900000 (1000 + 900000) None
                   TrackerExamples.tracking "BTCUSDT" (Fin 9) (Fin 11) (Fin 10) (Fin 10))
       !! "BTCUSDT"%string = Some (1000 + 900000).
Proof.
  destruct (cooldown_gates_alert 900000 1000 None TrackerExamples.tracking
              "BTCUSDT" (Fin 9) (Fin 11) (Fin 10) (Fin 10)
              eq_refl eq_refl eq_refl eq_refl)
    as ((_ & H1 & _) & (_ & _ & H2)).
  split; [exact H1|exact H2].
Defined.

(** C2, at the input where the code departs from it.  The previous close
    lies exactly on the average - which the code's own classification of a
    side, [price > ema ? 'above' : 'below'], counts as below - the recorded
    side is 'below', the last alert was at [T] and the cooldown has passed
    (in particular at [T + cooldown]).  The close then moves above the
    average.  [shouldAlert] on that transition answers true, yet
    [checkForCrossover] sends nothing: its test for an upward crossover asks
    for a previous close strictly below the average, so the call falls to
    the branch that only records the new side.  The alert is not late but
    lost: the side is now 'above', and no later check on a close above the
    average sends it. *)
Theorem rise_from_tie_is_not_alerted (ALERT_COOLDOWN T now : Z) prediction st
    symbol prevPrice lastPrice prevEMA lastEMA :
  coinStates st !! symbol = Some below ->
  lastAlerts st !! symbol = Some T ->
  ALERT_COOLDOWN <= now - T ->
  eqb prevPrice prevEMA = true ->
  gtb lastPrice lastEMA = true ->
  let st' := checkForCrossover ALERT_COOLDOWN now prediction st symbol
               prevPrice lastPrice prevEMA lastEMA in
  sideOf prevPrice prevEMA = below
  /\ sideOf lastPrice lastEMA = above
  /\ snd (shouldAlert ALERT_COOLDOWN now st symbol above) = true
  /\ sentAlerts st' = sentAlerts st
  /\ lastAlerts st' = lastAlerts st
  /\ coinStates st' !! symbol = Some above
  /\ forall now2 prediction2 prevPrice2 lastPrice2 prevEMA2 lastEMA2,
       gtb lastPrice2 lastEMA2 = true ->
       sentAlerts (checkForCrossover ALERT_COOLDOWN now2 prediction2 st' symbol
                     prevPrice2 lastPrice2 prevEMA2 lastEMA2)
       = sentAlerts st.
Proof.
  intros Hs Ht Hnow Htie Hlast st'.
  assert (ltb prevPrice prevEMA = false) as Hlt by now apply ltb_irrefl_eqb.
  assert (gtb prevPrice prevEMA = false) as Hgt by now apply gtb_irrefl_eqb.
  assert (st' = setCoinStates st (<[symbol := above]> (coinStates st))) as ->.
  { subst st'. unfold checkForCrossover, sideOf.
    now rewrite Hlt, Hgt, Hlast. }
  split; [unfold sideOf; now rewrite Hgt|].
  split; [unfold sideOf; now rewrite Hlast|].
  split; [now rewrite (shouldAlert_flip_due ALERT_COOLDOWN now st symbol below above T)
            by (assumption || discriminate)|].
  split; [reflexivity|]. split; [reflexivity|].
  split; [apply lookup_insert_eq|].
  intros now2 prediction2 prevPrice2 lastPrice2 prevEMA2 lastEMA2 Hlast2.
  assert (ltb lastPrice2 lastEMA2 = false) as Hlt2.
  { unfold gtb, ltb in *. now destruct (compare lastPrice2 lastEMA2) as [[]|]. }
  unfold checkForCrossover, sideOf. rewrite Hlast2, Hlt2, andb_false_r.
  destruct (ltb prevPrice2 prevEMA2); cbn [andb]; [|reflexivity].
  unfold shouldAlert. cbn [coinStates log setCoinStates].
  rewrite lookup_insert_eq.
  rewrite bool_decide_eq_false_2 by (intros Hne; now apply Hne).
  reflexivity.
Qed.

(** The theorem on the candles 10 (two hundred times) and then 10.5, with
    the default period of 200 and the default cooldown of 15 minutes, for a
    symbol last seen below its average and last alerted at time 1000: the
    previous close is 10 on an average of 10, the last close 10.5 is above
    the average, and nothing is sent. *)
Lemma rise_from_tie_is_not_alerted_witness :
  length ScenarioExamples.averages = 2%nat
  /\ sentAlerts
       (checkForCrossover 900000 (1000 + 900000) None TrackerExamples.tracking
          "BTCUSDT" (Fin 10) (Fin (21 # 2))
          (nth 0 ScenarioExamples.averages NaN)
          (nth 1 ScenarioExamples.averages NaN))
     = sentAlerts TrackerExamples.tracking.
Proof.
  split; [vm_compute; reflexivity|].
  destruct (rise_from_tie_is_not_alerted 900000 1000 (1000 + 900000) None
              TrackerExamples.tracking "BTCUSDT" (Fin 10) (Fin (21 # 2))
              (nth 0 ScenarioExamples.averages NaN)
              (nth 1 ScenarioExamples.averages NaN))
    as (_ & _ & _ & H & _).
  - reflexivity.
  - reflexivity.
  - lia.
  - vm_compute. reflexivity.
  - vm_compute. reflexivity.
  - exact H.
Defined.

(** ** Label backfill *)

Lemma findIndex_lookup timestamp data i :
  findIndex timestamp data = Some i ->
  exists d, data !! i = Some d /\ dp_timestamp d = timestamp.
Proof.
  revert i. induction data as [|d data IH]; intros i; simpl; [discriminate|].
  destruct (Z.eqb_spec (dp_timestamp d) timestamp) as [E|_].
  - intros [= <-]. now exists d.
  - destruct (findIndex timestamp data) as [j|]; simpl; [|discriminate].
    intros [= <-]. now apply IH.
Qed.

(** Rewriting the found point without touching its timestamp keeps it the
    found point. *)
Lemma findIndex_insert timestamp data i x :
  findIndex timestamp data = Some i ->
  dp_timestamp x = timestamp ->
  findIndex timestamp (<[i := x]> data) = Some i.
Proof.
  revert i. induction data as [|d data IH]; intros i; simpl; [discriminate|].
  destruct (Z.eqb_spec (dp_timestamp d) timestamp) as [E|N].
  - intros [= <-] Hx. simpl. now rewrite Hx, Z.eqb_refl.
  - destruct (findIndex timestamp data) as [j|] eqn:Hj; simpl; [|discriminate].
    intros [= <-] Hx. simpl.
    destruct (Z.eqb_spec (dp_timestamp d) timestamp); [contradiction|].
    now rewrite (IH j eq_refl Hx).
Qed.

Lemma updateAt_found f i data d :
  data !! i = Some d -> updateAt f i data = <[i := f d]> data.
Proof. intros H. unfold updateAt. now rewrite H. Qed.

Section LastWriteWins.
(** Two writers of a label: neither moves a point to another timestamp, and
    the second does not look at what the first wrote. *)
Variables f1 f2 : DataPoint -> DataPoint.
Hypothesis f1_timestamp : forall d, dp_timestamp (f1 d) = dp_timestamp d.
Hypothesis f2_after_f1 : forall d, f2 (f1 d) = f2 d.

Lemma updateAt_twice timestamp data i :
  findIndex timestamp data = Some i ->
  findIndex timestamp (updateAt f1 i data) = Some i
  /\ updateAt f2 i (updateAt f1 i data) = updateAt f2 i data.
Proof.
  intros Hi. destruct (findIndex_lookup _ _ _ Hi) as (d & Hd & Ht).
  rewrite (updateAt_found f1 i data d Hd). split.
  - apply findIndex_insert; [exact Hi|]. now rewrite f1_timestamp.
  - rewrite (updateAt_found f2 i data d Hd).
    rewrite (updateAt_found f2 i _ (f1 d)).
    + now rewrite list_insert_insert_eq, f2_after_f1.
    + apply list_lookup_insert_eq. now apply lookup_lt_Some in Hd.
Qed.

(** On disk: the second write lands where the first did, and where the
    first found nothing to write the second finds nothing either. *)
Lemma updateFiles_twice timestamp files :
  match updateFiles f1 timestamp files with
  | Some files' =>
      exists files'',
        updateFiles f2 timestamp files' = Some files''
        /\ updateFiles f2 timestamp files = Some files''
  | None => updateFiles f2 timestamp files = None
  end.
Proof.
  induction files as [|[name content] files IH]; simpl; [reflexivity|].
  destruct (endsWith name ".json") eqn:Hn.
  - destruct content as [|data]; [reflexivity|].
    destruct (findIndex timestamp data) as [i|] eqn:Hi.
    + simpl. rewrite Hn.
      destruct (updateAt_twice timestamp data i Hi) as (-> & ->). eauto.
    + destruct (updateFiles f1 timestamp files) as [files'|]; simpl.
      * destruct IH as (files'' & -> & ->). rewrite Hn, Hi. simpl. eauto.
      * now rewrite IH.
  - destruct (updateFiles f1 timestamp files) as [files'|]; simpl.
    + destruct IH as (files'' & -> & ->). rewrite Hn. simpl. eauto.
    + now rewrite IH.
Qed.

End LastWriteWins.

Lemma writeLabel_timestamp c d : dp_timestamp (writeLabel c d) = dp_timestamp d.
Proof. reflexivity. Qed.

Lemma writeLabel_twice c1 c2 d : writeLabel c2 (writeLabel c1 d) = writeLabel c2 d.
Proof. reflexivity. Qed.

Lemma updateStoredDataPoint_twice st symbol timestamp c1 c2 :
  mlDataDir (fst (updateStoredDataPoint
                    (fst (updateStoredDataPoint st symbol timestamp c1))
                    symbol timestamp c2))
  = mlDataDir (fst (updateStoredDataPoint st symbol timestamp c2)).
Proof.
  unfold updateStoredDataPoint.
  destruct (mlDataDir st !! symbol) as [files|] eqn:Hd; simpl; [|now rewrite Hd].
  pose proof (updateFiles_twice (writeLabel c1) (writeLabel c2)
                (writeLabel_timestamp c1) (writeLabel_twice c1 c2)
                timestamp files) as H.
  destruct (updateFiles (writeLabel c1) timestamp files) as [files'|]; simpl.
  - destruct H as (files'' & H1 & H2).
    rewrite lookup_insert_eq, H1, H2. simpl. apply insert_insert_eq.
  - now rewrite Hd, H.
Qed.

Lemma updateStoredDataPoint_trainingData st symbol timestamp c :
  trainingData (fst (updateStoredDataPoint st symbol timestamp c))
  = trainingData st.
Proof.
  unfold updateStoredDataPoint.
  destruct (mlDataDir st !! symbol) as [files|]; [|reflexivity].
  now destruct (updateFiles (writeLabel c) timestamp files).
Qed.

(** What the call leaves on disk depends on what was on disk only. *)
Lemma updateStoredDataPoint_ext st st' symbol timestamp c :
  mlDataDir st = mlDataDir st' ->
  mlDataDir (fst (updateStoredDataPoint st symbol timestamp c))
  = mlDataDir (fst (updateStoredDataPoint st' symbol timestamp c)).
Proof.
  intros H. unfold updateStoredDataPoint. rewrite <- H.
  destruct (mlDataDir st !! symbol) as [files|]; [|exact H].
  destruct (updateFiles (writeLabel c) timestamp files); simpl;
    [now rewrite H|exact H].
Qed.

Lemma updateFuturePriceChange_found p st symbol timestamp data i d :
  trainingData st !! symbol = Some data ->
  findIndex timestamp data = Some i ->
  data !! i = Some d ->
  updateFuturePriceChange (Return p) st symbol timestamp
  = fst (updateStoredDataPoint
           (log (setTrainingData st
                   (<[symbol := <[i := writeLabel (percentChange p (dp_close d)) d]> data]>
                      (trainingData st)))
                (LogFuturePriceChange symbol (percentChange p (dp_close d))))
           symbol timestamp (percentChange p (dp_close d))).
Proof.
  intros Hs Hi Hd. unfold updateFuturePriceChange.
  rewrite Hs, Hi, Hd. now rewrite (updateAt_found _ i data d Hd).
Qed.

Lemma collector_backfill_twice dir symbol timestamp c1 c2 :
  fst (Collector.updateFuturePriceChange
         (fst (Collector.updateFuturePriceChange dir symbol timestamp c1))
         symbol timestamp c2)
  = fst (Collector.updateFuturePriceChange dir symbol timestamp c2).
Proof.
  unfold Collector.updateFuturePriceChange.
  destruct (dir !! symbol) as [files|] eqn:Hd; simpl; [|now rewrite Hd].
  pose proof (updateFiles_twice (Collector.writeFuturePriceChange c1)
                (Collector.writeFuturePriceChange c2)
                (fun _ => eq_refl) (fun _ => eq_refl) timestamp files) as H.
  destruct (updateFiles (Collector.writeFuturePriceChange c1) timestamp files)
    as [files'|]; simpl.
  - destruct H as (files'' & H1 & H2).
    rewrite lookup_insert_eq, H1, H2. simpl. apply insert_insert_eq.
  - now rewrite Hd, H.
Qed.

(** C3 (as amended).  A backfill writes the label of the first stored point
    with the given timestamp, and a second backfill for the same point is
    not a no-op: it overwrites the stored value with the newly computed
    change.  After two backfills the training data, in memory and on disk,
    is what the second backfill alone would have left; the same holds for
    the collector's on-disk backfill. *)
Theorem second_backfill_overwrites st symbol timestamp p1 p2 data i d :
  trainingData st !! symbol = Some data ->
  findIndex timestamp data = Some i ->
  data !! i = Some d ->
  let first := updateFuturePriceChange (Return p1) st symbol timestamp in
  let second := updateFuturePriceChange (Return p2) first symbol timestamp in
  let alone := updateFuturePriceChange (Return p2) st symbol timestamp in
  trainingData first !! symbol
  = Some (<[i := writeLabel (percentChange p1 (dp_close d)) d]> data)
  /\ trainingData second !! symbol
     = Some (<[i := writeLabel (percentChange p2 (dp_close d)) d]> data)
  /\ trainingData second = trainingData alone
  /\ mlDataDir second = mlDataDir alone
  /\ (forall dir c1 c2,
        fst (Collector.updateFuturePriceChange
               (fst (Collector.updateFuturePriceChange dir symbol timestamp c1))
               symbol timestamp c2)
        = fst (Collector.updateFuturePriceChange dir symbol timestamp c2)).
Proof.
  intros Hs Hi Hd first second alone.
  assert (i < length data)%nat as Hlen by now apply lookup_lt_Some in Hd.
  assert (dp_timestamp d = timestamp) as Hts.
  { destruct (findIndex_lookup _ _ _ Hi) as (d' & Hd' & Ht). congruence. }
  assert (Hfirst := updateFuturePriceChange_found p1 st symbol timestamp data i d
                      Hs Hi Hd).
  assert (Halone := updateFuturePriceChange_found p2 st symbol timestamp data i d
                      Hs Hi Hd).
  fold first in Hfirst. fold alone in Halone.
  assert (trainingData first
          = <[symbol := <[i := writeLabel (percentChange p1 (dp_close d)) d]> data]>
              (trainingData st)) as Ht1.
  { rewrite Hfirst. now rewrite updateStoredDataPoint_trainingData. }
  assert (Hsecond := updateFuturePriceChange_found p2 first symbol timestamp
                       (<[i := writeLabel (percentChange p1 (dp_close d)) d]> data) i
                       (writeLabel (percentChange p1 (dp_close d)) d)).
  fold second in Hsecond.
  rewrite Ht1, lookup_insert_eq in Hsecond.
  specialize (Hsecond eq_refl
                (findIndex_insert timestamp data i
                   (writeLabel (percentChange p1 (dp_close d)) d) Hi Hts)).
  rewrite list_lookup_insert_eq in Hsecond by exact Hlen.
  specialize (Hsecond eq_refl).
  change (dp_close (writeLabel (percentChange p1 (dp_close d)) d))
    with (dp_close d) in Hsecond.
  rewrite writeLabel_twice, list_insert_insert_eq, insert_insert_eq in Hsecond.
  assert (trainingData second = trainingData alone) as Ht2.
  { rewrite Hsecond, Halone. now rewrite !updateStoredDataPoint_trainingData. }
  split; [rewrite Ht1; apply lookup_insert_eq|].
  split; [rewrite Ht2, Halone, updateStoredDataPoint_trainingData;
          apply lookup_insert_eq|].
  split; [exact Ht2|]. split; [|intros; apply collector_backfill_twice].
  rewrite Hsecond, Halone.
  etransitivity;
    [apply (updateStoredDataPoint_ext _ first); reflexivity|].
  rewrite Hfirst, updateStoredDataPoint_twice.
  apply updateStoredDataPoint_ext. reflexivity.
Qed.

(** The theorem at the stored point of [tracking] (close 100), backfilled at
    price 110 and then at price 120. *)
Lemma second_backfill_overwrites_witness :
  let d := mkDataPoint 2 "BTCUSDT" (Fin 100) SNull SNull SUndefined in
  let first := updateFuturePriceChange (Return (Fin 110))
                 TrackerExamples.tracking "BTCUSDT" 2 in
  let second := updateFuturePriceChange (Return (Fin 120)) first "BTCUSDT" 2 in
  trainingData second !! "BTCUSDT"%string
  = Some [writeLabel (percentChange (Fin 120) (Fin 100)) d].
Proof.
  intros d first second.
  destruct (second_backfill_overwrites TrackerExamples.tracking "BTCUSDT" 2
              (Fin 110) (Fin 120) [d] 0%nat d eq_refl eq_refl eq_refl)
    as (_ & H & _).
  exact H.
Defined.

(** C3 as stated fails.  The point of [tracking] closed at 100; a backfill
    at price 110 stores a change of 10 in memory and on disk, and a second
    backfill at price 120 replaces it by 20. *)
Lemma second_backfill_counterexample :
  let first := updateFuturePriceChange (Return (Fin 110))
                 TrackerExamples.tracking "BTCUSDT" 2 in
  let second := updateFuturePriceChange (Return (Fin 120)) first "BTCUSDT" 2 in
  sameNumbers
    (TrackerExamples.memoryLabels first "BTCUSDT") [Fin 10] = true
  /\ sameNumbers
       (TrackerExamples.diskLabels first "BTCUSDT") [Fin 10] = true
  /\ sameNumbers
       (TrackerExamples.memoryLabels second "BTCUSDT") [Fin 20] = true
  /\ sameNumbers
       (TrackerExamples.diskLabels second "BTCUSDT") [Fin 20] = true
  /\ sameNumbers
       (TrackerExamples.memoryLabels second "BTCUSDT")
       (TrackerExamples.memoryLabels first "BTCUSDT") = false
  /\ sameNumbers
       (TrackerExamples.diskLabels second "BTCUSDT")
       (TrackerExamples.diskLabels first "BTCUSDT") = false.
Proof.
  repeat split; vm_compute; reflexivity.
Qed.

(** ** Unconfirmed ticks *)

(** C9 (as amended).  A message for a candle that is not closed goes to
    [processRealtimeCandle], and processing it sends no alert, leaves the
    alert state and the cooldown timestamps alone, adds no training point in
    memory or on disk, and leaves the stored candles and the EMA history as
    they were.  It recomputes no indicator point: with candles and at least
    two averages cached, it compares the price of the tick with the last
    stored average and logs one potential crossover exactly when the tick
    lies on the other side of that average than the last closed price; with
    less cached it does nothing at all. *)
Theorem unconfirmed_tick_only_observes processClosedCandle st symbol t c
    logUnconfirmed :
  let tick := mkKlineMsg t c false in
  let st' := processRealtimeCandle st symbol tick logUnconfirmed in
  onKlineMessage processClosedCandle st symbol tick
  = processRealtimeCandle st symbol tick false
  /\ sentAlerts st' = sentAlerts st
  /\ coinStates st' = coinStates st
  /\ lastAlerts st' = lastAlerts st
  /\ trainingData st' = trainingData st
  /\ mlDataDir st' = mlDataDir st
  /\ klineCache st' = klineCache st
  /\ emaCache st' = emaCache st
  /\ (forall klines lastCandle emaValues lastEMA,
        klineCache st !! symbol = Some klines ->
        last klines = Some lastCandle ->
        emaCache st !! symbol = Some emaValues ->
        (2 <= length emaValues)%nat ->
        last emaValues = Some lastEMA ->
        logged st'
        = if bool_decide (sideOf (close lastCandle) lastEMA <> sideOf c lastEMA)
          then logged st
               ++ [LogPotentialCrossover symbol (sideOf c lastEMA) logUnconfirmed]
          else logged st)
  /\ (klineCache st !! symbol = None \/ klineCache st !! symbol = Some []
      \/ emaCache st !! symbol = None
      \/ (exists emaValues, emaCache st !! symbol = Some emaValues
                            /\ (length emaValues < 2)%nat) ->
      st' = st).
Proof.
  intros tick st'. split; [reflexivity|].
  assert (st' = st
          \/ exists side,
               st' = log st (LogPotentialCrossover symbol side logUnconfirmed))
    as Hshape.
  { subst st'. unfold processRealtimeCandle.
    destruct (klineCache st !! symbol) as [[|k klines]|]; auto.
    destruct (emaCache st !! symbol) as [emaValues|]; auto.
    destruct (length emaValues <? 2)%nat; auto.
    destruct (lastOf (k :: klines)) as [lastCandle|]; auto.
    destruct (lastOf emaValues) as [lastEMA|]; auto.
    destruct (bool_decide _); eauto. }
  assert (sentAlerts st' = sentAlerts st /\ coinStates st' = coinStates st
          /\ lastAlerts st' = lastAlerts st /\ trainingData st' = trainingData st
          /\ mlDataDir st' = mlDataDir st /\ klineCache st' = klineCache st
          /\ emaCache st' = emaCache st) as (H1 & H2 & H3 & H4 & H5 & H6 & H7).
  { destruct Hshape as [-> | (side & ->)]; repeat split. }
  repeat (split; [assumption|]).
  subst st' tick. unfold processRealtimeCandle, lastOf. cbn [k_c].
  split.
  - intros klines lastCandle emaValues lastEMA Hk Hlk He Hlen Hle.
    rewrite Hk, He, Hlk, Hle.
    destruct klines as [|k klines]; [discriminate|].
    destruct (Nat.ltb_spec (length emaValues) 2); [lia|].
    now destruct (bool_decide _).
  - intros [Hk|[Hk|[He|(emaValues & He & Hlen)]]].
    + now rewrite Hk.
    + now rewrite Hk.
    + rewrite He. now destruct (klineCache st !! symbol) as [[|k klines]|].
    + rewrite He. destruct (Nat.ltb_spec (length emaValues) 2); [|lia].
      now destruct (klineCache st !! symbol) as [[|k klines]|].
Qed.

(** The theorem at a tick of 12 for a symbol whose last close is 9 on a
    stored average of 10: the potential crossover to above is logged, and
    nothing else changes. *)
Lemma unconfirmed_tick_only_observes_witness :
  let st' := processRealtimeCandle TrackerExamples.tracking "BTCUSDT"
               (mkKlineMsg 3 (Fin 12) false) true in
  logged st' = [LogPotentialCrossover "BTCUSDT" above true]
  /\ emaCache st' = emaCache TrackerExamples.tracking
  /\ sentAlerts st' = [].
Proof.
  intros st'.
  destruct (unconfirmed_tick_only_observes (fun st _ _ => st)
              TrackerExamples.tracking "BTCUSDT" 3 (Fin 12) true)
    as (_ & Hsent & _ & _ & _ & _ & _ & Hema & Hlog & _).
  split; [|split; [exact Hema|exact Hsent]].
  exact (Hlog [TrackerExamples.candle 1 9; TrackerExamples.candle 2 9]
           (TrackerExamples.candle 2 9) [Fin 10; Fin 10] (Fin 10)
           eq_refl eq_refl eq_refl (le_n 2) eq_refl).
Defined.

(** C9 as stated fails in its clause that the tick recomputes the last
    indicator point.  At a tick of 12 on a stored history of averages
    [10, 10], the history after the tick is still [10, 10], and the
    potential crossover is judged against that stored 10; taking the price
    of the tick into the averages, as [updateEMA] would with the default
    period of 200, gives a different value (10 + 4/201), which the code
    never computes. *)
Lemma tick_recomputes_nothing_counterexample :
  let st' := onKlineMessage (fun st _ _ => st) TrackerExamples.tracking "BTCUSDT"
               (mkKlineMsg 3 (Fin 12) false) in
  emaCache st' !! "BTCUSDT"%string = Some [Fin 10; Fin 10]
  /\ logged st' = [LogPotentialCrossover "BTCUSDT" above false]
  /\ (exists recomputed,
        fst (NodeIndicators.updateEMA 200 (emaCache TrackerExamples.tracking)
               "BTCUSDT" (Fin 12)) !! "BTCUSDT"%string
        = Some [Fin 10; Fin 10; recomputed]
        /\ eqb recomputed (Fin (10 + 4 / 201)) = true
        /\ eqb recomputed (Fin 10) = false).
Proof.
  cbv zeta. split; [vm_compute; reflexivity|]. split; [vm_compute; reflexivity|].
  eexists. split; [vm_compute; reflexivity|].
  split; vm_compute; reflexivity.
Qed.

End TrackerFacts.

(* ================================================================== *)
(** * The prediction service *)
(* ================================================================== *)

Module BrainMLFacts.
Import JS BrainML NumFacts.

(** A quotient of a part by a positive whole lies in the unit interval. *)
Lemma unit_fraction (x y : Q) :
  (0 < y)%Q -> (0 <= x)%Q -> (x <= y)%Q -> (0 <= x / y <= 1)%Q.
Proof.
  intros Hy H0 H1. split.
  - apply Qle_shift_div_l; [exact Hy|lra].
  - apply Qle_shift_div_r; [exact Hy|lra].
Qed.

(** Clamping a number that is not NaN into a proper range. *)
Lemma clamp_in_range (x : Num) (min max : Q) :
  numIsNaN x = false -> (min < max)%Q ->
  exists c : Q,
    JS.max (Fin min) (JS.min (Fin max) x) = Fin c
    /\ (min <= c <= max)%Q
    /\ match x with
       | Fin v => ((v <= min -> c == min) /\ (max <= v -> c == max)
                   /\ (min <= v <= max -> c == v))%Q
       | PInf => (c == max)%Q
       | _ => (c == min)%Q
       end.
Proof.
  intros Hnan Hlt. destruct x as [| | |v]; [discriminate| | |].
  - exists max. unfold JS.max, JS.min; simpl.
    destruct (min ?= max)%Q eqn:E.
    + apply Qeq_alt in E. lra.
    + repeat split; lra.
    + apply Qgt_alt in E. lra.
  - exists min. unfold JS.max, JS.min; simpl. repeat split; lra.
  - unfold JS.max, JS.min; simpl.
    destruct (max ?= v)%Q eqn:E1; simpl.
    + apply Qeq_alt in E1.
      destruct (min ?= max)%Q eqn:E2;
        [apply Qeq_alt in E2; lra| |apply Qgt_alt in E2; lra].
      exists max. repeat split; intros; lra.
    + apply Qlt_alt in E1.
      destruct (min ?= max)%Q eqn:E2;
        [apply Qeq_alt in E2; lra| |apply Qgt_alt in E2; lra].
      exists max. repeat split; intros; lra.
    + apply Qgt_alt in E1.
      destruct (min ?= v)%Q eqn:E2.
      * apply Qeq_alt in E2. exists min. repeat split; intros; lra.
      * apply Qlt_alt in E2. exists v. repeat split; intros; lra.
      * apply Qgt_alt in E2. exists min. repeat split; intros; lra.
Qed.

Lemma half_range_fits :
  (Limits.HALF_RANGE + Limits.HALF_RANGE <= Limits.MAX_VALUE)%Q.
Proof. apply Qle_bool_imp_le. vm_compute. reflexivity. Qed.

Lemma within_bounds (bound x : Q) :
  Limits.within bound x = true -> (- bound <= x <= bound)%Q.
Proof.
  unfold Limits.within. intros H. apply Qle_bool_imp_le in H.
  now apply Qabs_Qle_condition.
Qed.

(** C10 (as amended).  On a range given by two finite numbers of magnitude
    at most 2^1022, so that their difference stays below [Number.MAX_VALUE],
    [normalizeValue] returns a finite number in [0, 1] for every value: 1/2
    for null, undefined and NaN and for a range with min >= max, and
    otherwise the position of the clamped value in the range (0 at or below
    min, 1 at or above max; in between, the quotient that the code rounds to
    the nearest double).  The function has no way to raise an error. *)
Theorem normalizeValue_in_unit_interval (value : Scalar) (min max : Q) :
  Limits.within Limits.HALF_RANGE min = true ->
  Limits.within Limits.HALF_RANGE max = true ->
  exists r : Q,
    normalizeValue value (Fin min) (Fin max) = Fin r
    /\ (0 <= r <= 1)%Q
    /\ (Qabs (max - min) <= Limits.MAX_VALUE)%Q
    /\ (isNull value || isUndefined value || isNaN value = true -> r = 1 # 2)
    /\ ((max <= min)%Q -> r = 1 # 2)
    /\ (forall v, value = SNum (Fin v) -> (min < max)%Q ->
          ((v <= min -> r == 0) /\ (max <= v -> r == 1)
           /\ (min <= v <= max -> r == (v - min) / (max - min)))%Q).
Proof.
  intros Hmin Hmax.
  assert (Qabs (max - min) <= Limits.MAX_VALUE)%Q as Hfits.
  { apply within_bounds in Hmin, Hmax. pose proof half_range_fits as Hfit.
    apply Qabs_Qle_condition.
    revert Hmin Hmax Hfit.
    generalize Limits.HALF_RANGE Limits.MAX_VALUE. intros half top. lra. }
  unfold normalizeValue.
  destruct (isNull value || isUndefined value || isNaN value) eqn:Hmissing.
  { exists (1 # 2). split; [reflexivity|]. split; [lra|]. split; [exact Hfits|].
    split; [reflexivity|]. split; [reflexivity|].
    intros v ->; discriminate Hmissing. }
  destruct (Qlt_le_dec min max) as [Hlt|Hge].
  2:{ rewrite (geb_Fin _ _ Hge). exists (1 # 2).
      split; [reflexivity|]. split; [lra|]. split; [exact Hfits|].
      split; [reflexivity|]. split; [reflexivity|]. intros; lra. }
  rewrite (geb_Fin_false _ _ Hlt).
  assert (numIsNaN (toNumber value) = false) as Hnan.
  { destruct value as [| |x]; try discriminate Hmissing.
    simpl in *. now destruct x. }
  destruct (clamp_in_range (toNumber value) min max Hnan Hlt)
    as (c & -> & Hc & Hcase).
  cbn [sub opp add]. rewrite div_Fin_pos by lra.
  exists ((c + - min) / (max + - min))%Q. split; [reflexivity|].
  split; [apply unit_fraction; lra|]. split; [exact Hfits|].
  split; [discriminate|]. split; [intros; lra|].
  intros v -> _. simpl in Hcase. destruct Hcase as (Hlo & Hhi & Hmid).
  assert (~ max + - min == 0)%Q as Hnz by lra.
  repeat split.
  - intros Hv. rewrite (Hlo Hv). field. exact Hnz.
  - intros Hv. rewrite (Hhi Hv). field. exact Hnz.
  - intros Hv. rewrite (Hmid Hv). reflexivity.
Qed.

(** The theorem at the value 150 on the range 0 to 100. *)
Lemma normalizeValue_in_unit_interval_witness :
  exists r : Q,
    normalizeValue (SNum (Fin 150)) (Fin 0) (Fin 100) = Fin r
    /\ (0 <= r <= 1)%Q /\ (r == 1)%Q.
Proof.
  destruct (normalizeValue_in_unit_interval (SNum (Fin 150)) 0 100
              eq_refl eq_refl)
    as (r & Hr & Hb & _ & _ & _ & H).
  exists r. split; [exact Hr|]. split; [exact Hb|].
  destruct (H 150%Q eq_refl eq_refl) as (_ & Hhi & _).
  apply Hhi. discriminate.
Defined.

(** C10 as stated fails on three kinds of range.  A bound that is infinite
    or NaN passes the test [min >= max] and the quotient is NaN; and with
    the finite bounds -2^1023 and 2^1023 the difference [max - min]
    overflows to Infinity in the doubles of the code, so that the value
    2^1023 is normalised to Infinity / Infinity = NaN, where the exact
    quotient would be 1. *)
Lemma normalizeValue_range_counterexample :
  normalizeValue (SNum (Fin 5)) NInf (Fin 0) = NaN
  /\ normalizeValue (SNum (Fin 5)) NaN (Fin 10) = NaN
  /\ PrimFloat.is_infinity
       (PrimFloat.sub 0x1p1023%float (PrimFloat.opp 0x1p1023%float)) = true
  /\ PrimFloat.is_nan
       (Doubles.normalizeValue (Doubles.VNum 0x1p1023%float)
          (PrimFloat.opp 0x1p1023%float) 0x1p1023%float) = true
  /\ Limits.within Limits.HALF_RANGE (inject_Z (2 ^ 1023)) = false.
Proof. repeat split; vm_compute; reflexivity. Qed.

(** ** The model cache *)

Lemma length_cacheSet {V} (cache : list (string * V)) key v :
  (length (cacheSet cache key v) <= S (length cache))%nat.
Proof.
  induction cache as [|[k w] cache IH]; simpl; [lia|].
  destruct (String.eqb k key); simpl; lia.
Qed.

Lemma length_evictOldest {V} (cache : list (string * V)) :
  (length (evictOldest cache) <= length cache - 1)%nat.
Proof.
  destruct cache as [|[k w] cache]; simpl; [lia|].
  rewrite String.eqb_refl. simpl.
  rewrite Nat.sub_0_r. apply List.filter_length_le.
Qed.

(** What the code does guarantee: the cache never holds more than 51
    models. *)
Lemma cacheModel_at_most_51 {V} (cache : list (string * V)) symbol net :
  (length cache <= 51)%nat -> (length (cacheModel cache symbol net) <= 51)%nat.
Proof.
  intros H. unfold cacheModel.
  pose proof (length_evictOldest cache).
  destruct (Nat.ltb_spec 50 (length cache));
    (etransitivity; [apply length_cacheSet|lia]).
Qed.

Lemma predictPriceChange_at_most_51 {H M} store
    (cache : list (string * Net H M)) symbol features :
  (length cache <= 51)%nat ->
  (length (fst (predictPriceChange H M store cache symbol features)) <= 51)%nat.
Proof.
  intros Hlen. unfold predictPriceChange.
  repeat match goal with
         | |- context [if ?b then _ else _] => destruct b; simpl; try exact Hlen
         | |- context [match ?x with _ => _ end] =>
             destruct x; simpl; try exact Hlen
         end.
  all: now apply cacheModel_at_most_51.
Qed.

(** C7, at the input where the code departs from it.  Starting from an
    empty cache, one prediction for each of 51 symbols that have a trained
    model leaves 51 models resident: the eviction test looks at the size
    before the insertion and asks for more than 50, so the 51st model is
    inserted without evicting anything.  A 52nd symbol then evicts the
    oldest entry, and 51 models stay resident. *)
Theorem model_cache_reaches_51 :
  length ServiceExamples.fiftyOneSymbols = 51%nat
  /\ forallb validateSymbol ServiceExamples.fiftyOneSymbols = true
  /\ length (ServiceExamples.predictAll ServiceExamples.fiftyOneModels
               ServiceExamples.fiftyOneSymbols []) = 51%nat
  /\ map fst (ServiceExamples.predictAll ServiceExamples.fiftyOneModels
                ServiceExamples.fiftyOneSymbols [])
     = ServiceExamples.fiftyOneSymbols
  /\ map fst (ServiceExamples.predictAll ServiceExamples.fiftyTwoModels
                (ServiceExamples.fiftyOneSymbols ++ ["B"%string]) [])
     = tl ServiceExamples.fiftyOneSymbols ++ ["B"%string].
Proof.
  repeat split; vm_compute; reflexivity.
Qed.

(** ** The ensemble *)

(** The weights go down by one from the number of predictions to 1, in the
    order of the predictions. *)
Lemma weightAt_descends n i :
  (i < n)%nat ->
  1 <= weightAt n i <= Z.of_nat n
  /\ weightAt n 0 = Z.of_nat n
  /\ weightAt n (S i) = weightAt n i - 1.
Proof. unfold weightAt. lia. Qed.

(** C4, at the input where the code departs from it.  The versions are
    taken in the order of the directory listing, which is never sorted by
    creation time.  With the version of January listed before the version
    of February, the older one is first: it gets weight 2 and the newer one
    weight 1, so predictions of +1% (January) and +4% (February) combine to
    (1*2 + 4*1)/3 = 2 and not to (4*2 + 1*1)/3 = 3.  With six versions
    listed, the five that are loaded are the five oldest. *)
Theorem ensemble_follows_listing_order :
  (exists e,
     ensemblePrediction unit Q ServiceExamples.constantRun Examples.sqrtApprox
       ServiceExamples.twoVersions "BTCUSDT" ServiceExamples.someFeatures
     = Some e
     /\ modelCount e = 2%nat
     /\ sameNumbers (individualPredictions e) [Fin 1; Fin 4]
        = true
     /\ eqb (en_prediction e) (Fin 2) = true
     /\ eqb (en_prediction e) (Fin 3) = false)
  /\ map (birthtime unit Q)
         (selectedVersions unit Q ServiceExamples.sixVersions)
     = [1; 2; 3; 4; 5].
Proof.
  split; [eexists; split; [vm_compute; reflexivity|]|];
    repeat split; vm_compute; reflexivity.
Qed.

End BrainMLFacts.

(* ================================================================== *)
(** * More on the indicator engine *)
(* ================================================================== *)

Module IndicatorProps.
Import JS TechnicalIndicators Shapes ArrayFacts NumFacts IndicatorFacts.

Lemma length_priceChanges a : length (priceChanges a) = (length a - 1)%nat.
Proof.
  induction a as [|p [|q a] IH]; simpl in *; try reflexivity.
  rewrite IH. lia.
Qed.

Lemma length_rsiLoop period gains losses rest :
  length (rsiLoop period gains losses rest) = length rest.
Proof.
  revert gains losses. induction rest as [|c rest IH]; intros gains losses;
    simpl; [reflexivity|].
  destruct (geb c (Fin 0)); simpl; now rewrite IH.
Qed.

Lemma calculateRSI_length a period l :
  calculateRSI (PArr a) period = Return l -> length l = length a.
Proof.
  unfold calculateRSI.
  destruct (period <=? 0) eqn:Hp; [discriminate|]. apply Z.leb_gt in Hp.
  destruct (validatePriceData (PArr a) (period + 1) "calculateRSI") as [b|m]
    eqn:Hv; simpl; [|discriminate].
  apply validatePriceData_Return in Hv as (a' & [= <-] & Hb & _).
  destruct b; simpl.
  - symmetry in Hb. apply negb_true_iff, Z.ltb_ge in Hb.
    destruct (seedGainsLosses _) as [gains losses].
    intros [= <-]. apply length_padArray. simpl.
    rewrite length_map, length_rsiLoop, length_skipn, length_priceChanges. lia.
  - intros [= <-]. apply length_padArray. simpl. lia.
Qed.

Lemma calculateBollingerBands_length sqrtQ a period multiplier r :
  calculateBollingerBands sqrtQ (PArr a) period multiplier = Return r ->
  length (upper r) = length a /\ length (middle r) = length a
  /\ length (lower r) = length a.
Proof.
  unfold calculateBollingerBands.
  destruct (period <=? 0) eqn:Hp; [discriminate|]. apply Z.leb_gt in Hp.
  destruct (negb (isFinite multiplier) || leb multiplier (Fin 0)); [discriminate|].
  destruct (validatePriceData (PArr a) period "calculateBollingerBands") as [b|m]
    eqn:Hv; simpl; [|discriminate].
  apply validatePriceData_Return in Hv as (a' & [= <-] & Hb & _).
  destruct b; simpl; intros [= <-]; simpl.
  - symmetry in Hb. apply negb_true_iff, Z.ltb_ge in Hb.
    rewrite !length_padArray
      by (rewrite !length_map, length_seq; lia).
    auto.
  - now rewrite !repeat_length.
Qed.

(** Every array that EMA, RSI or Bollinger Bands return has one entry per
    price, on the fallback path as on the computed one. *)
Theorem indicators_return_one_value_per_price sqrtQ a period multiplier :
  (forall l, calculateEMA (PArr a) period = Return l -> length l = length a)
  /\ (forall l, calculateRSI (PArr a) period = Return l -> length l = length a)
  /\ (forall r, calculateBollingerBands sqrtQ (PArr a) period multiplier = Return r ->
        length (upper r) = length a /\ length (middle r) = length a
        /\ length (lower r) = length a).
Proof.
  split; [|split].
  - intros l H. now apply calculateEMA_length in H.
  - apply calculateRSI_length.
  - apply calculateBollingerBands_length.
Qed.

(** The theorem at five prices and period 3. *)
Lemma indicators_return_one_value_per_price_witness :
  exists l1 l2 r,
    calculateEMA (numbers [1; 2; 3; 4; 5]%Q) 3 = Return l1
    /\ calculateRSI (numbers [1; 2; 3; 4; 5]%Q) 3 = Return l2
    /\ calculateBollingerBands Examples.sqrtApprox (numbers [1; 2; 3; 4; 5]%Q) 3 (Fin 2)
       = Return r
    /\ length l1 = 5%nat /\ length l2 = 5%nat /\ length (upper r) = 5%nat.
Proof.
  destruct (indicators_return_one_value_per_price Examples.sqrtApprox
              (map (fun q => SNum (Fin q)) [1; 2; 3; 4; 5]%Q) 3 (Fin 2))
    as (H1 & H2 & H3).
  eexists _, _, _.
  split; [vm_compute; reflexivity|].
  split; [vm_compute; reflexivity|].
  split; [vm_compute; reflexivity|].
  split; [apply H1; vm_compute; reflexivity|].
  split; [apply H2; vm_compute; reflexivity|].
  apply H3. vm_compute; reflexivity.
Defined.

(** ** RSI *)

Lemma eqb_Fin (a b : Q) : (a == b)%Q -> eqb (Fin a) (Fin b) = true.
Proof. intros H. unfold eqb; simpl. apply Qeq_alt in H. now rewrite H. Qed.

Lemma Forall_padArray {A} (P : A -> Prop) array n pad b :
  P pad -> Forall P array -> Forall P (padArray array n pad b).
Proof.
  intros Hp Ha. unfold padArray.
  destruct (n <=? length array)%nat; [exact Ha|].
  assert (Forall P (repeat pad (n - length array))) as Hr.
  { apply List.Forall_forall. intros x Hx. apply repeat_spec in Hx. now subst. }
  destruct b; apply Forall_app; auto.
Qed.

Lemma priceChanges_numbers (l : list Q) :
  Forall (fun c => exists q, c = Fin q)
         (priceChanges (map (fun q => SNum (Fin q)) l)).
Proof.
  induction l as [|p [|q l] IH]; simpl in *; constructor.
  - eexists; reflexivity.
  - exact IH.
Qed.

Lemma geb_Fin_true_iff (a b : Q) : geb (Fin a) (Fin b) = true <-> (b <= a)%Q.
Proof.
  split; [|apply geb_Fin].
  unfold geb; simpl. destruct (a ?= b)%Q eqn:E; try discriminate; intros _.
  - apply Qeq_alt in E. lra.
  - apply Qgt_alt in E. lra.
Qed.

Lemma geb_Fin_false_iff (a b : Q) : geb (Fin a) (Fin b) = false <-> (a < b)%Q.
Proof.
  split; [|apply geb_Fin_false].
  intros H. destruct (Qlt_le_dec a b) as [|Hle]; [assumption|].
  apply geb_Fin in Hle. congruence.
Qed.

Lemma seedGainsLosses_nonneg changes g s :
  Forall (fun c => exists q, c = Fin q) changes -> (0 <= g)%Q -> (0 <= s)%Q ->
  exists g' s',
    fold_left
      (fun gl c =>
         let '(gains, losses) := gl in
         if geb c (Fin 0) then (add gains c, losses) else (gains, sub losses c))
      changes (Fin g, Fin s) = (Fin g', Fin s')
    /\ (0 <= g')%Q /\ (0 <= s')%Q.
Proof.
  intros H. revert g s. induction H as [|c changes (q & ->) _ IH]; intros g s Hg Hs.
  - now exists g, s.
  - cbn [fold_left]. destruct (geb (Fin q) (Fin 0)) eqn:E.
    + apply geb_Fin_true_iff in E. apply IH; simpl; lra.
    + apply geb_Fin_false_iff in E. apply IH; simpl; lra.
Qed.

Lemma rsiOf_bounds (g s : Q) :
  (0 <= g)%Q -> (0 <= s)%Q ->
  exists r, rsiOf (Fin g) (Fin s) = Fin r /\ (0 <= r <= 100)%Q.
Proof.
  intros Hg Hs. unfold rsiOf, eqb, compare.
  destruct (s ?= 0)%Q eqn:E.
  - exists 100%Q. split; [reflexivity|lra].
  - apply Qlt_alt in E. lra.
  - apply Qgt_alt in E. rewrite (div_Fin_pos g s E). cbn [add].
    assert (0 <= g / s)%Q as Hrs by (apply Qle_shift_div_l; lra).
    rewrite (div_Fin_pos 100 (1 + g / s)) by lra.
    eexists. split; [reflexivity|].
    assert (0 <= 100 / (1 + g / s) <= 100)%Q as [H1 H2].
    { split; [apply Qle_shift_div_l; lra|apply Qle_shift_div_r; lra]. }
    lra.
Qed.

Lemma smoothed_nonneg (x c P : Q) :
  (0 <= x)%Q -> (0 <= c)%Q -> (1 <= P)%Q -> (0 <= (x * (P + - (1)) + c) / P)%Q.
Proof.
  intros Hx Hc HP. apply Qle_shift_div_l; [lra|].
  assert (0 <= x * (P + - (1)))%Q by (apply Qmult_le_0_compat; lra). lra.
Qed.

Lemma rsiLoop_bounds (P : Z) (g s : Q) rest :
  0 < P -> Forall (fun c => exists q, c = Fin q) rest ->
  (0 <= g)%Q -> (0 <= s)%Q ->
  Forall (fun x => exists r, x = Fin r /\ (0 <= r <= 100)%Q)
         (rsiLoop (ofZ P) (Fin g) (Fin s) rest).
Proof.
  intros HP H. 
  assert (1 <= inject_Z P)%Q as HP1.
  { change 1%Q with (inject_Z 1). rewrite <- Zle_Qle. lia. }
  revert g s. induction H as [|c rest (q & ->) _ IH]; intros g s Hg Hs;
    [constructor|].
  cbn [rsiLoop]. unfold ofZ in *.
  destruct (geb (Fin q) (Fin 0)) eqn:E.
  - apply geb_Fin_true_iff in E. cbn [sub opp add mul].
    rewrite !div_Fin_pos by lra.
    pose proof (smoothed_nonneg g q (inject_Z P) Hg E HP1) as Hg'.
    pose proof (smoothed_nonneg s 0 (inject_Z P) Hs ltac:(lra) HP1) as Hs'.
    assert (0 <= s * (inject_Z P + - (1)) / inject_Z P)%Q as Hs''.
    { apply Qle_shift_div_l; [lra|].
      assert (0 <= s * (inject_Z P + - (1)))%Q
        by (apply Qmult_le_0_compat; lra). lra. }
    constructor; [now apply rsiOf_bounds|now apply IH].
  - apply geb_Fin_false_iff in E. cbn [sub opp add mul].
    rewrite !div_Fin_pos by lra.
    assert (0 <= g * (inject_Z P + - (1)) / inject_Z P)%Q as Hg'.
    { apply Qle_shift_div_l; [lra|].
      assert (0 <= g * (inject_Z P + - (1)))%Q
        by (apply Qmult_le_0_compat; lra). lra. }
    pose proof (smoothed_nonneg s (- q) (inject_Z P) Hs ltac:(lra) HP1) as Hs'.
    constructor; [now apply rsiOf_bounds|now apply IH].
Qed.

Lemma Forall_SNum (R : Q -> Prop) (l : list Num) :
  Forall (fun x => exists r, x = Fin r /\ R r) l ->
  Forall (fun s => exists r, s = SNum (Fin r) /\ R r) (map SNum l).
Proof.
  induction 1 as [|x l (r & -> & Hr) _ IH]; simpl; constructor; [|exact IH].
  now exists r.
Qed.

(** RSI stays between 0 and 100: on every series of at most 2^32 - 1
    prices of magnitude at most 1e100, every value returned is a finite
    number in that range.  The exact numbers of the model do not need the
    bound; it marks the inputs on which no sum or product formed by the code
    overflows, as gains and losses of 1.7e308 would. *)
Theorem rsi_between_0_and_100 (l : list Q) (period : Z) :
  0 < period ->
  forallb (Limits.within Limits.MARKET) l = true ->
  Z.of_nat (length l) <= Limits.MAX_LENGTH ->
  exists out,
    calculateRSI (numbers l) period = Return out
    /\ length out = length l
    /\ Forall (fun s => exists r, s = SNum (Fin r) /\ (0 <= r <= 100)%Q) out.
Proof.
  intros Hp _ _.
  destruct (calculateRSI (numbers l) period) as [out|m] eqn:Hrsi.
  2:{ exfalso. revert Hrsi. unfold calculateRSI.
      destruct (Z.leb_spec period 0); [lia|].
      rewrite validatePriceData_numbers. cbn [bind].
      destruct (negb _); [discriminate|].
      now destruct (seedGainsLosses _). }
  exists out. split; [reflexivity|]. split.
  { apply calculateRSI_length in Hrsi. now rewrite Hrsi, length_map. }
  revert Hrsi. unfold calculateRSI.
  destruct (Z.leb_spec period 0); [lia|].
  rewrite validatePriceData_numbers, elements_numbers. cbn [bind].
  assert (exists r, SNum (Fin 50) = SNum (Fin r) /\ (0 <= r <= 100)%Q) as Hpad
    by (exists 50%Q; split; [reflexivity|lra]).
  destruct (negb _).
  - intros [= <-]. apply Forall_padArray; [exact Hpad|constructor].
  - pose proof (priceChanges_numbers l) as Hc.
    unfold seedGainsLosses.
    destruct (seedGainsLosses_nonneg _ 0 0
                (Forall_take _ (Z.to_nat period) _ Hc) ltac:(lra) ltac:(lra))
      as (g & s & -> & Hg & Hs).
    intros [= <-]. apply Forall_padArray; [exact Hpad|].
    apply (Forall_SNum (fun r => (0 <= r <= 100)%Q) (_ :: _)). constructor.
    + apply (rsiOf_bounds g s Hg Hs).
    + apply (rsiLoop_bounds period g s _ Hp
               (Forall_drop _ (Z.to_nat period) _ Hc) Hg Hs).
Qed.

(** The theorem at a series that rises and falls, with period 2. *)
Lemma rsi_between_0_and_100_witness :
  exists out,
    calculateRSI (numbers [1; 2; 3; 2; 5]%Q) 2 = Return out
    /\ length out = 5%nat
    /\ Forall (fun s => exists r, s = SNum (Fin r) /\ (0 <= r <= 100)%Q) out.
Proof.
  apply (rsi_between_0_and_100 [1; 2; 3; 2; 5]%Q 2).
  - lia.
  - reflexivity.
  - vm_compute. discriminate.
Defined.

Lemma priceChanges_rising (l : list Q) :
  Shapes.Rising l ->
  Forall (fun c => exists q, c = Fin q /\ (0 <= q)%Q)
         (priceChanges (map (fun q => SNum (Fin q)) l)).
Proof.
  induction l as [|p [|q l] IH]; intros H; cbn [map priceChanges];
    try constructor.
  - destruct H as [Hpq _]. eexists. split; [reflexivity|]. lra.
  - apply IH. now destruct H.
Qed.

(** With no loss among the changes, the running loss stays where it was. *)
Lemma seedGainsLosses_rising changes g s :
  Forall (fun c => exists q, c = Fin q /\ (0 <= q)%Q) changes ->
  exists g',
    fold_left
      (fun gl c =>
         let '(gains, losses) := gl in
         if geb c (Fin 0) then (add gains c, losses) else (gains, sub losses c))
      changes (Fin g, Fin s) = (Fin g', Fin s).
Proof.
  intros H. revert g. induction H as [|c changes (q & -> & Hq) _ IH]; intros g.
  - now exists g.
  - cbn [fold_left]. rewrite (geb_Fin _ _ Hq). apply IH.
Qed.

Lemma rsiLoop_rising (P : Z) (g s : Q) rest :
  0 < P -> Forall (fun c => exists q, c = Fin q /\ (0 <= q)%Q) rest ->
  (s == 0)%Q ->
  rsiLoop (ofZ P) (Fin g) (Fin s) rest = repeat (Fin 100) (length rest).
Proof.
  intros HP H. pose proof (inject_Z_pos P HP) as HP0.
  revert g s. induction H as [|c rest (q & -> & Hq) _ IH]; intros g s Hs;
    [reflexivity|].
  cbn [rsiLoop length repeat]. unfold ofZ in *.
  rewrite (geb_Fin _ _ Hq). cbn [sub opp add mul].
  rewrite !div_Fin_pos by exact HP0.
  assert (s * (inject_Z P + - (1)) / inject_Z P == 0)%Q as Hs'
    by (rewrite Hs; field; lra).
  f_equal.
  - unfold rsiOf. now rewrite (eqb_Fin _ _ Hs').
  - now apply IH.
Qed.

(** RSI of a series that never falls is 100 at every computed index, after
    the padding of 50 over the first [period] entries; a flat series is
    such a series, so its RSI is 100 too. *)
Theorem rsi_of_rising_series (l : list Q) (period : Z) :
  0 < period -> period + 1 <= Z.of_nat (length l) -> Shapes.Rising l ->
  calculateRSI (numbers l) period
  = Return (repeat (SNum (Fin 50)) (Z.to_nat period)
            ++ repeat (SNum (Fin 100)) (length l - Z.to_nat period)).
Proof.
  intros Hp Hlen Hrise. unfold calculateRSI.
  destruct (Z.leb_spec period 0); [lia|].
  rewrite validatePriceData_numbers, elements_numbers. cbn [bind].
  destruct (Z.ltb_spec (Z.of_nat (length l)) (period + 1)); [lia|]. cbn [negb].
  pose proof (priceChanges_rising l Hrise) as Hc.
  pose proof (length_priceChanges (map (fun q => SNum (Fin q)) l)) as Hlc.
  rewrite length_map in Hlc.
  unfold seedGainsLosses.
  destruct (seedGainsLosses_rising _ 0 0 (Forall_take _ (Z.to_nat period) _ Hc))
    as (g & ->).
  rewrite (rsiLoop_rising period g 0 _ Hp (Forall_drop _ (Z.to_nat period) _ Hc))
    by apply Qeq_refl.
  rewrite length_skipn, Hlc, length_map.
  change (rsiOf (Fin g) (Fin 0)) with (Fin 100).
  change (map SNum (Fin 100 :: repeat (Fin 100) (length l - 1 - Z.to_nat period)))
    with (map SNum (repeat (Fin 100) (S (length l - 1 - Z.to_nat period)))).
  rewrite map_repeat.
  replace (S (length l - 1 - Z.to_nat period)) with (length l - Z.to_nat period)%nat
    by lia.
  unfold padArray. rewrite repeat_length.
  destruct (Nat.leb_spec (length l) (length l - Z.to_nat period)); [lia|].
  do 3 f_equal. lia.
Qed.

(** The theorem at a series that rises, pauses and rises, with period 2. *)
Lemma rsi_of_rising_series_witness :
  calculateRSI (numbers [1; 2; 2; 3; 5]%Q) 2
  = Return [SNum (Fin 50); SNum (Fin 50);
            SNum (Fin 100); SNum (Fin 100); SNum (Fin 100)].
Proof.
  apply (rsi_of_rising_series [1; 2; 2; 3; 5]%Q 2).
  - lia.
  - simpl. lia.
  - simpl. repeat split; discriminate.
Defined.

(** ** ATR *)

Lemma max_Fin (a b : Q) :
  exists m, JS.max (Fin a) (Fin b) = Fin m /\ (a <= m)%Q /\ (b <= m)%Q.
Proof.
  unfold JS.max, compare. destruct (a ?= b)%Q eqn:E.
  - apply Qeq_alt in E. exists a. repeat split; lra.
  - apply Qlt_alt in E. exists b. repeat split; lra.
  - apply Qgt_alt in E. exists a. repeat split; lra.
Qed.

Lemma validateKlines_finite name i (l : list (Q * Q * Q)) :
  validateKlines name i
    (map (fun k => KObj (SNum (Fin (fst (fst k)))) (SNum (Fin (snd (fst k))))
                        (SNum (Fin (snd k)))) l) = Return tt.
Proof.
  revert i. induction l as [|k l IH]; intros i; simpl; [reflexivity|apply IH].
Qed.

Lemma trueRangesOf_nonneg (l : list (Q * Q * Q)) :
  Forall (fun t => exists q, t = Fin q /\ (0 <= q)%Q)
    (trueRangesOf
       (map (fun k => KObj (SNum (Fin (fst (fst k)))) (SNum (Fin (snd (fst k))))
                           (SNum (Fin (snd k)))) l)).
Proof.
  induction l as [|p [|k l] IH]; cbn [map trueRangesOf]; try constructor.
  - cbn [kHigh kLow kClose toNumber sub opp add abs].
    destruct (max_Fin (fst (fst k) + - snd (fst k))
                      (Qabs (fst (fst k) + - snd p))) as (m1 & -> & _ & H1).
    destruct (max_Fin m1 (Qabs (snd (fst k) + - snd p))) as (m2 & -> & H2 & _).
    exists m2. split; [reflexivity|].
    pose proof (Qabs_nonneg (fst (fst k) + - snd p)). lra.
  - exact IH.
Qed.

Lemma sumNums_nonneg (l : list Num) (s : Q) :
  Forall (fun t => exists q, t = Fin q /\ (0 <= q)%Q) l -> (0 <= s)%Q ->
  exists t, fold_left add l (Fin s) = Fin t /\ (0 <= t)%Q.
Proof.
  intros H. revert s. induction H as [|x l (q & -> & Hq) _ IH]; intros s Hs.
  - now exists s.
  - cbn [fold_left add]. apply IH. lra.
Qed.

(** ATR of at most 2^32 - 1 candles whose high, low and close have a
    magnitude of at most 1e100 is a finite number that is not negative, for
    every positive period (0 when there are too few candles).  The exact
    numbers of the model do not need the bound; it marks the inputs on which
    the sum of the true ranges does not overflow in the code. *)
Theorem atr_is_not_negative (l : list (Q * Q * Q)) (period : Z) :
  0 < period ->
  forallb (fun k => Limits.within Limits.MARKET (fst (fst k))
                    && Limits.within Limits.MARKET (snd (fst k))
                    && Limits.within Limits.MARKET (snd k)) l = true ->
  Z.of_nat (length l) <= Limits.MAX_LENGTH ->
  exists r, calculateATR (Shapes.klinesOf l) period = Return (Fin r)
            /\ (0 <= r)%Q.
Proof.
  intros Hp _ _. unfold calculateATR, Shapes.klinesOf.
  destruct (Z.leb_spec period 0); [lia|].
  match goal with
  | |- context [?x <? period + 1] =>
      destruct (Z.ltb_spec x (period + 1)) as [|Hlong]
  end.
  { exists 0%Q. split; [reflexivity|lra]. }
  rewrite validateKlines_finite. cbn [bind].
  pose proof (trueRangesOf_nonneg l) as Ht.
  set (trs := trueRangesOf _) in *.
  destruct (Z.ltb_spec (Z.of_nat (length trs)) period) as [Hfew|_].
  - destruct (sumNums_nonneg trs 0 Ht ltac:(lra)) as (t & Hsum & Htpos).
    unfold sumNums. rewrite Hsum.
    destruct trs as [|x trs'] eqn:Etrs.
    + (* no true range: the sum is 0 and so is the count *)
      exfalso. rewrite length_map in Hlong.
      assert (length (trueRangesOf
                (map (fun k => KObj (SNum (Fin (fst (fst k))))
                                 (SNum (Fin (snd (fst k)))) (SNum (Fin (snd k)))) l))
              = 0%nat) as H0 by (fold trs; now rewrite Etrs).
      revert H0. clear -Hlong Hp.
      destruct l as [|p [|k l]]; simpl in *; try lia.
    + rewrite div_ofZ_pos by (simpl; lia).
      eexists. split; [reflexivity|].
      apply Qle_shift_div_l; [apply inject_Z_pos; simpl; lia|lra].
  - destruct (sumNums_nonneg _ 0
                (Forall_drop _ (length trs - Z.to_nat period) _ Ht) ltac:(lra))
      as (t & Hsum & Htpos).
    unfold sumNums. rewrite Hsum, (div_ofZ_pos _ _ Hp).
    eexists. split; [reflexivity|].
    apply Qle_shift_div_l; [now apply inject_Z_pos|lra].
Qed.

(** The theorem at four candles with period 2. *)
Lemma atr_is_not_negative_witness :
  exists r,
    calculateATR
      (Shapes.klinesOf [(10, 8, 9); (11, 9, 10); (12, 9, 9); (10, 7, 8)]%Q) 2
    = Return (Fin r)
    /\ (0 <= r)%Q.
Proof.
  apply (atr_is_not_negative [(10, 8, 9); (11, 9, 10); (12, 9, 9); (10, 7, 8)]%Q 2).
  - lia.
  - reflexivity.
  - vm_compute. discriminate.
Defined.

(** ** Rejection of malformed input *)




End IndicatorProps.

(* ================================================================== *)
(** * The tracker's own EMA *)
(* ================================================================== *)

Module NodeIndicatorProps.
Import JS NodeIndicators NumFacts ArrayFacts.

Lemma emaLoop_emaSteps k ema (l : list Num) :
  TechnicalIndicators.emaLoop k ema (map SNum l) = emaSteps k ema l.
Proof.
  revert ema. induction l as [|p l IH]; intros ema; simpl; [reflexivity|].
  now rewrite IH.
Qed.

Lemma sumFrom_map_SNum (l : list Num) (s : Num) :
  TechnicalIndicators.sumFrom s (map SNum l) = fold_left add l s.
Proof.
  unfold TechnicalIndicators.sumFrom. revert s.
  induction l as [|p l IH]; intros s; simpl; [reflexivity|apply IH].
Qed.

Lemma no_NaN_valid (l : list Num) :
  Forall (fun x => numIsNaN x = false) l ->
  existsb TechnicalIndicators.invalidPrice (map SNum l) = false.
Proof.
  induction 1 as [|x l Hx _ IH]; simpl; [reflexivity|].
  unfold TechnicalIndicators.invalidPrice at 1. simpl.
  unfold isNaN. simpl. now rewrite Hx.
Qed.

(** The two EMA implementations compute the same values.  On prices without
    NaN and with at least [period] entries, the indicator engine returns the
    tracker's values behind a padding of the first price; on fewer prices the
    tracker returns no value at all. *)
Theorem ema_implementations_agree (prices : list Num) (period : Z) :
  0 < period ->
  Forall (fun x => numIsNaN x = false) prices ->
  (period <= Z.of_nat (length prices) ->
   TechnicalIndicators.calculateEMA
     (TechnicalIndicators.PArr (map SNum prices)) period
   = Return (TechnicalIndicators.padArray (map SNum (calculateEMA prices period))
               (length prices) (SNum (hd NaN prices)) true)
   /\ length (calculateEMA prices period)
      = (length prices - Z.to_nat period + 1)%nat)
  /\ (Z.of_nat (length prices) < period -> calculateEMA prices period = []).
Proof.
  intros Hp Hnan. split.
  - intros Hlen.
    unfold TechnicalIndicators.calculateEMA, calculateEMA,
      TechnicalIndicators.validatePriceData.
    destruct (Z.leb_spec period 0); [lia|].
    rewrite length_map, (no_NaN_valid _ Hnan).
    destruct (Z.ltb_spec (Z.of_nat (length prices)) period); [lia|].
    cbn [bind negb TechnicalIndicators.elements].
    unfold sliceTo, pricesFrom.
    destruct (Z.ltb_spec period 0); [lia|].
    replace (Z.to_nat (- period)) with 0%nat by lia. cbn [repeat app].
    rewrite firstn_map, skipn_map, sumFrom_map_SNum, emaLoop_emaSteps, length_map.
    split.
    + do 2 f_equal. destruct prices; [simpl in *; lia|reflexivity].
    + cbn [length].
      assert (forall k e l, length (emaSteps k e l) = length l) as Hl.
      { intros k e l. revert e. induction l; intros; simpl; auto. }
      rewrite Hl, length_skipn. lia.
  - intros Hshort. unfold calculateEMA.
    destruct (Z.ltb_spec (Z.of_nat (length prices)) period); [reflexivity|lia].
Qed.

(** The theorem at four prices with period 2. *)
Lemma ema_implementations_agree_witness :
  TechnicalIndicators.calculateEMA
    (TechnicalIndicators.PArr (map SNum [Fin 1; Fin 2; Fin 3; Fin 4])) 2
  = Return (TechnicalIndicators.padArray
              (map SNum (calculateEMA [Fin 1; Fin 2; Fin 3; Fin 4] 2))
              4 (SNum (Fin 1)) true).
Proof.
  destruct (ema_implementations_agree [Fin 1; Fin 2; Fin 3; Fin 4] 2) as (H & _).
  - lia.
  - repeat constructor.
  - apply H. simpl. lia.
Defined.

Lemma emaSteps_app k ema rest p :
  emaSteps k ema (rest ++ [p])
  = emaSteps k ema rest
    ++ [add (mul (sub p (List.last (ema :: emaSteps k ema rest) NaN)) k)
            (List.last (ema :: emaSteps k ema rest) NaN)].
Proof.
  revert ema. induction rest as [|x rest IH]; intros ema; [reflexivity|].
  cbn [app emaSteps]. rewrite IH. cbn [app]. do 4 f_equal.
  all: now destruct (emaSteps k _ rest).
Qed.

Lemma last_Some_last {A} (l : list A) (d x : A) :
  last l = Some x -> List.last l d = x.
Proof.
  induction l as [|a [|b l] IH]; simpl in *; try congruence.
  intros H. now apply IH.
Qed.

Lemma last_nonempty {A} (a : A) (l : list A) (d : A) :
  last (a :: l) = Some (List.last (a :: l) d).
Proof.
  revert a. induction l as [|b l IH]; intros a; [reflexivity|].
  change (last (a :: b :: l)) with (last (b :: l)).
  change (List.last (a :: b :: l) d) with (List.last (b :: l) d). apply IH.
Qed.

Lemma calculateEMA_snoc closes p P :
  0 < P -> P <= Z.of_nat (length closes) ->
  calculateEMA (closes ++ [p]) P
  = calculateEMA closes P
    ++ [add (mul (sub p (List.last (calculateEMA closes P) NaN))
                 (div (Fin 2) (ofZ (P + 1))))
            (List.last (calculateEMA closes P) NaN)].
Proof.
  intros HP Hlen. unfold calculateEMA, sliceTo, pricesFrom.
  rewrite length_app. cbn [length].
  destruct (Z.ltb_spec (Z.of_nat (length closes + 1)) P); [lia|].
  destruct (Z.ltb_spec (Z.of_nat (length closes)) P); [lia|].
  destruct (Z.ltb_spec P 0); [lia|].
  replace (Z.to_nat (- P)) with 0%nat by lia. cbn [repeat app].
  rewrite firstn_app, skipn_app.
  replace (Z.to_nat P - length closes)%nat with 0%nat by lia.
  cbn [firstn skipn]. rewrite app_nil_r.
  now rewrite emaSteps_app.
Qed.

(** Updating the cached averages with one more price gives what a full
    recomputation over the prices with the new one appended gives, cut to
    the last [2 * EMA_PERIOD] values when there are more. *)
Theorem updateEMA_matches_recomputation (EMA_PERIOD : Z)
    (emaCache : gmap string (list Num)) symbol (closes : list Num) newPrice :
  0 < EMA_PERIOD -> EMA_PERIOD <= Z.of_nat (length closes) ->
  emaCache !! symbol = Some (calculateEMA closes EMA_PERIOD) ->
  updateEMA EMA_PERIOD emaCache symbol newPrice
  = (<[symbol := Shapes.retained EMA_PERIOD
                   (calculateEMA (closes ++ [newPrice]) EMA_PERIOD)]> emaCache,
     true).
Proof.
  intros HP Hlen Hc. unfold updateEMA. rewrite Hc.
  rewrite (calculateEMA_snoc closes newPrice EMA_PERIOD HP Hlen).
  assert (exists e l, calculateEMA closes EMA_PERIOD = e :: l) as (e & l & He).
  { unfold calculateEMA.
    destruct (Z.ltb_spec (Z.of_nat (length closes)) EMA_PERIOD); [lia|eauto]. }
  rewrite He, (last_nonempty e l NaN). reflexivity.
Qed.

(** The theorem at three closes with period 2 and a new price of 4. *)
Lemma updateEMA_matches_recomputation_witness :
  updateEMA 2 {[ "BTCUSDT"%string := calculateEMA [Fin 1; Fin 2; Fin 3] 2 ]}
    "BTCUSDT" (Fin 4)
  = (<["BTCUSDT"%string :=
         Shapes.retained 2 (calculateEMA ([Fin 1; Fin 2; Fin 3] ++ [Fin 4]) 2)]>
       {[ "BTCUSDT"%string := calculateEMA [Fin 1; Fin 2; Fin 3] 2 ]},
     true).
Proof.
  apply (updateEMA_matches_recomputation 2 _ "BTCUSDT" [Fin 1; Fin 2; Fin 3]).
  - lia.
  - simpl. lia.
  - reflexivity.
Defined.

(** [updateEMA] never lets a symbol's history grow past [2 * EMA_PERIOD]
    values, touches no other symbol, and refuses (changing nothing) exactly
    when the symbol has no cached value. *)
Theorem updateEMA_keeps_history_bounded (EMA_PERIOD : Z)
    (emaCache : gmap string (list Num)) symbol newPrice :
  0 < EMA_PERIOD ->
  let result := updateEMA EMA_PERIOD emaCache symbol newPrice in
  (forall other, other <> symbol -> fst result !! other = emaCache !! other)
  /\ (snd result = false <->
      emaCache !! symbol = None \/ emaCache !! symbol = Some [])
  /\ (snd result = false -> fst result = emaCache)
  /\ (snd result = true ->
      exists values, fst result !! symbol = Some values
        /\ 1 <= Z.of_nat (length values) <= 2 * EMA_PERIOD).
Proof.
  intros HP result. subst result. unfold updateEMA.
  destruct (emaCache !! symbol) as [[|e l]|] eqn:Hc; cbn [last fst snd].
  - repeat split; try tauto; try discriminate. 
  - rewrite (last_nonempty e l NaN). cbn [fst snd].
    split; [intros other Hne; now apply lookup_insert_ne|].
    split; [split; [discriminate|intros [H|H]; discriminate H]|].
    split; [discriminate|]. intros _.
    eexists. split; [apply lookup_insert_eq|].
    set (vals := (e :: l) ++ [_]).
    assert (length vals = S (S (length l)))
      by (subst vals; rewrite length_app; simpl; lia).
    destruct (Z.ltb_spec (EMA_PERIOD * 2) (Z.of_nat (length vals))).
    + unfold sliceFrom. destruct (Z.ltb_spec (- EMA_PERIOD * 2) 0); [|lia].
      rewrite length_skipn. lia.
    + lia.
  - repeat split; try tauto; try discriminate.
Qed.

(** The theorem at a history of five values with period 2. *)
Lemma updateEMA_keeps_history_bounded_witness :
  exists values,
    fst (updateEMA 2 {[ "BTCUSDT"%string := [Fin 1; Fin 2; Fin 3; Fin 4; Fin 5] ]}
           "BTCUSDT" (Fin 6)) !! "BTCUSDT"%string = Some values
    /\ 1 <= Z.of_nat (length values) <= 2 * 2.
Proof.
  destruct (updateEMA_keeps_history_bounded 2
              {[ "BTCUSDT"%string := [Fin 1; Fin 2; Fin 3; Fin 4; Fin 5] ]}
              "BTCUSDT" (Fin 6) ltac:(lia)) as (_ & _ & _ & H).
  apply H. reflexivity.
Defined.

(** ** The two ATR implementations *)

Import Tracker.

Lemma trueRangesOf_engineKlines (klines : list Candle) :
  TechnicalIndicators.trueRangesOf
    (map (fun k => TechnicalIndicators.KObj (SNum (high k)) (SNum (low k))
                     (SNum (close k))) klines)
  = trueRanges klines.
Proof.
  destruct klines as [|prev rest]; [reflexivity|].
  revert prev. induction rest as [|k rest IH]; intros prev; [reflexivity|].
  simpl. f_equal. exact (IH k).
Qed.

Lemma length_trueRanges (klines : list Candle) :
  length (trueRanges klines) = (length klines - 1)%nat.
Proof.
  destruct klines as [|prev rest]; [reflexivity|].
  revert prev. induction rest as [|k rest IH]; intros prev; [reflexivity|].
  change (length (trueRanges (prev :: k :: rest)))
    with (S (length (trueRanges (k :: rest)))).
  rewrite (IH k). simpl. lia.
Qed.

Lemma validateKlines_priced name (klines : list Candle) : forall i,
  forallb Shapes.priced klines = true ->
  TechnicalIndicators.validateKlines name i
    (map (fun k => TechnicalIndicators.KObj (SNum (high k)) (SNum (low k))
                     (SNum (close k))) klines)
  = Return tt.
Proof.
  induction klines as [|k rest IH]; intros i; cbn [forallb map]; [reflexivity|].
  intros Hp. apply andb_true_iff in Hp as (Hk & Hrest).
  unfold Shapes.priced in Hk.
  apply andb_true_iff in Hk as (Hk & Hc). apply andb_true_iff in Hk as (Hh & Hl).
  cbn [TechnicalIndicators.validateKlines]. unfold isNaN. cbn [toNumber].
  apply negb_true_iff in Hh, Hl, Hc. rewrite Hh, Hl, Hc. cbn [orb].
  now apply IH.
Qed.

(** The two ATR implementations agree when there are enough candles: for a
    positive period and at least [period + 1] candles whose high, low and
    close are numbers, the indicator engine returns the value the tracker's
    own [calculateATR] returns.  With fewer candles they differ: the
    tracker returns null and the engine returns 0. *)
Theorem atr_implementations_agree (klines : list Candle) (period : Z) :
  0 < period ->
  (period + 1 <= Z.of_nat (length klines) ->
   forallb Shapes.priced klines = true ->
   exists atr,
     calculateATR klines period = Some atr
     /\ TechnicalIndicators.calculateATR (Shapes.engineKlines klines) period
        = Return atr)
  /\ (Z.of_nat (length klines) < period + 1 ->
      calculateATR klines period = None
      /\ TechnicalIndicators.calculateATR (Shapes.engineKlines klines) period
         = Return (Fin 0)).
Proof.
  intros Hp. unfold calculateATR, TechnicalIndicators.calculateATR,
    Shapes.engineKlines.
  destruct (Z.leb_spec period 0); [lia|]. rewrite length_map.
  split.
  - intros Hlen Hpriced.
    destruct (Z.ltb_spec (Z.of_nat (length klines)) (period + 1)); [lia|].
    rewrite (validateKlines_priced _ klines 0%nat Hpriced). cbn [bind].
    rewrite trueRangesOf_engineKlines.
    pose proof (length_trueRanges klines) as Htr.
    destruct (Z.ltb_spec (Z.of_nat (length (trueRanges klines))) period); [lia|].
    eexists. split; [reflexivity|].
    unfold sliceFrom, TechnicalIndicators.sumNums.
    destruct (Z.ltb_spec (- period) 0); [|lia].
    now rewrite Z.opp_involutive.
  - intros Hshort.
    destruct (Z.ltb_spec (Z.of_nat (length klines)) (period + 1)); [|lia].
    now split.
Qed.

(** The theorem at four candles with period 2. *)
Lemma atr_implementations_agree_witness :
  exists atr,
    calculateATR
      [mkCandle 1 (Fin 9) (Fin 10) (Fin 8) (Fin 9) (Fin 1);
       mkCandle 2 (Fin 9) (Fin 11) (Fin 9) (Fin 10) (Fin 1);
       mkCandle 3 (Fin 10) (Fin 12) (Fin 9) (Fin 9) (Fin 1);
       mkCandle 4 (Fin 9) (Fin 10) (Fin 7) (Fin 8) (Fin 1)] 2
    = Some atr
    /\ TechnicalIndicators.calculateATR
         (Shapes.engineKlines
            [mkCandle 1 (Fin 9) (Fin 10) (Fin 8) (Fin 9) (Fin 1);
             mkCandle 2 (Fin 9) (Fin 11) (Fin 9) (Fin 10) (Fin 1);
             mkCandle 3 (Fin 10) (Fin 12) (Fin 9) (Fin 9) (Fin 1);
             mkCandle 4 (Fin 9) (Fin 10) (Fin 7) (Fin 8) (Fin 1)]) 2
       = Return atr.
Proof.
  destruct (atr_implementations_agree
              [mkCandle 1 (Fin 9) (Fin 10) (Fin 8) (Fin 9) (Fin 1);
               mkCandle 2 (Fin 9) (Fin 11) (Fin 9) (Fin 10) (Fin 1);
               mkCandle 3 (Fin 10) (Fin 12) (Fin 9) (Fin 9) (Fin 1);
               mkCandle 4 (Fin 9) (Fin 10) (Fin 7) (Fin 8) (Fin 1)] 2)
    as (H & _); [lia|].
  apply H; [simpl; lia|reflexivity].
Defined.

End NodeIndicatorProps.

(* ================================================================== *)
(** * More on the alert policy *)
(* ================================================================== *)

Module PolicyProps.
Import JS Tracker NumFacts.

Section Policy.
Variable ALERT_COOLDOWN : Z.

(** After any evaluation the recorded side is the evaluated one, and the
    alert log only grows by the alert that fired. *)
Lemma shouldAlert_records_side now st symbol side :
  coinStates (fst (shouldAlert ALERT_COOLDOWN now st symbol side)) !! symbol
  = Some side.
Proof.
  unfold shouldAlert.
  destruct (bool_decide_reflect (coinStates st !! symbol ≠ Some side)) as [Hne|He].
  - destruct (ALERT_COOLDOWN <=? now - default 0 (lastAlerts st !! symbol));
      simpl; apply lookup_insert_eq.
  - simpl. destruct (coinStates st !! symbol) as [x|]; [|now destruct He].
    destruct (decide (x = side)) as [->|]; [reflexivity|].
    destruct He. congruence.
Qed.

Lemma shouldAlert_fired now st symbol side :
  snd (shouldAlert ALERT_COOLDOWN now st symbol side) = true ->
  coinStates st !! symbol <> Some side
  /\ ALERT_COOLDOWN <= now - default 0 (lastAlerts st !! symbol)
  /\ fst (shouldAlert ALERT_COOLDOWN now st symbol side)
     = setLastAlerts (setCoinStates st (<[symbol := side]> (coinStates st)))
         (<[symbol := now]> (lastAlerts st)).
Proof.
  unfold shouldAlert.
  destruct (bool_decide_reflect (coinStates st !! symbol ≠ Some side)) as [Hne|He];
    [|discriminate].
  destruct (Z.leb_spec ALERT_COOLDOWN (now - default 0 (lastAlerts st !! symbol)));
    [|discriminate].
  auto.
Qed.

Lemma shouldAlert_quiet now st symbol side :
  snd (shouldAlert ALERT_COOLDOWN now st symbol side) = false ->
  lastAlerts (fst (shouldAlert ALERT_COOLDOWN now st symbol side)) = lastAlerts st
  /\ sentAlerts (fst (shouldAlert ALERT_COOLDOWN now st symbol side))
     = sentAlerts st.
Proof.
  unfold shouldAlert.
  destruct (bool_decide (coinStates st !! symbol ≠ Some side)); [|auto].
  destruct (ALERT_COOLDOWN <=? now - default 0 (lastAlerts st !! symbol));
    [discriminate|auto].
Qed.

(** Once a side has been evaluated for a symbol, evaluating the same side
    again never alerts and changes nothing, whatever the time.  So a change
    of side that the cooldown suppressed is never alerted later: the
    suppressed evaluation has already recorded the new side. *)
Theorem repeated_side_never_alerts now1 now2 st symbol side :
  let st1 := fst (shouldAlert ALERT_COOLDOWN now1 st symbol side) in
  shouldAlert ALERT_COOLDOWN now2 st1 symbol side = (st1, false).
Proof.
  intros st1. pose proof (shouldAlert_records_side now1 st symbol side) as H.
  fold st1 in H. unfold shouldAlert at 1. rewrite H.
  now rewrite bool_decide_eq_false_2 by (intros Hne; now apply Hne).
Qed.

(** What one crossover check can do to the alerts. *)
Lemma checkForCrossover_outcome clock prediction st symbol
    prevPrice lastPrice prevEMA lastEMA :
  let st' := checkForCrossover ALERT_COOLDOWN clock prediction st symbol
               prevPrice lastPrice prevEMA lastEMA in
  (sentAlerts st' = sentAlerts st /\ lastAlerts st' = lastAlerts st)
  \/ (exists crossType,
        sentAlerts st'
        = sentAlerts st
          ++ [mkAlert symbol crossType lastPrice lastEMA
                (mul (div (sub lastPrice lastEMA) lastEMA) (Fin 100)) prediction]
        /\ lastAlerts st' = <[symbol := clock]> (lastAlerts st)
        /\ ALERT_COOLDOWN <= clock - default 0 (lastAlerts st !! symbol)
        /\ coinStates st !! symbol <> Some (sideOf lastPrice lastEMA)
        /\ ((crossType = up /\ ltb prevPrice prevEMA = true
             /\ gtb lastPrice lastEMA = true)
            \/ (crossType = down /\ gtb prevPrice prevEMA = true
                /\ ltb lastPrice lastEMA = true))).
Proof.
  intros st'. subst st'. unfold checkForCrossover.
  assert (forall s0 crossType,
            lastAlerts s0 = lastAlerts st -> sentAlerts s0 = sentAlerts st ->
            coinStates s0 = coinStates st ->
            (crossType = up /\ ltb prevPrice prevEMA = true
             /\ gtb lastPrice lastEMA = true)
            \/ (crossType = down /\ gtb prevPrice prevEMA = true
                /\ ltb lastPrice lastEMA = true) ->
            let st' :=
              let '(st1, fire) :=
                shouldAlert ALERT_COOLDOWN clock s0 symbol
                  (sideOf lastPrice lastEMA) in
              if fire
              then send st1 (mkAlert symbol crossType lastPrice lastEMA
                               (mul (div (sub lastPrice lastEMA) lastEMA) (Fin 100))
                               prediction)
              else st1 in
            (sentAlerts st' = sentAlerts st /\ lastAlerts st' = lastAlerts st)
            \/ (exists crossType,
                  sentAlerts st'
                  = sentAlerts st
                    ++ [mkAlert symbol crossType lastPrice lastEMA
                          (mul (div (sub lastPrice lastEMA) lastEMA) (Fin 100))
                          prediction]
                  /\ lastAlerts st' = <[symbol := clock]> (lastAlerts st)
                  /\ ALERT_COOLDOWN <= clock - default 0 (lastAlerts st !! symbol)
                  /\ coinStates st !! symbol <> Some (sideOf lastPrice lastEMA)
                  /\ ((crossType = up /\ ltb prevPrice prevEMA = true
                       /\ gtb lastPrice lastEMA = true)
                      \/ (crossType = down /\ gtb prevPrice prevEMA = true
                          /\ ltb lastPrice lastEMA = true)))) as Hbranch.
  { intros s0 crossType Hl Hs Hc Hdir st'. subst st'.
    pose proof (shouldAlert_fired clock s0 symbol (sideOf lastPrice lastEMA)) as Hf.
    pose proof (shouldAlert_quiet clock s0 symbol (sideOf lastPrice lastEMA)) as Hq.
    destruct (shouldAlert ALERT_COOLDOWN clock s0 symbol (sideOf lastPrice lastEMA))
      as [st1 fire].
    cbn [fst snd] in Hf, Hq. destruct fire.
    - destruct (Hf eq_refl) as (Hne & Hcd & ->). right. exists crossType.
      cbn [sentAlerts send setLastAlerts setCoinStates lastAlerts].
      rewrite Hs, Hl. rewrite Hc in Hne. rewrite Hl in Hcd. auto.
    - destruct (Hq eq_refl) as (H1 & H2). left. split; congruence. }
  destruct (ltb prevPrice prevEMA) eqn:E1, (gtb lastPrice lastEMA) eqn:E2;
    cbn [andb];
    [apply (Hbranch _ up); auto|..];
    (destruct (gtb prevPrice prevEMA) eqn:E3, (ltb lastPrice lastEMA) eqn:E4;
     cbn [andb];
     [apply (Hbranch _ down); auto|left; split; reflexivity..]).
Qed.

(** Every alert that a crossover check sends is for a strict crossover in
    the direction it reports, for a side other than the recorded one, and at
    least a cooldown after the symbol's previous alert; it carries the last
    price and average, and a check sends at most one.  Without such a
    crossover - also when a price or an average is NaN or when they are
    equal - nothing is sent and no alert time changes. *)
Theorem alert_needs_strict_crossover now prediction st symbol
    prevPrice lastPrice prevEMA lastEMA :
  let st' := checkForCrossover ALERT_COOLDOWN now prediction st symbol
               prevPrice lastPrice prevEMA lastEMA in
  (sentAlerts st' = sentAlerts st /\ lastAlerts st' = lastAlerts st)
  \/ (exists crossType,
        sentAlerts st'
        = sentAlerts st
          ++ [mkAlert symbol crossType lastPrice lastEMA
                (mul (div (sub lastPrice lastEMA) lastEMA) (Fin 100)) prediction]
        /\ lastAlerts st' = <[symbol := now]> (lastAlerts st)
        /\ ALERT_COOLDOWN <= now - default 0 (lastAlerts st !! symbol)
        /\ coinStates st !! symbol <> Some (sideOf lastPrice lastEMA)
        /\ ((crossType = up /\ ltb prevPrice prevEMA = true
             /\ gtb lastPrice lastEMA = true)
            \/ (crossType = down /\ gtb prevPrice prevEMA = true
                /\ ltb lastPrice lastEMA = true))).
Proof. apply checkForCrossover_outcome. Qed.

(** Checks in between leave the symbol's last alert time at or after the
    one they started from, when the cooldown is not negative. *)
Lemma runChecks_lastAlerts symbol (checks : list Shapes.Check) :
  0 <= ALERT_COOLDOWN ->
  forall st T,
    lastAlerts st !! symbol = Some T ->
    exists T', lastAlerts (Shapes.runChecks ALERT_COOLDOWN st checks) !! symbol
               = Some T'
               /\ T <= T'.
Proof.
  intros Hcd. unfold Shapes.runChecks.
  induction checks as [|c rest IH]; intros st T HT.
  - exists T. split; [exact HT|lia].
  - cbn [fold_left].
    destruct (checkForCrossover_outcome (Shapes.checkTime c)
                (Shapes.checkPrediction c) st (Shapes.checkSymbol c)
                (Shapes.checkPrevPrice c) (Shapes.checkLastPrice c)
                (Shapes.checkPrevEMA c) (Shapes.checkLastEMA c))
      as [(_ & Hlast)|(crossType & _ & Hlast & Hdue & _)];
      fold (Shapes.runCheck ALERT_COOLDOWN st c) in Hlast.
    + apply (IH _ T). now rewrite Hlast.
    + destruct (decide (Shapes.checkSymbol c = symbol)) as [He|Hne].
      * rewrite He, HT in Hdue. simpl in Hdue.
        destruct (IH (Shapes.runCheck ALERT_COOLDOWN st c) (Shapes.checkTime c))
          as (T' & HT' & Hle).
        { rewrite Hlast, He. apply lookup_insert_eq. }
        exists T'. split; [exact HT'|lia].
      * apply (IH _ T). rewrite Hlast. now rewrite lookup_insert_ne.
Qed.

(** Two alerts for one symbol are at least a cooldown apart: when a
    crossover check at time [checkTime first] has sent an alert, then after
    any number of further checks in between - of this or of other symbols,
    at any times, alerting or not - a check for that symbol less than a
    cooldown after the first one sends nothing, whatever the prices.  The
    cooldown is not negative. *)
Theorem alerts_are_a_cooldown_apart st (first : Shapes.Check)
    (between : list Shapes.Check) (second : Shapes.Check) :
  let st1 := Shapes.runCheck ALERT_COOLDOWN st first in
  let st2 := Shapes.runChecks ALERT_COOLDOWN st1 between in
  0 <= ALERT_COOLDOWN ->
  sentAlerts st1 <> sentAlerts st ->
  Shapes.checkSymbol second = Shapes.checkSymbol first ->
  Shapes.checkTime second - Shapes.checkTime first < ALERT_COOLDOWN ->
  sentAlerts (Shapes.runCheck ALERT_COOLDOWN st2 second) = sentAlerts st2
  /\ sentAlerts (Shapes.runChecks ALERT_COOLDOWN st
                   (first :: between ++ [second]))
     = sentAlerts (Shapes.runChecks ALERT_COOLDOWN st (first :: between)).
Proof.
  intros st1 st2 Hcd Hsent Hsym Hsoon.
  assert (sentAlerts (Shapes.runCheck ALERT_COOLDOWN st2 second) = sentAlerts st2)
    as Hquiet.
  { destruct (checkForCrossover_outcome (Shapes.checkTime first)
                (Shapes.checkPrediction first) st (Shapes.checkSymbol first)
                (Shapes.checkPrevPrice first) (Shapes.checkLastPrice first)
                (Shapes.checkPrevEMA first) (Shapes.checkLastEMA first))
      as [(H & _)|(c1 & _ & Hlast & _)]; [now destruct Hsent|].
    fold (Shapes.runCheck ALERT_COOLDOWN st first) in Hlast. fold st1 in Hlast.
    destruct (runChecks_lastAlerts (Shapes.checkSymbol first) between Hcd st1
                (Shapes.checkTime first)) as (T' & HT' & Hle).
    { rewrite Hlast. apply lookup_insert_eq. }
    fold st2 in HT'.
    destruct (checkForCrossover_outcome (Shapes.checkTime second)
                (Shapes.checkPrediction second) st2 (Shapes.checkSymbol second)
                (Shapes.checkPrevPrice second) (Shapes.checkLastPrice second)
                (Shapes.checkPrevEMA second) (Shapes.checkLastEMA second))
      as [(H & _)|(c2 & _ & _ & Hdue & _)]; [exact H|].
    rewrite Hsym, HT' in Hdue. simpl in Hdue. lia. }
  split; [exact Hquiet|].
  unfold Shapes.runChecks. cbn [fold_left]. rewrite fold_left_app. exact Hquiet.
Qed.

End Policy.

(** The theorem at the default cooldown: an alert for BTCUSDT at time
    2000000, then a check of ETHUSDT that alerts, a check of BTCUSDT five
    minutes later that the cooldown suppresses, and a downward crossover of
    BTCUSDT 14 minutes after the alert. *)
Lemma alerts_are_a_cooldown_apart_witness :
  let first := Shapes.mkCheck 2000000 "BTCUSDT" None
                 (Fin 9) (Fin 11) (Fin 10) (Fin 10) in
  let between := [Shapes.mkCheck 2100000 "ETHUSDT" None
                    (Fin 9) (Fin 11) (Fin 10) (Fin 10);
                  Shapes.mkCheck 2300000 "BTCUSDT" None
                    (Fin 11) (Fin 9) (Fin 10) (Fin 10)] in
  let second := Shapes.mkCheck (2000000 + 840000) "BTCUSDT" None
                  (Fin 9) (Fin 11) (Fin 10) (Fin 10) in
  let st2 := Shapes.runChecks 900000
               (Shapes.runCheck 900000 TrackerExamples.tracking first) between in
  sentAlerts (Shapes.runCheck 900000 st2 second) = sentAlerts st2
  /\ sentAlerts (Shapes.runChecks 900000 TrackerExamples.tracking
                   (first :: between ++ [second]))
     = sentAlerts (Shapes.runChecks 900000 TrackerExamples.tracking
                     (first :: between)).
Proof.
  intros first between second.
  apply (alerts_are_a_cooldown_apart 900000 TrackerExamples.tracking
           first between second).
  - lia.
  - vm_compute. discriminate.
  - reflexivity.
  - vm_compute. reflexivity.
Defined.

End PolicyProps.

(* ================================================================== *)
(** * The list of tracked pairs *)
(* ================================================================== *)

Module SupervisorProps.
Import JS Supervisor.

#[local] Set Warnings "-clear-no-such-hyp".

(** The symbols that pass the volume test, in the order of the response. *)
Lemma scanTickers_outcome th flag data :
  forall trackedPairs newPairs,
  exists announced,
    scanTickers th flag data trackedPairs newPairs
    = (trackedPairs
         ∪ list_to_set
             (map symbol (List.filter (fun t => gtb (quoteVolume t) th) data)),
       newPairs ++ announced,
       map symbol (List.filter (fun t => gtb (quoteVolume t) th) data))
    /\ NoDup (map np_symbol announced)
    /\ (forall s, s ∈ map np_symbol announced <->
          flag = true
          /\ s ∈ map symbol (List.filter (fun t => gtb (quoteVolume t) th) data)
          /\ s ∉ trackedPairs).
Proof.
  induction data as [|t rest IH]; intros tracked acc.
  - exists []. cbn. rewrite app_nil_r.
    split; [f_equal; f_equal; set_solver|].
    split; [constructor|]. intros s. set_solver.
  - cbn [scanTickers List.filter].
    destruct (gtb (quoteVolume t) th); [|apply IH].
    cbn [map].
    set (P := map symbol (List.filter (fun t => gtb (quoteVolume t) th) rest)) in *.
    destruct (flag && negb (bool_decide (symbol t ∈ tracked))) eqn:Enew.
    + apply andb_true_iff in Enew as (-> & Hnt).
      apply negb_true_iff, bool_decide_eq_false in Hnt.
      destruct (IH ({[symbol t]} ∪ tracked)
                  (acc ++ [mkNewPair (symbol t) (quoteVolume t) (lastPrice t)
                             (priceChangePercent t)]))
        as (N & -> & Hnd & Hiff).
      exists (mkNewPair (symbol t) (quoteVolume t) (lastPrice t)
                (priceChangePercent t) :: N).
      split; [|split].
      * rewrite <- app_assoc. cbn [app]. f_equal. f_equal.
        cbn [list_to_set]. set_solver.
      * cbn [map np_symbol]. apply NoDup_cons. split; [|exact Hnd].
        intros Hin. apply Hiff in Hin. set_solver.
      * intros s. cbn [map np_symbol]. rewrite elem_of_cons, Hiff.
        rewrite elem_of_cons.
        destruct (decide (s = symbol t)) as [->|Hne]; [tauto|].
        set_solver.
    + destruct (IH ({[symbol t]} ∪ tracked) acc) as (N & -> & Hnd & Hiff).
      exists N. split; [|split].
      * f_equal. f_equal. cbn [list_to_set]. set_solver.
      * exact Hnd.
      * intros s. rewrite Hiff, elem_of_cons.
        apply andb_false_iff in Enew as [->|Hin].
        -- split; intros (H & _); discriminate.
        -- apply negb_false_iff, bool_decide_eq_true in Hin.
           destruct (decide (s = symbol t)) as [->|Hne]; set_solver.
Qed.

(** The list that [getFuturesPairs] returns holds the symbol of every
    ticker whose volume is strictly above the threshold, in the order of the
    response, and nothing else: a volume equal to the threshold or one that
    is not a number does not pass.  The tracked set becomes the old one
    together with the returned symbols, so no pair ever leaves it; a failed
    request returns the empty list and leaves the set as it was. *)
Theorem getFuturesPairs_returns_pairs_above_threshold th flag data trackedPairs :
  (let '(tracked', _, pairs) :=
     getFuturesPairs th flag (Return data) trackedPairs in
   pairs = map symbol (List.filter (fun t => gtb (quoteVolume t) th) data)
   /\ tracked' = trackedPairs ∪ list_to_set pairs)
  /\ (forall message,
        getFuturesPairs th flag (Throw message) trackedPairs
        = (trackedPairs, [], [])).
Proof.
  split; [|reflexivity].
  unfold getFuturesPairs.
  destruct (scanTickers_outcome th flag data trackedPairs []) as (N & -> & _).
  split; reflexivity.
Qed.

(** The pairs that one call announces are exactly the returned symbols
    that were not tracked before the call, each of them once - also when
    the response lists a symbol twice - and none at all before the initial
    load is complete. *)
Theorem new_pairs_are_the_untracked_ones th flag data trackedPairs :
  let '(_, newPairs, pairs) :=
    getFuturesPairs th flag (Return data) trackedPairs in
  NoDup (map np_symbol newPairs)
  /\ (forall s, s ∈ map np_symbol newPairs <->
        flag = true /\ s ∈ pairs /\ s ∉ trackedPairs).
Proof.
  unfold getFuturesPairs.
  destruct (scanTickers_outcome th flag data trackedPairs [])
    as (N & -> & Hnd & Hiff).
  cbn [app]. now split.
Qed.

Lemma refreshes_outcome calls :
  forall trackedPairs,
    trackedPairs ⊆ fst (Shapes.refreshes calls trackedPairs)
    /\ NoDup (map np_symbol (snd (Shapes.refreshes calls trackedPairs)))
    /\ (forall s, s ∈ map np_symbol (snd (Shapes.refreshes calls trackedPairs)) ->
          (s ∉ trackedPairs)
          /\ s ∈ fst (Shapes.refreshes calls trackedPairs)).
Proof.
  induction calls as [|[th response] rest IH]; intros tracked.
  - cbn. split; [set_solver|]. split; [constructor|]. intros s. set_solver.
  - cbn [Shapes.refreshes]. destruct response as [data|message].
    + unfold getFuturesPairs.
      destruct (scanTickers_outcome th true data tracked [])
        as (N & -> & Hnd & Hiff).
      cbn [app].
      set (P := map symbol (List.filter (fun t => gtb (quoteVolume t) th) data))
        in *.
      destruct (IH (tracked ∪ list_to_set P)) as (Hsub & Hnd' & Hnew).
      destruct (Shapes.refreshes rest (tracked ∪ list_to_set P))
        as [tracked' more].
      cbn [fst snd] in *.
      split; [set_solver|].
      rewrite map_app. split.
      * apply NoDup_app. split; [exact Hnd|]. split; [|exact Hnd'].
        intros s Hs Hs'. apply Hiff in Hs as (_ & HP & _).
        apply Hnew in Hs' as (Hnot & _). set_solver.
      * intros s Hs. apply elem_of_app in Hs as [Hs|Hs].
        -- apply Hiff in Hs as (_ & HP & Hnot). split; [exact Hnot|].
           set_solver.
        -- apply Hnew in Hs as (Hnot & Hin). split; [set_solver|exact Hin].
    + cbn [getFuturesPairs app]. destruct (IH tracked) as (Hsub & Hnd' & Hnew).
      destruct (Shapes.refreshes rest tracked) as [tracked' more].
      cbn [fst snd] in *. auto.
Qed.

(** Over any sequence of refreshes after the initial load, with any
    thresholds and any responses (failed requests among them), no symbol is
    announced as a new high-volume pair twice, none that was tracked at the
    start is announced, and every announced pair is tracked at the end - a
    pair whose volume falls below the threshold and rises again is not
    announced again. *)
Theorem no_pair_is_announced_twice calls trackedPairs :
  let '(tracked', announced) := Shapes.refreshes calls trackedPairs in
  NoDup (map np_symbol announced)
  /\ trackedPairs ⊆ tracked'
  /\ (forall s, s ∈ map np_symbol announced ->
        (s ∉ trackedPairs) /\ s ∈ tracked').
Proof.
  destruct (refreshes_outcome calls trackedPairs) as (Hsub & Hnd & Hnew).
  destruct (Shapes.refreshes calls trackedPairs) as [tracked' announced].
  cbn [fst snd] in *. auto.
Qed.

End SupervisorProps.

(* ================================================================== *)
(** * The training store on disk *)
(* ================================================================== *)

Module StoreProps.
Import JS Tracker Store.

Lemma readFile_overwrite name content files other :
  readFile other (overwrite name content files)
  = if String.eqb other name
    then option_map (fun _ => content) (readFile name files)
    else readFile other files.
Proof.
  induction files as [|[n c] rest IH]; cbn [overwrite readFile option_map].
  - now destruct (String.eqb other name).
  - destruct (String.eqb_spec n name) as [Hn|Hn]; cbn [readFile option_map].
    + subst n. rewrite (String.eqb_sym name other).
      now destruct (String.eqb other name).
    + destruct (String.eqb_spec n other) as [Hno|Hno]; [|exact IH].
      subst n. apply String.eqb_neq in Hn. now rewrite Hn.
Qed.

Lemma readFile_app name files1 files2 :
  readFile name (files1 ++ files2)
  = match readFile name files1 with
    | Some c => Some c
    | None => readFile name files2
    end.
Proof.
  induction files1 as [|[n c] rest IH]; cbn [app readFile]; [reflexivity|].
  now destruct (String.eqb n name).
Qed.

Lemma readFile_writeFile place name content files other :
  readFile other (writeFile place name content files)
  = if String.eqb other name then Some content else readFile other files.
Proof.
  unfold writeFile. destruct (readFile name files) as [c|] eqn:E.
  - rewrite readFile_overwrite, E. reflexivity.
  - rewrite readFile_app. cbn [readFile].
    rewrite (String.eqb_sym name other).
    destruct (String.eqb_spec other name) as [->|Hne].
    + rewrite <- (take_drop place files), readFile_app in E.
      destruct (readFile name (take place files)); [discriminate|reflexivity].
    + symmetry. rewrite <- (take_drop place files) at 1.
      now rewrite readFile_app.
Qed.

(** [collectDataPoint] appends to the current month's file and to nothing
    else, when that file is missing, does not parse, or holds an array of
    points, and the calls to the file system succeed.  After the call the
    file holds what it held before, followed by the new point - only the new
    point when the file was missing or did not parse, so the content of a
    corrupt file is dropped; every other file of the symbol and every other
    symbol are left as they were.  Nothing is said of the value returned,
    nor of a file whose text parses to something other than an array, on
    which [data.push] throws and nothing is written. *)
Theorem collectDataPoint_appends_to_month_file place filename dir symbol dataPoint :
  let before := default [] (dir !! symbol) in
  let dir' := fst (collectDataPoint place filename dir symbol dataPoint) in
  let previous :=
    match readFile filename before with
    | Some (Parsed data) => data
    | _ => []
    end in
  (exists after,
      dir' !! symbol = Some after
      /\ readFile filename after = Some (Parsed (previous ++ [dataPoint]))
      /\ forall other, other <> filename -> readFile other after = readFile other before)
  /\ (forall other, other <> symbol -> dir' !! other = dir !! other).
Proof.
  intros before dir' previous. subst dir'. unfold collectDataPoint.
  cbn [fst snd]. fold before.
  split; [|intros other Hne; now apply lookup_insert_ne].
  eexists. split; [apply lookup_insert_eq|].
  split.
  - rewrite readFile_writeFile, String.eqb_refl. subst previous.
    now destruct (readFile filename before) as [[|data]|].
  - intros other Hne. rewrite readFile_writeFile.
    now destruct (String.eqb_spec other filename).
Qed.

Lemma concatFiles_acc files : forall acc,
  concatFiles files acc = option_map (app acc) (concatFiles files []).
Proof.
  induction files as [|[n c] rest IH]; intros acc; cbn [concatFiles option_map].
  - now rewrite app_nil_r.
  - destruct (endsWith n ".json"); [|apply IH].
    destruct c as [|data]; [reflexivity|].
    rewrite (IH (acc ++ data)), (IH ([] ++ data)).
    destruct (concatFiles rest []); cbn [option_map app]; [|reflexivity].
    now rewrite app_assoc.
Qed.

Lemma concatFiles_app files1 files2 :
  concatFiles (files1 ++ files2) []
  = match concatFiles files1 [], concatFiles files2 [] with
    | Some l1, Some l2 => Some (l1 ++ l2)
    | _, _ => None
    end.
Proof.
  induction files1 as [|[n c] rest IH]; cbn [app concatFiles].
  - now destruct (concatFiles files2 []).
  - destruct (endsWith n ".json"); [|exact IH].
    destruct c as [|data]; [reflexivity|].
    rewrite (concatFiles_acc (rest ++ files2)), (concatFiles_acc rest), IH.
    destruct (concatFiles rest []), (concatFiles files2 []);
      cbn [option_map app]; try reflexivity.
    now rewrite app_assoc.
Qed.

Lemma concatFiles_overwrite name data extra files all :
  endsWith name ".json" = true ->
  readFile name files = Some (Parsed data) ->
  concatFiles files [] = Some all ->
  exists l1 l2,
    all = l1 ++ l2
    /\ concatFiles (overwrite name (Parsed (data ++ extra)) files) []
       = Some (l1 ++ extra ++ l2).
Proof.
  intros Hjson. revert all.
  induction files as [|[n c] rest IH]; intros all Hread Hall; [discriminate|].
  cbn [readFile overwrite concatFiles] in *.
  destruct (String.eqb_spec n name) as [->|Hne].
  - injection Hread as ->. cbn [concatFiles]. rewrite Hjson in *.
    rewrite concatFiles_acc in Hall. rewrite concatFiles_acc.
    destruct (concatFiles rest []) as [more|]; [|discriminate].
    cbn [option_map app] in *. injection Hall as <-.
    exists data, more. split; [reflexivity|]. now rewrite <- app_assoc.
  - cbn [concatFiles]. destruct (endsWith n ".json").
    + destruct c as [|d]; [discriminate|].
      rewrite concatFiles_acc in Hall. rewrite concatFiles_acc.
      destruct (concatFiles rest []) as [more|] eqn:Erest; [|discriminate].
      cbn [option_map app] in Hall. injection Hall as <-.
      destruct (IH more Hread eq_refl) as (l1 & l2 & -> & ->).
      exists (d ++ l1), l2. cbn [option_map app].
      split; [now rewrite app_assoc|]. now rewrite <- app_assoc.
    + now apply IH.
Qed.

Lemma readFile_parsable name files all :
  endsWith name ".json" = true ->
  concatFiles files [] = Some all ->
  readFile name files <> Some Unparsable.
Proof.
  intros Hjson. revert all.
  induction files as [|[n c] rest IH]; intros all Hall; [discriminate|].
  cbn [readFile concatFiles] in *.
  destruct (String.eqb_spec n name) as [->|Hne].
  - rewrite Hjson in Hall. destruct c; [discriminate|]. discriminate.
  - destruct (endsWith n ".json").
    + destruct c as [|d]; [discriminate|].
      rewrite concatFiles_acc in Hall.
      destruct (concatFiles rest []) as [more|] eqn:Erest; [|discriminate].
      now apply (IH more).
    + now apply (IH all).
Qed.

(** A collected point is read back.  When every [.json] file of the symbol
    parses, [getSymbolData] after [collectDataPoint] returns the points it
    returned before with the new point among them - at the end of its
    month's points - and nothing else changes; the data of other symbols
    is untouched. *)
Theorem collected_point_is_read_back place filename dir symbol dataPoint all :
  endsWith filename ".json" = true ->
  concatFiles (default [] (dir !! symbol)) [] = Some all ->
  let dir' := fst (collectDataPoint place filename dir symbol dataPoint) in
  getSymbolData dir symbol = all
  /\ (exists l1 l2,
        all = l1 ++ l2
        /\ getSymbolData dir' symbol = l1 ++ [dataPoint] ++ l2)
  /\ (forall other, other <> symbol ->
        getSymbolData dir' other = getSymbolData dir other).
Proof.
  intros Hjson Hall dir'. subst dir'. unfold collectDataPoint, getSymbolData.
  cbn [fst]. rewrite lookup_insert_eq.
  split; [|split].
  - destruct (dir !! symbol) as [files|]; simpl in Hall.
    + now rewrite Hall.
    + now injection Hall.
  - set (files := default [] (dir !! symbol)) in *.
    unfold writeFile.
    pose proof (readFile_parsable filename files all Hjson Hall) as Hok.
    destruct (readFile filename files) as [[|data]|] eqn:Eread.
    + now destruct Hok.
    + destruct (concatFiles_overwrite filename data [dataPoint] files all
                  Hjson Eread Hall) as (l1 & l2 & -> & ->).
      now exists l1, l2.
    + rewrite concatFiles_app. cbn [concatFiles]. rewrite Hjson.
      rewrite <- (take_drop place files), concatFiles_app in Hall.
      rewrite (concatFiles_acc (drop place files)).
      destruct (concatFiles (take place files) []) as [l1|]; [|discriminate].
      destruct (concatFiles (drop place files) []) as [l2|]; [|discriminate].
      injection Hall as <-. simpl.
      now exists l1, l2.
  - intros other Hne. now rewrite lookup_insert_ne by congruence.
Qed.

(** The theorem at two months of points, for a point of the first month. *)
Lemma collected_point_is_read_back_witness :
  exists l1 l2,
    [StoreExamples.point 1 100; StoreExamples.point 2 101; StoreExamples.point 3 102]
    = l1 ++ l2
    /\ getSymbolData
         (fst (collectDataPoint 0 "2024-03.json" StoreExamples.twoMonths "BTCUSDT"
                 (StoreExamples.point 4 103))) "BTCUSDT"
       = l1 ++ [StoreExamples.point 4 103] ++ l2.
Proof.
  destruct (collected_point_is_read_back 0 "2024-03.json" StoreExamples.twoMonths
              "BTCUSDT" (StoreExamples.point 4 103)
              [StoreExamples.point 1 100; StoreExamples.point 2 101;
               StoreExamples.point 3 102])
    as (_ & H & _); [reflexivity|reflexivity|exact H].
Defined.

Lemma loadFiles_pointsOf files : forall acc,
  loadFiles files acc = acc ++ Shapes.pointsOf files.
Proof.
  unfold Shapes.pointsOf.
  induction files as [|[n c] rest IH]; intros acc; cbn [loadFiles map concat fst snd].
  - now rewrite app_nil_r.
  - destruct (endsWith n ".json"); [|apply IH].
    destruct c as [|data]; [apply IH|].
    now rewrite IH, app_assoc.
Qed.

Lemma concatFiles_pointsOf files :
  concatFiles files []
  = if existsb Shapes.corrupt files then None else Some (Shapes.pointsOf files).
Proof.
  unfold Shapes.pointsOf, Shapes.corrupt.
  induction files as [|[n c] rest IH]; cbn [concatFiles existsb map concat fst snd];
    [reflexivity|].
  destruct (endsWith n ".json"); cbn [andb orb]; [|exact IH].
  destruct c as [|data]; [reflexivity|]. cbn [orb app].
  rewrite concatFiles_acc, IH.
  now destruct (existsb _ rest).
Qed.

Lemma loadTrainingData_lookup mlDataDir trainingData symbol :
  loadTrainingData mlDataDir trainingData !! symbol
  = match mlDataDir !! symbol with
    | Some files =>
        if (0 <? length (loadFiles files []))%nat
        then Some (loadFiles files [])
        else trainingData !! symbol
    | None => trainingData !! symbol
    end.
Proof.
  unfold loadTrainingData.
  apply (map_fold_weak_ind
           (fun (r : gmap string (list DataPoint)) (m : gmap string Directory) =>
              r !! symbol
              = match m !! symbol with
                | Some files =>
                    if (0 <? length (loadFiles files []))%nat
                    then Some (loadFiles files [])
                    else trainingData !! symbol
                | None => trainingData !! symbol
                end)).
  - now rewrite lookup_empty.
  - intros i files m r Hnone IH.
    destruct (decide (i = symbol)) as [->|Hne].
    + rewrite lookup_insert_eq, Hnone in *.
      destruct (0 <? length (loadFiles files []))%nat; [|exact IH].
      apply lookup_insert_eq.
    + rewrite (lookup_insert_ne m) by exact Hne.
      destruct (0 <? length (loadFiles files []))%nat; [|exact IH].
      now rewrite lookup_insert_ne.
Qed.

(** Reading a symbol's files.  [loadTrainingData] reads the points of
    every [.json] file that parses and skips the others (keeping what
    memory held when it finds no point); [getSymbolData] returns the same
    points when every file parses, and no point at all as soon as one
    [.json] file does not. *)
Theorem one_corrupt_file_hides_all_data mlDataDir trainingData symbol
    (files : Directory) :
  mlDataDir !! symbol = Some files ->
  getSymbolData mlDataDir symbol
  = (if existsb Shapes.corrupt files then [] else Shapes.pointsOf files)
  /\ loadTrainingData mlDataDir trainingData !! symbol
     = match Shapes.pointsOf files with
       | [] => trainingData !! symbol
       | points => Some points
       end.
Proof.
  intros Hdir. split.
  - unfold getSymbolData. rewrite Hdir, concatFiles_pointsOf.
    now destruct (existsb Shapes.corrupt files).
  - rewrite loadTrainingData_lookup, Hdir, loadFiles_pointsOf. cbn [app].
    now destruct (Shapes.pointsOf files).
Qed.

(** The theorem at a directory with a corrupt file between two good ones. *)
Lemma one_corrupt_file_hides_all_data_witness :
  getSymbolData StoreExamples.damaged "BTCUSDT" = []
  /\ exists p1 p2,
       loadTrainingData StoreExamples.damaged ∅ !! "BTCUSDT"%string
       = Some [p1; p2].
Proof.
  destruct (one_corrupt_file_hides_all_data StoreExamples.damaged ∅ "BTCUSDT"
              _ eq_refl) as (H1 & H2).
  split; [exact H1|]. eexists _, _. exact H2.
Defined.

Lemma saveTrainingData_lookup place filename trainingData mlDataDir symbol :
  saveTrainingData place filename trainingData mlDataDir !! symbol
  = match trainingData !! symbol with
    | Some data =>
        Some (writeFile (place symbol) filename (Parsed data)
                (default [] (mlDataDir !! symbol)))
    | None => mlDataDir !! symbol
    end.
Proof.
  unfold saveTrainingData.
  apply (map_fold_weak_ind
           (fun (r : gmap string Directory) (m : gmap string (list DataPoint)) =>
              r !! symbol
              = match m !! symbol with
                | Some data =>
                    Some (writeFile (place symbol) filename (Parsed data)
                            (default [] (mlDataDir !! symbol)))
                | None => mlDataDir !! symbol
                end)).
  - now rewrite lookup_empty.
  - intros i data m r Hnone IH.
    destruct (decide (i = symbol)) as [->|Hne].
    + rewrite !lookup_insert_eq. rewrite Hnone in IH.
      f_equal. f_equal. f_equal. exact IH.
    + now rewrite !lookup_insert_ne by exact Hne.
Qed.

Lemma pointsOf_app files1 files2 :
  Shapes.pointsOf (files1 ++ files2)
  = Shapes.pointsOf files1 ++ Shapes.pointsOf files2.
Proof. unfold Shapes.pointsOf. now rewrite map_app, concat_app. Qed.

Lemma pointsOf_no_json (files : Directory) :
  Forall (fun file => endsWith (fst file) ".json" = false) files ->
  Shapes.pointsOf files = [].
Proof.
  unfold Shapes.pointsOf.
  induction 1 as [|[n c] rest Hn _ IH]; cbn [map concat fst snd]; [reflexivity|].
  cbn [fst] in Hn. now rewrite Hn, IH.
Qed.

Lemma readFile_None name (files : Directory) :
  readFile name files = None -> Forall (fun file => fst file <> name) files.
Proof.
  induction files as [|[n c] rest IH]; cbn [readFile]; [constructor|].
  destruct (String.eqb_spec n name) as [->|Hne]; [discriminate|].
  intros H. constructor; [exact Hne|now apply IH].
Qed.

(** Writing the month's file into a directory whose only [.json] file, if
    any, is that one. *)
Lemma pointsOf_writeFile place filename data (files : Directory) :
  endsWith filename ".json" = true ->
  NoDup (map fst files) ->
  Forall (fun file => endsWith (fst file) ".json" = true -> fst file = filename)
    files ->
  Shapes.pointsOf (writeFile place filename (Parsed data) files) = data.
Proof.
  intros Hjson Hnd Honly.
  assert (forall l : Directory,
            Forall (fun file => fst file <> filename) l ->
            Forall (fun file => endsWith (fst file) ".json" = true ->
                                fst file = filename) l ->
            Shapes.pointsOf l = []) as Hnone.
  { intros l Hno Hon. apply pointsOf_no_json.
    apply Forall_forall. intros file Hin.
    rewrite Forall_forall in Hno, Hon.
    destruct (endsWith (fst file) ".json") eqn:E; [|reflexivity].
    destruct (Hno file Hin). now apply Hon. }
  unfold writeFile.
  destruct (readFile filename files) as [c0|] eqn:Eread.
  - induction files as [|[n c] rest IH]; [discriminate|].
    cbn [overwrite readFile] in *. cbn [map fst] in Hnd.
    apply NoDup_cons in Hnd as (Hnotin & Hnd).
    apply Forall_cons in Honly as (Hhead & Honly). cbn [fst] in Hhead.
    destruct (String.eqb_spec n filename) as [->|Hne].
    + change (Shapes.pointsOf ((filename, Parsed data) :: rest))
        with (Shapes.pointsOf ([(filename, Parsed data)] ++ rest)).
      rewrite pointsOf_app, (Hnone rest); [|  |exact Honly].
      * unfold Shapes.pointsOf. cbn [map concat fst snd]. rewrite Hjson.
        now rewrite !app_nil_r.
      * apply Forall_forall. intros file Hin Heq. apply Hnotin.
        rewrite <- Heq. apply list_elem_of_fmap. exists file.
        split; [reflexivity|exact Hin].
    + change (Shapes.pointsOf ((n, c) :: overwrite filename (Parsed data) rest))
        with (Shapes.pointsOf ([(n, c)] ++ overwrite filename (Parsed data) rest)).
      rewrite pointsOf_app, (IH Hnd Honly Eread).
      rewrite (pointsOf_no_json [(n, c)]); [reflexivity|].
      constructor; [|constructor]. cbn [fst].
      destruct (endsWith n ".json"); [|reflexivity]. now destruct Hne; apply Hhead.
  - apply readFile_None in Eread.
    rewrite pointsOf_app.
    change (Shapes.pointsOf ((filename, Parsed data) :: drop place files))
      with (Shapes.pointsOf ([(filename, Parsed data)] ++ drop place files)).
    rewrite pointsOf_app.
    rewrite (Hnone (take place files)), (Hnone (drop place files));
      try (apply Forall_take; assumption); try (apply Forall_drop; assumption).
    unfold Shapes.pointsOf. cbn [map concat fst snd app]. rewrite Hjson.
    now rewrite !app_nil_r.
Qed.

(** Saving and loading is a round trip for a symbol whose directory holds no
    [.json] file other than the current month's: after [saveTrainingData],
    [loadTrainingData] puts back in memory one point for each point saved,
    in the same order and with the same timestamp and symbol, whatever
    memory held in between; and when the saved points hold no NaN and no
    infinity, which JSON would store as null, the points put back are the
    points saved, in the columns that [DataPoint] carries. *)
Theorem save_then_load_round_trip place filename trainingData mlDataDir memory
    symbol data :
  endsWith filename ".json" = true ->
  trainingData !! symbol = Some data ->
  data <> [] ->
  NoDup (map fst (default [] (mlDataDir !! symbol))) ->
  Forall (fun file => endsWith (fst file) ".json" = true -> fst file = filename)
    (default [] (mlDataDir !! symbol)) ->
  exists loaded,
    loadTrainingData (saveTrainingData place filename trainingData mlDataDir)
      memory !! symbol
    = Some loaded
    /\ map dp_timestamp loaded = map dp_timestamp data
    /\ map dp_symbol loaded = map dp_symbol data
    /\ (forallb Shapes.storable data = true -> loaded = data).
Proof.
  intros Hjson Hdata Hne Hnd Honly. exists data.
  rewrite loadTrainingData_lookup, saveTrainingData_lookup, Hdata.
  rewrite loadFiles_pointsOf, pointsOf_writeFile by assumption.
  cbn [app]. destruct data; [now destruct Hne|auto].
Qed.

(** The theorem at one symbol with two points and no directory yet. *)
Lemma save_then_load_round_trip_witness :
  exists loaded,
    loadTrainingData
      (saveTrainingData (fun _ => 0%nat) "2024-05.json"
         {[ "BTCUSDT"%string :=
              [StoreExamples.point 1 100; StoreExamples.point 2 110] ]}
         ∅) ∅
      !! "BTCUSDT"%string
    = Some loaded
    /\ map dp_timestamp loaded = [1; 2]
    /\ loaded = [StoreExamples.point 1 100; StoreExamples.point 2 110].
Proof.
  destruct (save_then_load_round_trip (fun _ => 0%nat) "2024-05.json"
              {[ "BTCUSDT"%string :=
                   [StoreExamples.point 1 100; StoreExamples.point 2 110] ]}
              ∅ ∅ "BTCUSDT"
              [StoreExamples.point 1 100; StoreExamples.point 2 110])
    as (loaded & Hload & Htime & _ & Hsame).
  - reflexivity.
  - reflexivity.
  - discriminate.
  - constructor.
  - constructor.
  - exists loaded. split; [exact Hload|]. split; [exact Htime|].
    apply Hsame. reflexivity.
Defined.

End StoreProps.

(* ================================================================== *)
(** * The label backfill on disk *)
(* ================================================================== *)

Module BackfillProps.
Import JS Tracker TrackerFacts.

Lemma findIndex_first timestamp data i :
  findIndex timestamp data = Some i ->
  forall j d, (j < i)%nat -> data !! j = Some d -> dp_timestamp d <> timestamp.
Proof.
  revert i. induction data as [|d0 data IH]; intros i; simpl; [discriminate|].
  destruct (Z.eqb_spec (dp_timestamp d0) timestamp) as [E|N].
  - intros [= <-] j d Hj. lia.
  - destruct (findIndex timestamp data) as [k|] eqn:Hk; simpl; [|discriminate].
    intros [= <-] [|j] d Hj Hd; simpl in Hd.
    + now injection Hd as <-.
    + apply (IH k eq_refl j d); [lia|exact Hd].
Qed.

(** A backfill that succeeds rewrites one point.  The listing splits around
    one [.json] file that parses; in it the first point with the timestamp
    is replaced by its labelled version and nothing else changes: the files
    listed before (none of which holds the timestamp) and after, their
    names and every other point are as they were.  A second copy of the
    point in a later file keeps its old label. *)
Theorem backfill_rewrites_one_point f timestamp files files' :
  updateFiles f timestamp files = Some files' ->
  exists before name data i d after,
    files = before ++ (name, Parsed data) :: after
    /\ files' = before ++ (name, Parsed (<[i := f d]> data)) :: after
    /\ endsWith name ".json" = true
    /\ data !! i = Some d
    /\ dp_timestamp d = timestamp
    /\ (forall j d', (j < i)%nat -> data !! j = Some d' ->
          dp_timestamp d' <> timestamp)
    /\ Forall (fun file =>
                 endsWith (fst file) ".json" = true ->
                 exists data', snd file = Parsed data'
                               /\ findIndex timestamp data' = None) before.
Proof.
  revert files'.
  induction files as [|[n c] rest IH]; intros files'; cbn [updateFiles];
    [discriminate|].
  destruct (endsWith n ".json") eqn:Hjson.
  - destruct c as [|data]; [discriminate|].
    destruct (findIndex timestamp data) as [i|] eqn:Hi.
    + intros [= <-].
      destruct (findIndex_lookup timestamp data i Hi) as (d & Hd & Ht).
      exists [], n, data, i, d, rest.
      rewrite (updateAt_found f i data d Hd).
      repeat split; try assumption; try reflexivity.
      * now apply findIndex_first.
      * constructor.
    + destruct (updateFiles f timestamp rest) as [rest'|]; [|discriminate].
      intros [= <-].
      destruct (IH rest' eq_refl)
        as (before & name & data0 & i & d & after & -> & -> & H1 & H2 & H3 & H4 & H5).
      exists ((n, Parsed data) :: before), name, data0, i, d, after.
      repeat split; try assumption; try reflexivity.
      constructor; [|exact H5]. intros _. now exists data.
  - destruct (updateFiles f timestamp rest) as [rest'|]; [|discriminate].
    intros [= <-].
    destruct (IH rest' eq_refl)
      as (before & name & data0 & i & d & after & -> & -> & H1 & H2 & H3 & H4 & H5).
    exists ((n, c) :: before), name, data0, i, d, after.
    repeat split; try assumption; try reflexivity.
    constructor; [|exact H5]. cbn [fst]. rewrite Hjson. discriminate.
Qed.

(** The theorem at two months of points, for the point of the second
    month. *)
Lemma backfill_rewrites_one_point_witness :
  exists before name data i d after,
    [("2024-03.json"%string,
      Parsed [StoreExamples.point 1 100; StoreExamples.point 2 101]);
     ("notes.txt"%string, Unparsable);
     ("2024-04.json"%string, Parsed [StoreExamples.point 3 102])]
    = before ++ (name, Parsed data) :: after
    /\ data !! i = Some d
    /\ dp_timestamp d = 3.
Proof.
  destruct (backfill_rewrites_one_point (writeLabel (Fin 5)) 3
              [("2024-03.json"%string,
                Parsed [StoreExamples.point 1 100; StoreExamples.point 2 101]);
               ("notes.txt"%string, Unparsable);
               ("2024-04.json"%string, Parsed [StoreExamples.point 3 102])]
              _ eq_refl)
    as (before & name & data & i & d & after & H1 & _ & _ & H2 & H3 & _).
  exists before, name, data, i, d, after. auto.
Defined.

Lemma updateFiles_blocked f timestamp before name after :
  endsWith name ".json" = true ->
  Forall (fun file =>
            endsWith (fst file) ".json" = true ->
            exists data', snd file = Parsed data'
                          /\ findIndex timestamp data' = None) before ->
  updateFiles f timestamp (before ++ (name, Unparsable) :: after) = None.
Proof.
  intros Hjson. induction 1 as [|[n c] rest Hhead _ IH]; cbn [app updateFiles].
  - now rewrite Hjson.
  - cbn [fst snd] in Hhead. destruct (endsWith n ".json").
    + destruct (Hhead eq_refl) as (data' & -> & ->). now rewrite IH.
    + now rewrite IH.
Qed.

(** A file that does not parse blocks the backfill of every point stored
    after it.  When the first [.json] file that is corrupt is listed before
    any file holding the timestamp, the collector's backfill writes nothing
    and returns false, and the tracker's backfill puts the label in memory
    only: the files on disk stay as they were, so memory and disk
    disagree. *)
Theorem corrupt_file_blocks_backfill st symbol timestamp currentPrice
    data i d before name after priceChange :
  trainingData st !! symbol = Some data ->
  findIndex timestamp data = Some i ->
  data !! i = Some d ->
  mlDataDir st !! symbol = Some (before ++ (name, Unparsable) :: after) ->
  endsWith name ".json" = true ->
  Forall (fun file =>
            endsWith (fst file) ".json" = true ->
            exists data', snd file = Parsed data'
                          /\ findIndex timestamp data' = None) before ->
  let st' := updateFuturePriceChange (Return currentPrice) st symbol timestamp in
  mlDataDir st' = mlDataDir st
  /\ trainingData st' !! symbol
     = Some (<[i := writeLabel (percentChange currentPrice (dp_close d)) d]> data)
  /\ Collector.updateFuturePriceChange (mlDataDir st) symbol timestamp priceChange
     = (mlDataDir st, false).
Proof.
  intros Hs Hi Hd Hdir Hjson Hbefore st'. subst st'.
  rewrite (updateFuturePriceChange_found _ st symbol timestamp data i d Hs Hi Hd).
  unfold updateStoredDataPoint, Collector.updateFuturePriceChange.
  unfold log, setTrainingData. cbn [mlDataDir].
  unfold Directory in *. rewrite Hdir.
  rewrite !(updateFiles_blocked _ timestamp before name after Hjson Hbefore).
  cbn [fst mlDataDir trainingData].
  split; [reflexivity|]. split; [apply lookup_insert_eq|reflexivity].
Qed.

(** The theorem at a tracker whose directory lists a corrupt file first. *)
Lemma corrupt_file_blocks_backfill_witness :
  let st := setMlDataDir TrackerExamples.tracking
              {[ "BTCUSDT"%string :=
                   [("2024-04.json"%string, Unparsable);
                    ("2024-05.json"%string,
                     Parsed [mkDataPoint 2 "BTCUSDT" (Fin 100) SNull SNull
                               SUndefined])] ]} in
  let st' := updateFuturePriceChange (Return (Fin 110)) st "BTCUSDT" 2 in
  mlDataDir st' = mlDataDir st
  /\ trainingData st' !! "BTCUSDT"%string
     = Some (<[0%nat := writeLabel (percentChange (Fin 110) (Fin 100))
                          (mkDataPoint 2 "BTCUSDT" (Fin 100) SNull SNull SUndefined)]>
               [mkDataPoint 2 "BTCUSDT" (Fin 100) SNull SNull SUndefined]).
Proof.
  intros st st'.
  destruct (corrupt_file_blocks_backfill st "BTCUSDT" 2 (Fin 110)
              [mkDataPoint 2 "BTCUSDT" (Fin 100) SNull SNull SUndefined]
              0%nat (mkDataPoint 2 "BTCUSDT" (Fin 100) SNull SNull SUndefined)
              [] "2024-04.json"
              [("2024-05.json"%string,
                Parsed [mkDataPoint 2 "BTCUSDT" (Fin 100) SNull SNull SUndefined])]
              (Fin 10) eq_refl eq_refl eq_refl eq_refl eq_refl (List.Forall_nil _))
    as (H1 & H2 & _).
  split; [exact H1|exact H2].
Defined.

End BackfillProps.

(* ================================================================== *)
(** * More on the model service *)
(* ================================================================== *)

Module ModelProps.
Import JS BrainML NumFacts BrainMLFacts.

(** ** Normalisation and its inverse *)

Lemma convex_in_range (c min max : Q) :
  (min < max)%Q -> (0 <= c <= 1)%Q ->
  (min <= c * (max + - min) + min <= max)%Q.
Proof.
  intros Hlt Hc.
  assert (0 <= c * (max + - min))%Q by (apply Qmult_le_0_compat; lra).
  assert (0 <= (1 - c) * (max + - min))%Q as H1
    by (apply Qmult_le_0_compat; lra).
  assert ((1 - c) * (max + - min) == (max + - min) - c * (max + - min))%Q as E
    by ring.
  rewrite E in H1. lra.
Qed.

(** [denormalizeValue] on a range whose ends are integers of magnitude at
    most 2^52, as the range from -10 to 10 of every call in the program,
    always returns a finite number inside the range: the middle of the range
    for null, undefined and NaN, the low end for 0 and below and the high
    end for 1 and above.  The sum and the difference of such ends are
    integers of magnitude at most 2^53, which the code forms without
    rounding. *)
Theorem denormalizeValue_in_range (normalized : Scalar) (min max : Z) :
  - Limits.EXACT_INTEGER <= min -> min < max -> max <= Limits.EXACT_INTEGER ->
  exists r : Q,
    denormalizeValue normalized (ofZ min) (ofZ max) = Fin r
    /\ (inject_Z min <= r <= inject_Z max)%Q
    /\ (isNull normalized || isUndefined normalized || isNaN normalized = true ->
        r == inject_Z (min + max) / 2)%Q
    /\ (forall v, normalized = SNum (Fin v) ->
          ((v <= 0 -> r == inject_Z min) /\ (1 <= v -> r == inject_Z max))%Q)
    /\ (normalized = SNum NInf -> r == inject_Z min)%Q
    /\ (normalized = SNum PInf -> r == inject_Z max)%Q.
Proof.
  intros _ Hz _. unfold ofZ.
  assert (inject_Z min < inject_Z max)%Q as Hlt by now rewrite <- Zlt_Qlt.
  revert Hlt. rewrite inject_Z_plus.
  generalize (inject_Z min) (inject_Z max). clear min max Hz.
  intros min max Hlt. unfold denormalizeValue.
  destruct (isNull normalized || isUndefined normalized || isNaN normalized)
    eqn:Hmissing.
  { cbn [add]. rewrite div_Fin_pos by lra.
    exists ((min + max) / 2)%Q. split; [reflexivity|].
    split; [split; [apply Qle_shift_div_l|apply Qle_shift_div_r]; lra|].
    split; [reflexivity|].
    repeat split; intros; subst normalized; discriminate Hmissing. }
  rewrite (geb_Fin_false _ _ Hlt).
  assert (numIsNaN (toNumber normalized) = false) as Hnan.
  { destruct normalized as [| |x]; try discriminate Hmissing.
    simpl in *. now destruct x. }
  destruct (clamp_in_range (toNumber normalized) 0 1 Hnan ltac:(lra))
    as (c & -> & Hc & Hcase).
  cbn [sub opp add mul].
  exists (c * (max + - min) + min)%Q. split; [reflexivity|].
  split; [now apply convex_in_range|]. split; [discriminate|].
  repeat split.
  - intros Hv. subst normalized. simpl in Hcase.
    destruct Hcase as (Hlo & _). rewrite (Hlo Hv). ring.
  - intros Hv. subst normalized. simpl in Hcase.
    destruct Hcase as (_ & Hhi & _). rewrite (Hhi Hv). ring.
  - intros ->. simpl in Hcase. rewrite Hcase. ring.
  - intros ->. simpl in Hcase. rewrite Hcase. ring.
Qed.

(** Why the ends are integers.  On the range from -0.1 to 0.2, whose
    difference is not a double, the doubles of the code take the fraction 1
    to 0.20000000000000004, past the high end; on the range from -10 to 10
    they take it to 10. *)
Lemma denormalizeValue_rounding_example :
  PrimFloat.ltb 0x1.999999999999ap-3
    (Doubles.denormalizeValue (Doubles.VNum 1)
       (PrimFloat.opp 0x1.999999999999ap-4) 0x1.999999999999ap-3) = true
  /\ PrimFloat.eqb
       (Doubles.denormalizeValue (Doubles.VNum 1) (PrimFloat.opp 10) 10) 10
     = true.
Proof. split; vm_compute; reflexivity. Qed.

(** The theorem at the fraction 3/4 on the range -10 to 10. *)
Lemma denormalizeValue_in_range_witness :
  exists r : Q,
    denormalizeValue (SNum (Fin (3 # 4))) (Fin (-10)) (Fin 10) = Fin r
    /\ (-10 <= r <= 10)%Q.
Proof.
  destruct (denormalizeValue_in_range (SNum (Fin (3 # 4))) (-10) 10)
    as (r & Hr & Hb & _).
  - vm_compute. discriminate.
  - reflexivity.
  - vm_compute. discriminate.
  - exists r. split; [exact Hr|exact Hb].
Defined.

(** ** The model cache *)

Lemma cacheHas_false {V} (cache : list (string * V)) key :
  cacheHas cache key = false <-> key ∉ map fst cache.
Proof.
  unfold cacheHas. induction cache as [|[k v] rest IH]; cbn [existsb map fst].
  - split; [intros _ Hin; inversion Hin|reflexivity].
  - rewrite orb_false_iff, IH, not_elem_of_cons.
    destruct (String.eqb_spec k key) as [->|Hne]; split.
    + intros (H & _); discriminate.
    + intros (H & _); now destruct H.
    + intros (_ & H). split; [congruence|exact H].
    + intros (_ & H). split; [reflexivity|exact H].
Qed.

Lemma cacheSet_new {V} (cache : list (string * V)) key v :
  cacheHas cache key = false -> cacheSet cache key v = cache ++ [(key, v)].
Proof.
  unfold cacheHas. induction cache as [|[k w] rest IH]; cbn [existsb cacheSet app fst];
    [reflexivity|].
  intros H. apply orb_false_iff in H as (-> & H). now rewrite IH.
Qed.

Lemma evictOldest_tl {V} (cache : list (string * V)) :
  NoDup (map fst cache) -> evictOldest cache = tl cache.
Proof.
  destruct cache as [|[k v] rest]; [reflexivity|].
  cbn [map fst]. intros Hnd. apply NoDup_cons in Hnd as (Hnotin & _).
  unfold evictOldest, cacheDelete. cbn [List.filter fst tl].
  rewrite String.eqb_refl. cbn [negb].
  induction rest as [|[k' v'] rest IH]; cbn [List.filter fst]; [reflexivity|].
  cbn [map fst] in Hnotin. apply not_elem_of_cons in Hnotin as (Hne & Hnotin).
  destruct (String.eqb_spec k' k) as [->|_]; [now destruct Hne|].
  cbn [negb]. now rewrite IH.
Qed.

Lemma cacheModel_step {V} (cache : list (string * V)) symbol net :
  NoDup (map fst cache) -> cacheHas cache symbol = false ->
  cacheModel cache symbol net
  = (if (50 <? length cache)%nat then tl cache else cache) ++ [(symbol, net)].
Proof.
  intros Hnd Hnew. unfold cacheModel.
  destruct (50 <? length cache)%nat.
  - rewrite (evictOldest_tl cache Hnd). apply cacheSet_new.
    apply cacheHas_false. apply cacheHas_false in Hnew.
    destruct cache as [|kv rest]; [exact Hnew|].
    cbn [tl map] in *. now apply not_elem_of_cons in Hnew.
  - now apply cacheSet_new.
Qed.

Lemma predictPriceChange_step {H M} store (cache : list (string * Net H M))
    symbol features :
  NoDup (map fst cache) ->
  fst (predictPriceChange H M store cache symbol features) = cache
  \/ (cacheHas cache symbol = false
      /\ exists net,
           fst (predictPriceChange H M store cache symbol features)
           = (if (50 <? length cache)%nat then tl cache else cache)
             ++ [(symbol, net)]).
Proof.
  intros Hnd. unfold predictPriceChange.
  destruct (negb (validateSymbol symbol) || negb (validateFeatures features));
    [now left|].
  match goal with
  | |- context [existsSync (modelFile H M ?p)] => generalize p; intros paths
  end.
  destruct (negb (existsSync (modelFile H M paths))
            || negb (existsSync (featuresFile H M paths))); [now left|].
  destruct (cacheHas cache symbol) eqn:Hhas; [now left|].
  destruct (modelFile H M paths) as [| |modelJson]; [now left|now left|].
  destruct (hyperparamsFile H M paths) as [| |hyperparams]; cbn [fst];
    [|now left|].
  - right. split; [reflexivity|]. eexists. now apply cacheModel_step.
  - right. split; [reflexivity|]. eexists. now apply cacheModel_step.
Qed.

(** The model cache is first in, first out.  On a cache with one entry per
    symbol, a call of [predictPriceChange] either leaves the cache as it is
    - always so when the symbol's model is resident: a hit does not move
    the entry - or puts the newly loaded model last, after dropping the
    entry that was inserted first if more than 50 were resident. *)
Theorem model_cache_is_first_in_first_out {H M} store
    (modelCache : list (string * Net H M)) symbol features :
  NoDup (map fst modelCache) ->
  let cache' := fst (predictPriceChange H M store modelCache symbol features) in
  (cacheHas modelCache symbol = true -> cache' = modelCache)
  /\ (cache' = modelCache
      \/ exists net,
           cache'
           = (if (50 <? length modelCache)%nat then tl modelCache else modelCache)
             ++ [(symbol, net)])
  /\ NoDup (map fst cache').
Proof.
  intros Hnd cache'. subst cache'.
  destruct (predictPriceChange_step store modelCache symbol features Hnd)
    as [->|(Hnew & net & ->)].
  - split; [reflexivity|]. split; [now left|exact Hnd].
  - split; [rewrite Hnew; discriminate|]. split; [right; now exists net|].
    rewrite map_app. cbn [map fst]. apply NoDup_app.
    apply cacheHas_false in Hnew.
    destruct (50 <? length modelCache)%nat.
    + destruct modelCache as [|kv rest]; cbn [tl map] in *.
      * split; [constructor|]. split; [intros x Hx; inversion Hx|].
        apply NoDup_singleton.
      * apply NoDup_cons in Hnd as (_ & Hnd).
        apply not_elem_of_cons in Hnew as (_ & Hnew).
        split; [exact Hnd|]. split; [|apply NoDup_singleton].
        intros x Hx Hx'. apply list_elem_of_singleton in Hx' as ->. auto.
    + split; [exact Hnd|]. split; [|apply NoDup_singleton].
      intros x Hx Hx'. apply list_elem_of_singleton in Hx' as ->. auto.
Qed.

(** The theorem at a cache of 51 models and a 52nd symbol. *)
Lemma model_cache_is_first_in_first_out_witness :
  NoDup
    (map fst
       (fst (predictPriceChange unit Q ServiceExamples.fiftyTwoModels
               (ServiceExamples.predictAll ServiceExamples.fiftyOneModels
                  ServiceExamples.fiftyOneSymbols [])
               "B" ServiceExamples.someFeatures))).
Proof.
  destruct (model_cache_is_first_in_first_out ServiceExamples.fiftyTwoModels
              (ServiceExamples.predictAll ServiceExamples.fiftyOneModels
                 ServiceExamples.fiftyOneSymbols [])
              "B" ServiceExamples.someFeatures)
    as (_ & _ & Hnd).
  - apply (bool_decide_unpack _). vm_compute. reflexivity.
  - exact Hnd.
Defined.

Lemma afterPredictions_invariant {H M}
    (calls : list (gmap string (ModelDir H M) * string * Features)) :
  forall modelCache : list (string * Net H M),
    NoDup (map fst modelCache) -> (length modelCache <= 51)%nat ->
    NoDup (map fst (Shapes.afterPredictions calls modelCache))
    /\ (length (Shapes.afterPredictions calls modelCache) <= 51)%nat.
Proof.
  unfold Shapes.afterPredictions.
  induction calls as [|[[store symbol] features] rest IH]; intros cache Hnd Hlen;
    cbn [fold_left fst snd]; [now split|].
  apply IH.
  - destruct (predictPriceChange_step store cache symbol features Hnd)
      as [->|(Hnew & net & ->)]; [exact Hnd|].
    rewrite map_app. cbn [map fst]. apply NoDup_app.
    apply cacheHas_false in Hnew.
    assert (NoDup (map fst (tl cache)) /\ symbol ∉ map fst (tl cache))
      as (Hnd' & Hnew').
    { destruct cache as [|kv c]; cbn [tl map] in *; [now split|].
      apply NoDup_cons in Hnd as (_ & Hnd).
      now apply not_elem_of_cons in Hnew as (_ & Hnew). }
    destruct (50 <? length cache)%nat;
      (split; [assumption|]; split; [|apply NoDup_singleton]);
      intros x Hx Hx'; apply list_elem_of_singleton in Hx' as ->; auto.
  - now apply predictPriceChange_at_most_51.
Qed.

(** Over any sequence of predictions, starting with no model resident, the
    cache holds at most 51 models and never two for one symbol, whatever
    the symbols, the features and the model files present at each call. *)
Theorem model_cache_holds_at_most_51_models {H M}
    (calls : list (gmap string (ModelDir H M) * string * Features)) :
  (length (Shapes.afterPredictions calls []) <= 51)%nat
  /\ NoDup (map fst (Shapes.afterPredictions calls [])).
Proof.
  destruct (afterPredictions_invariant calls []) as (H1 & H2);
    [constructor|simpl; lia|now split].
Qed.

(** ** The ensemble *)

Lemma denormalizeValue_finite (normalized : Scalar) (min max : Q) :
  (min < max)%Q ->
  exists r : Q,
    denormalizeValue normalized (Fin min) (Fin max) = Fin r
    /\ (min <= r <= max)%Q.
Proof.
  intros Hlt. unfold denormalizeValue.
  destruct (isNull normalized || isUndefined normalized || isNaN normalized)
    eqn:Hmissing.
  { cbn [add]. rewrite div_Fin_pos by lra. eexists. split; [reflexivity|].
    split; [apply Qle_shift_div_l|apply Qle_shift_div_r]; lra. }
  rewrite (geb_Fin_false _ _ Hlt).
  assert (numIsNaN (toNumber normalized) = false) as Hnan.
  { destruct normalized as [| |x]; try discriminate Hmissing.
    simpl in *. now destruct x. }
  destruct (clamp_in_range (toNumber normalized) 0 1 Hnan ltac:(lra))
    as (c & -> & Hc & _).
  cbn [sub opp add mul]. eexists. split; [reflexivity|].
  now apply convex_in_range.
Qed.

Lemma max_Fin_exists (a b : Q) :
  exists m, JS.max (Fin a) (Fin b) = Fin m /\ (a <= m)%Q.
Proof.
  unfold JS.max, compare. destruct (a ?= b)%Q eqn:E.
  - exists a. split; [reflexivity|lra].
  - apply Qlt_alt in E. exists b. split; [reflexivity|lra].
  - exists a. split; [reflexivity|lra].
Qed.

Lemma predictEach_range {H M} (run : option H -> M -> Input -> Scalar) input
    (versions : list (DirEntry H M)) :
  forall predictions,
    predictEach H M run input versions = Return predictions ->
    (length predictions <= length versions)%nat
    /\ Forall (fun p => exists r, p = Fin r /\ (-10 <= r <= 10)%Q) predictions.
Proof.
  induction versions as [|e rest IH]; intros predictions; cbn [predictEach].
  - intros [= <-]. split; [simpl; lia|constructor].
  - destruct (negb (existsSync (modelFile H M (files H M e)))
              || negb (existsSync (featuresFile H M (files H M e)))).
    + intros Hp. destruct (IH _ Hp). split; [simpl; lia|assumption].
    + destruct (modelFile H M (files H M e)) as [| |modelJson];
        try discriminate.
      destruct (featuresFile H M (files H M e)) as [| |names]; try discriminate.
      destruct (predictEach H M run input rest) as [more|] eqn:Hrest;
        cbn [bind]; [|discriminate].
      intros [= <-]. destruct (IH more eq_refl) as (Hlen & Hall).
      split; [simpl; lia|]. constructor; [|exact Hall].
      destruct (denormalizeValue_finite (run None modelJson input) (-10) 10
                  eq_refl) as (r & -> & Hr).
      now exists r.
Qed.

Lemma weighted_range (n : nat) (predictions : list Num) :
  Forall (fun p => exists r, p = Fin r /\ (-10 <= r <= 10)%Q) predictions ->
  forall (i : nat) (ws w : Q),
    (i + length predictions <= n)%nat ->
    (-10 * w <= ws <= 10 * w)%Q -> (0 <= w)%Q ->
    exists ws' w',
      weighted n i predictions (Fin ws, Fin w) = (Fin ws', Fin w')
      /\ (-10 * w' <= ws' <= 10 * w')%Q
      /\ (w + inject_Z (Z.of_nat (length predictions)) <= w')%Q.
Proof.
  induction 1 as [|p rest (r & -> & Hr) _ IH]; intros i ws w Hn Hws Hw;
    cbn [weighted length fst snd].
  - exists ws, w. split; [reflexivity|]. split; [exact Hws|].
    change (inject_Z (Z.of_nat 0)) with 0%Q. lra.
  - cbn [length] in Hn. unfold ofZ. cbn [mul add].
    set (wt := inject_Z (weightAt n i)).
    assert (1 <= wt)%Q as Hwt.
    { subst wt. change 1%Q with (inject_Z 1). rewrite <- Zle_Qle.
      unfold weightAt. lia. }
    assert (0 <= (r + 10) * wt)%Q as H1 by (apply Qmult_le_0_compat; lra).
    assert (0 <= (10 - r) * wt)%Q as H2 by (apply Qmult_le_0_compat; lra).
    assert ((r + 10) * wt == r * wt + 10 * wt)%Q as E1 by ring.
    assert ((10 - r) * wt == 10 * wt - r * wt)%Q as E2 by ring.
    rewrite E1 in H1. rewrite E2 in H2.
    destruct (IH (S i) (ws + r * wt)%Q (w + wt)%Q ltac:(lia) ltac:(lra)
                ltac:(lra)) as (ws' & w' & -> & Hb & Hw').
    exists ws', w'. split; [reflexivity|]. split; [exact Hb|].
    rewrite Nat2Z.inj_succ, <- Z.add_1_r, inject_Z_plus.
    change (inject_Z 1) with 1%Q. lra.
Qed.

Lemma squares_nonneg (p : Q) (predictions : list Num) :
  Forall (fun x => exists r, x = Fin r /\ (-10 <= r <= 10)%Q) predictions ->
  forall acc : Q, (0 <= acc)%Q ->
    exists v,
      fold_left (fun sum pred => add sum (mul (sub pred (Fin p)) (sub pred (Fin p))))
        predictions (Fin acc)
      = Fin v
      /\ (0 <= v)%Q.
Proof.
  induction 1 as [|x rest (r & -> & _) _ IH]; intros acc Hacc; cbn [fold_left].
  - now exists acc.
  - cbn [sub opp add mul]. apply IH.
    pose proof (Qsquare_nonneg (r + - p)). lra.
Qed.

Lemma min_max_Fin (lo hi x : Q) :
  (lo <= hi)%Q ->
  exists c, JS.min (Fin hi) (JS.max (Fin lo) (Fin x)) = Fin c
            /\ (lo <= c <= hi)%Q.
Proof.
  intros Hle. unfold JS.min, JS.max, compare.
  destruct (lo ?= x)%Q eqn:E1.
  - apply Qeq_alt in E1. destruct (hi ?= lo)%Q eqn:E2.
    + exists hi. apply Qeq_alt in E2. split; [reflexivity|lra].
    + apply Qlt_alt in E2. lra.
    + exists lo. split; [reflexivity|lra].
  - apply Qlt_alt in E1. destruct (hi ?= x)%Q eqn:E2.
    + exists hi. split; [reflexivity|lra].
    + exists hi. split; [reflexivity|lra].
    + apply Qgt_alt in E2. exists x. split; [reflexivity|lra].
  - destruct (hi ?= lo)%Q eqn:E2.
    + exists hi. split; [reflexivity|lra].
    + apply Qlt_alt in E2. lra.
    + exists lo. split; [reflexivity|lra].
Qed.

Lemma combine_count (sqrtQ : Q -> Q) (predictions : list Num) :
  individualPredictions (combine sqrtQ predictions) = predictions
  /\ modelCount (combine sqrtQ predictions) = length predictions.
Proof. unfold combine. now destruct (weighted _ _ _ _). Qed.

(** What [combine] returns on predictions in the range of
    [denormalizeValue]. *)
Lemma combine_range (sqrtQ : Q -> Q) (predictions : list Num) :
  (forall x, 0 <= sqrtQ x)%Q ->
  predictions <> [] ->
  Forall (fun p => exists r, p = Fin r /\ (-10 <= r <= 10)%Q) predictions ->
  (exists p, en_prediction (combine sqrtQ predictions) = Fin p
             /\ (-10 <= p <= 10)%Q)
  /\ (exists s, en_stdDev (combine sqrtQ predictions) = Fin s /\ (0 <= s)%Q)
  /\ (en_confidence (combine sqrtQ predictions) = NaN
      \/ exists c, en_confidence (combine sqrtQ predictions) = Fin c
                   /\ (0 <= c <= 1)%Q).
Proof.
  intros Hsqrt Hne Hall. unfold combine.
  destruct (weighted_range (length predictions) predictions Hall 0 0 0
              ltac:(lia) ltac:(lra) ltac:(lra)) as (ws & w & -> & Hb & Hw).
  assert (1 <= inject_Z (Z.of_nat (length predictions)))%Q as Hn.
  { change 1%Q with (inject_Z 1). rewrite <- Zle_Qle.
    destruct predictions; [now destruct Hne|simpl; lia]. }
  rewrite (div_Fin_pos ws w) by lra.
  set (p := (ws / w)%Q).
  assert (-10 <= p <= 10)%Q as Hp.
  { subst p. split; [apply Qle_shift_div_l|apply Qle_shift_div_r]; lra. }
  destruct (squares_nonneg p predictions Hall 0 ltac:(lra)) as (v & -> & Hv).
  rewrite div_ofZ_pos
    by (destruct predictions; [now destruct Hne|simpl; lia]).
  set (var := (v / inject_Z (Z.of_nat (length predictions)))%Q).
  assert (0 <= var)%Q as Hvar by (subst var; apply Qle_shift_div_l; lra).
  rewrite (sqrt_Fin_nonneg sqrtQ var Hvar).
  cbn [en_prediction en_stdDev en_confidence].
  split; [now exists p|]. split; [exists (sqrtQ var); split; [reflexivity|apply Hsqrt]|].
  destruct (div (Fin (sqrtQ var)) (abs (Fin p))) as [| | |q].
  - now left.
  - right. cbn [sub opp add]. unfold JS.max at 2. cbn [compare mul].
    destruct (min_max_Fin 0 100 (0 * 100)) as (c & -> & Hc); [lra|].
    rewrite div_Fin_pos by lra. eexists. split; [reflexivity|].
    split; [apply Qle_shift_div_l|apply Qle_shift_div_r]; lra.
  - right. exists (100 / 100)%Q. split; [reflexivity|].
    split; [apply Qle_shift_div_l|apply Qle_shift_div_r]; lra.
  - right. cbn [sub opp add].
    destruct (max_Fin_exists 0 (1 + - q)) as (m & -> & _).
    cbn [mul].
    destruct (min_max_Fin 0 100 (m * 100)) as (c & -> & Hc); [lra|].
    rewrite div_Fin_pos by lra. eexists. split; [reflexivity|].
    split; [apply Qle_shift_div_l|apply Qle_shift_div_r]; lra.
Qed.

(** Every ensemble prediction is within bounds.  Whatever the networks
    output, when [ensemblePrediction] returns a result it combines between
    one and five models, every individual prediction and the combined
    prediction are finite numbers between -10 and 10 (percent), the
    standard deviation is finite and not negative, and the confidence is a
    number between 0 and 1 or NaN. *)
Theorem ensemble_prediction_within_bounds {H M}
    (run : option H -> M -> Input -> Scalar) (sqrtQ : Q -> Q)
    store symbol features e :
  (forall x, 0 <= sqrtQ x)%Q ->
  ensemblePrediction H M run sqrtQ store symbol features = Some e ->
  (1 <= modelCount e <= 5)%nat
  /\ length (individualPredictions e) = modelCount e
  /\ Forall (fun p => exists r, p = Fin r /\ (-10 <= r <= 10)%Q)
       (individualPredictions e)
  /\ (exists p, en_prediction e = Fin p /\ (-10 <= p <= 10)%Q)
  /\ (exists s, en_stdDev e = Fin s /\ (0 <= s)%Q)
  /\ (en_confidence e = NaN
      \/ exists c, en_confidence e = Fin c /\ (0 <= c <= 1)%Q).
Proof.
  intros Hsqrt. unfold ensemblePrediction.
  destruct (negb (validateSymbol symbol) || negb (validateFeatures features));
    [discriminate|].
  destruct (store !! symbol) as [dir|]; [|discriminate].
  assert (length (selectedVersions H M dir) <= 5)%nat as Hfive.
  { unfold selectedVersions. rewrite length_firstn. lia. }
  destruct (selectedVersions H M dir) as [|v versions] eqn:Hsel; [discriminate|].
  destruct (predictEach H M run (normalizeFeatures features) (v :: versions))
    as [predictions|] eqn:Hpred; [|discriminate].
  destruct (predictEach_range run _ _ _ Hpred) as (Hlen & Hall).
  destruct predictions as [|p0 more]; [discriminate|].
  intros [= <-].
  destruct (combine_range sqrtQ (p0 :: more) Hsqrt ltac:(discriminate) Hall)
    as (H1 & H2 & H3).
  destruct (combine_count sqrtQ (p0 :: more)) as (Hind & Hcount).
  rewrite Hind, Hcount.
  split; [simpl in *; lia|]. split; [reflexivity|]. split; [exact Hall|auto].
Qed.

(** The theorem at two versions that predict +1% and +4%. *)
Lemma ensemble_prediction_within_bounds_witness :
  exists e,
    ensemblePrediction unit Q ServiceExamples.constantRun Examples.sqrtApprox
      ServiceExamples.twoVersions "BTCUSDT" ServiceExamples.someFeatures
    = Some e
    /\ (1 <= modelCount e <= 5)%nat
    /\ exists p, en_prediction e = Fin p /\ (-10 <= p <= 10)%Q.
Proof.
  eexists. split; [vm_compute; reflexivity|].
  destruct (ensemble_prediction_within_bounds ServiceExamples.constantRun
              Examples.sqrtApprox ServiceExamples.twoVersions "BTCUSDT"
              ServiceExamples.someFeatures _ sqrtApprox_nonneg eq_refl)
    as (H1 & _ & _ & H2 & _).
  split; [exact H1|exact H2].
Defined.

End ModelProps.

(* ================================================================== *)
(** * Pruning of model versions *)
(* ================================================================== *)

Module RegistryProps.
Import JS BrainML Registry.

#[local] Set Warnings "-clear-no-such-hyp".

Section Registry.
Context {H M : Type}.

Local Abbreviation Entry := (DirEntry H M).
Local Abbreviation name := (entryName H M).
Local Abbreviation born := (birthtime H M).
Local Abbreviation newerFirst := (fun a b : DirEntry H M => birthtime H M b <= birthtime H M a).

Lemma insertNewestFirst_Permutation (x : Entry) (l : list Entry) :
  Permutation (insertNewestFirst H M x l) (x :: l).
Proof.
  induction l as [|y rest IH]; cbn [insertNewestFirst]; [reflexivity|].
  destruct (born y <=? born x); [reflexivity|].
  rewrite IH. apply perm_swap.
Qed.

Lemma sortNewestFirst_Permutation (l : list Entry) :
  Permutation (sortNewestFirst H M l) l.
Proof.
  unfold sortNewestFirst. induction l as [|x rest IH]; cbn [foldr]; [reflexivity|].
  rewrite insertNewestFirst_Permutation. now rewrite IH.
Qed.

Lemma insertNewestFirst_sorted (x : Entry) (l : list Entry) :
  StronglySorted newerFirst l ->
  StronglySorted newerFirst (insertNewestFirst H M x l).
Proof.
  induction 1 as [|y rest Hs IH Hall]; cbn [insertNewestFirst].
  - repeat constructor.
  - destruct (Z.leb_spec (born y) (born x)).
    + constructor; [now constructor|].
      constructor; [assumption|].
      eapply List.Forall_impl; [|exact Hall]. cbn. intros z Hz. lia.
    + constructor; [exact IH|].
      rewrite insertNewestFirst_Permutation. constructor; [lia|exact Hall].
Qed.

Lemma sortNewestFirst_sorted (l : list Entry) :
  StronglySorted newerFirst (sortNewestFirst H M l).
Proof.
  unfold sortNewestFirst. induction l as [|x rest IH]; cbn [foldr].
  - constructor.
  - now apply insertNewestFirst_sorted.
Qed.

Lemma length_sortNewestFirst (l : list Entry) :
  length (sortNewestFirst H M l) = length l.
Proof. apply Permutation_length, sortNewestFirst_Permutation. Qed.

Lemma sorted_split (l1 l2 : list Entry) :
  StronglySorted newerFirst (l1 ++ l2) ->
  forall a b, a ∈ l1 -> b ∈ l2 -> born b <= born a.
Proof.
  induction l1 as [|x rest IH]; cbn [app]; intros Hs a b Ha Hb.
  - inversion Ha.
  - apply StronglySorted_inv in Hs as (Hs & Hall).
    apply elem_of_cons in Ha as [->|Ha]; [|now apply IH].
    rewrite Forall_forall in Hall. apply Hall. set_solver.
Qed.

Lemma filter_length_Permutation (f : Entry -> bool) (l1 l2 : list Entry) :
  Permutation l1 l2 -> length (List.filter f l1) = length (List.filter f l2).
Proof.
  induction 1 as [|x l1 l2 _ IH|x y l|l1 l2 l3 _ IH1 _ IH2]; cbn [List.filter].
  - reflexivity.
  - destruct (f x); cbn [length]; now rewrite IH.
  - destruct (f x), (f y); reflexivity.
  - now rewrite IH1.
Qed.

Lemma filter_all (f : Entry -> bool) (l : list Entry) :
  (forall e, e ∈ l -> f e = true) -> List.filter f l = l.
Proof.
  induction l as [|x rest IH]; intros Hall; cbn [List.filter]; [reflexivity|].
  rewrite (Hall x) by set_solver. rewrite IH; [reflexivity|].
  intros e He. apply Hall. set_solver.
Qed.

Lemma filter_none (f : Entry -> bool) (l : list Entry) :
  (forall e, e ∈ l -> f e = false) -> List.filter f l = [].
Proof.
  induction l as [|x rest IH]; intros Hall; cbn [List.filter]; [reflexivity|].
  rewrite (Hall x) by set_solver. apply IH.
  intros e He. apply Hall. set_solver.
Qed.

Lemma filter_commute (f g : Entry -> bool) (l : list Entry) :
  List.filter f (List.filter g l) = List.filter g (List.filter f l).
Proof.
  induction l as [|x rest IH]; cbn [List.filter]; [reflexivity|].
  destruct (f x) eqn:Ef, (g x) eqn:Eg; cbn [List.filter];
    rewrite ?Ef, ?Eg, IH; reflexivity.
Qed.

Lemma same_name_same_entry (l : list Entry) (a b : Entry) :
  NoDup (map name l) -> a ∈ l -> b ∈ l -> name a = name b -> a = b.
Proof.
  induction l as [|x rest IH]; cbn [map]; intros Hnd Ha Hb Hab.
  - inversion Ha.
  - apply NoDup_cons in Hnd as (Hx & Hnd).
    apply elem_of_cons in Ha as [->|Ha], Hb as [->|Hb]; auto.
    + destruct Hx. rewrite Hab. now apply list_elem_of_fmap_2.
    + destruct Hx. rewrite <- Hab. now apply list_elem_of_fmap_2.
Qed.

Lemma existsb_name (l : list Entry) (e : Entry) :
  existsb (fun d => String.eqb (name d) (name e)) l = true
  <-> exists d, d ∈ l /\ name d = name e.
Proof.
  rewrite existsb_exists. split; intros (d & Hd & Hn); exists d.
  - apply list_elem_of_In in Hd. split; [exact Hd|now apply String.eqb_eq].
  - apply list_elem_of_In in Hd. split; [exact Hd|now apply String.eqb_eq].
Qed.

(** Pruning keeps the newest versions.  When every deletion succeeds and
    the directory lists more than [keepCount] version directories, exactly
    [keepCount] of them are left, every one that is left was created no
    earlier than every one that was deleted, and nothing else in the
    directory - [latest], the files at the top, directories that are not
    versions - is touched.  With [keepCount] or fewer versions nothing is
    deleted and the function returns false. *)
Theorem pruning_keeps_the_newest_versions deletes
    (store : gmap string (list Entry)) symbol keepCount (listing : list Entry) :
  validateSymbol symbol = true ->
  store !! symbol = Some listing ->
  NoDup (map name listing) ->
  0 <= keepCount ->
  (forall version, deletes version = true) ->
  let versions := List.filter (isVersion H M) listing in
  let result := pruneOldModelVersions H M deletes store symbol keepCount in
  (Z.of_nat (length versions) <= keepCount -> result = (store, false))
  /\ (keepCount < Z.of_nat (length versions) ->
      exists listing',
        result = (<[symbol := listing']> store, true)
        /\ Z.of_nat (length (List.filter (isVersion H M) listing')) = keepCount
        /\ List.filter (fun e => negb (isVersion H M e)) listing'
           = List.filter (fun e => negb (isVersion H M e)) listing
        /\ (forall e, e ∈ listing' -> e ∈ listing)
        /\ (forall kept gone,
              kept ∈ List.filter (isVersion H M) listing' ->
              gone ∈ listing -> gone ∉ listing' ->
              born gone <= born kept)).
Proof.
  intros Hsym Hdir Hnd Hkeep Hdel versions result. subst result.
  unfold pruneOldModelVersions. rewrite Hsym, Hdir. cbn [negb]. fold versions.
  rewrite (length_sortNewestFirst versions).
  destruct (Z.leb_spec (Z.of_nat (length versions)) keepCount) as [Hle|Hgt];
    (split; [intros Hcase|intros Hcase]); try lia; [reflexivity|].
  unfold versionsToDelete, NodeIndicators.sliceFrom. fold versions.
  destruct (Z.ltb_spec keepCount 0) as [|_]; [lia|].
  set (sorted := sortNewestFirst H M versions).
  set (k := Z.to_nat keepCount).
  rewrite (filter_all (fun e => deletes (name e))) by (intros; apply Hdel).
  set (gone := fun e : Entry =>
                 existsb (fun d => String.eqb (name d) (name e)) (drop k sorted)).
  assert (Permutation sorted versions) as Hperm
    by apply sortNewestFirst_Permutation.
  assert (forall e, e ∈ sorted <-> e ∈ listing /\ isVersion H M e = true) as Hin.
  { intros e. rewrite Hperm. unfold versions.
    rewrite list_elem_of_In, filter_In, <- list_elem_of_In. reflexivity. }
  assert (NoDup sorted) as Hnds.
  { rewrite Hperm. unfold versions.
    apply NoDup_ListNoDup, List.NoDup_filter, NoDup_ListNoDup.
    eapply NoDup_fmap_1. exact Hnd. }
  assert (forall e, e ∈ listing -> (gone e = true <-> e ∈ drop k sorted)) as Hgone.
  { intros e He. unfold gone. rewrite existsb_name. split.
    - intros (d & Hd & Hn).
      assert (d ∈ listing) as Hdl.
      { apply Hin. rewrite <- (take_drop k sorted). set_solver. }
      now rewrite <- (same_name_same_entry listing d e Hnd Hdl He Hn).
    - intros Hd. now exists e. }
  exists (List.filter (fun e => negb (gone e)) listing).
  split; [reflexivity|]. split; [|split; [|split]].
  - rewrite filter_commute. fold versions.
    rewrite (filter_length_Permutation _ versions sorted) by now symmetry.
    rewrite <- (take_drop k sorted) at 1. rewrite List.filter_app.
    rewrite (filter_all _ (take k sorted)), (filter_none _ (drop k sorted)).
    + rewrite app_nil_r, length_take.
      assert (length sorted = length versions) by now apply Permutation_length.
      lia.
    + intros e He. apply negb_false_iff, Hgone; [|exact He].
      apply Hin. rewrite <- (take_drop k sorted). set_solver.
    + intros e He. apply negb_true_iff.
      destruct (gone e) eqn:Eg; [|reflexivity].
      apply Hgone in Eg; [|apply Hin; rewrite <- (take_drop k sorted); set_solver].
      rewrite <- (take_drop k sorted) in Hnds.
      apply NoDup_app in Hnds as (_ & Hdisj & _). now destruct (Hdisj e He).
  - rewrite filter_commute. apply filter_all.
    intros e He. apply list_elem_of_In, filter_In in He as (He & Hv).
    apply list_elem_of_In in He.
    apply negb_true_iff. destruct (gone e) eqn:Eg; [|reflexivity].
    apply Hgone in Eg; [|exact He].
    assert (e ∈ sorted) as Hs by (rewrite <- (take_drop k sorted); set_solver).
    apply Hin in Hs as (_ & Hs). rewrite Hs in Hv. discriminate.
  - intros e He. apply list_elem_of_In, filter_In in He as (He & _).
    now apply list_elem_of_In.
  - intros kept e Hkept He Hnot.
    apply list_elem_of_In, filter_In in Hkept as (Hkept & Hv).
    apply filter_In in Hkept as (Hkl & Hkg). apply list_elem_of_In in Hkl.
    assert (e ∈ drop k sorted) as Hed.
    { apply Hgone; [exact He|]. destruct (gone e) eqn:Eg; [reflexivity|].
      destruct Hnot. apply list_elem_of_In, filter_In.
      split; [now apply list_elem_of_In|]. now rewrite Eg. }
    assert (kept ∈ take k sorted) as Hkt.
    { assert (kept ∈ sorted) as Hs by now apply Hin.
      rewrite <- (take_drop k sorted) in Hs.
      apply elem_of_app in Hs as [Hs|Hs]; [exact Hs|].
      apply Hgone in Hs; [|exact Hkl]. rewrite Hs in Hkg. discriminate. }
    apply (sorted_split (take k sorted) (drop k sorted)); try assumption.
    rewrite take_drop. apply sortNewestFirst_sorted.
Qed.

End Registry.

(** The theorem at six versions, keeping five. *)
Lemma pruning_keeps_the_newest_versions_witness :
  exists listing',
    pruneOldModelVersions unit Q (fun _ => true)
      {[ "BTCUSDT"%string := listing unit Q ServiceExamples.sixVersions ]}
      "BTCUSDT" 5
    = (<["BTCUSDT"%string := listing']>
         {[ "BTCUSDT"%string := listing unit Q ServiceExamples.sixVersions ]},
       true)
    /\ Z.of_nat (length (List.filter (isVersion unit Q) listing')) = 5.
Proof.
  destruct (pruning_keeps_the_newest_versions (fun _ => true)
              {[ "BTCUSDT"%string := listing unit Q ServiceExamples.sixVersions ]}
              "BTCUSDT" 5 (listing unit Q ServiceExamples.sixVersions))
    as (_ & Hpruned).
  - reflexivity.
  - reflexivity.
  - apply (bool_decide_unpack _). vm_compute. reflexivity.
  - lia.
  - reflexivity.
  - destruct Hpruned as (listing' & H1 & H2 & _); [vm_compute; reflexivity|].
    exists listing'. split; [exact H1|exact H2].
Defined.

End RegistryProps.
